(** * Loanalize extraction API: the extraction pipeline of [app/main.py]

    A shallow embedding of the statement-extraction service: the Python
    string operations and regular expressions it relies on, the six field
    parsers, the OCR pass selection, text acquisition and the result
    assembler, followed by the properties of the design document that
    are stated about them.

    Modelling conventions.
    - A Python [str] is a list of code points.  The development covers the
      Latin-1 range (code points 0 to 255, which contains the section sign
      U+00A7 that the rate normaliser looks for), so a character is an
      [ascii] and the Unicode character classes are the ones CPython uses
      on that range.
    - A Python [float] is an IEEE binary64 value, kept as sign, integral
      significand and binary exponent; conversions from and to decimal are
      correctly rounded (ties to even), as CPython's are.
    - Calls that leave the process (pypdf, OCRmyPDF, Pillow and Tesseract,
      the file system) are oracles that answer or raise, and the calls are
      recorded in a trace; dateutil is a function that returns a date,
      raises the exception that its callers handle, or raises another
      one. *)

From Stdlib Require Import String Ascii DecimalString.
From Stdlib Require Import ZArith NArith QArith Lia Bool Arith List Sorted.
Import ListNotations.

Set Implicit Arguments.

Local Close Scope Q_scope.
Local Open Scope nat_scope.
Local Open Scope list_scope.

(* ================================================================== *)
(** * Characters and strings *)
(* ================================================================== *)

Module PyStr.

Definition str := list ascii.

(** A string literal of the source. *)
Definition py (s : string) : str := list_ascii_of_string s.

(** The section sign, U+00A7. *)
Definition sect : ascii := ascii_of_N 167.

Definition code (c : ascii) : N := N_of_ascii c.

Definition between (lo hi : N) (c : ascii) : bool :=
  (lo <=? code c)%N && (code c <=? hi)%N.

(** [str.isspace], which is also the class [\s] of [re]. *)
Definition isspace (c : ascii) : bool :=
  between 9 13 c || between 28 32 c || (code c =? 133)%N || (code c =? 160)%N.

(** Unicode category Nd: the class [\d] of [re] and the digits of [float]. *)
Definition isdecimal (c : ascii) : bool := between 48 57 c.

(** [str.isdigit]: the decimal digits and the superscript digits. *)
Definition isdigit (c : ascii) : bool :=
  between 48 57 c || between 178 179 c || (code c =? 185)%N.

(** The class [\w] of [re]: alphanumeric characters and the underscore. *)
Definition isword (c : ascii) : bool :=
  between 48 57 c || between 65 90 c || (code c =? 95)%N || between 97 122 c
  || (code c =? 170)%N || between 178 179 c || (code c =? 181)%N
  || between 185 186 c || between 188 190 c || between 192 214 c
  || between 216 246 c || between 248 255 c.

(** [str.lower] on one character. *)
Definition lower (c : ascii) : ascii :=
  if between 65 90 c || between 192 214 c || between 216 222 c
  then ascii_of_N (code c + 32) else c.

(** [str.upper] on one character.  The result is a list of code points:
    the sharp s becomes two letters, and the micro sign and the y with
    diaeresis leave the Latin-1 range. *)
Definition upper_char (c : ascii) : list N :=
  if between 97 122 c || between 224 246 c || between 248 254 c
  then [(code c - 32)%N]
  else if (code c =? 223)%N then [83%N; 83%N]
  else if (code c =? 181)%N then [924%N]
  else if (code c =? 255)%N then [376%N]
  else [code c].

Definition upper (s : str) : list N := flat_map upper_char s.

Fixpoint str_eqb (a b : str) : bool :=
  match a, b with
  | [], [] => true
  | x :: a', y :: b' => Ascii.eqb x y && str_eqb a' b'
  | _, _ => false
  end.

Fixpoint dropwhile {A} (p : A -> bool) (l : list A) : list A :=
  match l with
  | x :: l' => if p x then dropwhile p l' else l
  | [] => []
  end.

Definition lstrip_by (p : ascii -> bool) (s : str) : str := dropwhile p s.
Definition rstrip_by (p : ascii -> bool) (s : str) : str :=
  rev (dropwhile p (rev s)).

(** [s.strip()] *)
Definition strip (s : str) : str := rstrip_by isspace (lstrip_by isspace s).

(** [s.rstrip(chars)] *)
Definition rstrip (chars : str) (s : str) : str :=
  rstrip_by (fun c => existsb (Ascii.eqb c) chars) s.

Fixpoint starts_with {A} (eqb : A -> A -> bool) (p l : list A) : bool :=
  match p, l with
  | [], _ => true
  | x :: p', y :: l' => eqb x y && starts_with eqb p' l'
  | _ :: _, [] => false
  end.

(** [s.endswith(suffix)] *)
Definition endswith (suffix s : str) : bool :=
  starts_with Ascii.eqb (rev suffix) (rev s).

(** [sub in l] *)
Fixpoint contains {A} (eqb : A -> A -> bool) (sub l : list A) : bool :=
  starts_with eqb sub l ||
  match l with
  | [] => false
  | _ :: l' => contains eqb sub l'
  end.

(** [c in s] for a one-character [c]. *)
Definition has_char (c : ascii) (s : str) : bool := existsb (Ascii.eqb c) s.

(** [s.replace(old, new)] for a non-empty [old]: the occurrences are
    replaced from the left and do not overlap. *)
Fixpoint replace_fuel (fuel : nat) (old new s : str) : str :=
  match fuel with
  | O => s
  | S fuel' =>
      match s with
      | [] => []
      | c :: s' =>
          if starts_with Ascii.eqb old s
          then new ++ replace_fuel fuel' old new (skipn (length old) s)
          else c :: replace_fuel fuel' old new s'
      end
  end.

Definition replace (old new s : str) : str :=
  replace_fuel (length s) old new s.

(** [s[i:j]] for [0 <= i <= j]. *)
Definition slice (s : str) (i j : nat) : str := firstn (j - i) (skipn i s).

(** The line boundaries of [str.splitlines]. *)
Definition islinebreak (c : ascii) : bool :=
  between 10 13 c || between 28 30 c || (code c =? 133)%N.

(** [len(s.splitlines())]: a carriage return followed by a line feed is
    one boundary, and a final boundary opens no further line. *)
Fixpoint count_lines (s : str) (in_line : bool) : nat :=
  match s with
  | [] => if in_line then 1 else 0
  | c :: s' =>
      if islinebreak c then
        match s' with
        | d :: s'' =>
            if (code c =? 13)%N && (code d =? 10)%N
            then S (count_lines s'' false)
            else S (count_lines s' false)
        | [] => 1
        end
      else count_lines s' true
  end.

Definition splitlines_len (s : str) : nat := count_lines s false.

(** Decimal rendering of a natural number, and zero padding. *)
Definition dec_of_N (n : N) : str :=
  list_ascii_of_string (NilZero.string_of_uint (N.to_uint n)).

Definition zfill (w : nat) (s : str) : str :=
  repeat "0"%char (w - length s) ++ s.

End PyStr.
Export PyStr.

(* ================================================================== *)
(** * Regular expressions *)
(* ================================================================== *)

(** The fragment of [re] that the patterns of the service use, matched
    the way [re] matches: by backtracking, alternatives from left to
    right, greedy repetitions from the longest to the shortest. *)
Module Re.

(** One item of a character set. *)
Inductive atom :=
| AChar (c : ascii)      (* a literal *)
| ADigit                 (* \d *)
| ASpace                 (* \s *)
| AWord.                 (* \w *)

Inductive cclass :=
| COne (a : atom)        (* a literal or a class escape *)
| CAny                   (* . *)
| CSet (l : list atom).  (* [...] *)

Inductive regex :=
| Eps
| Chr (c : cclass)
| Seq (r1 r2 : regex)
| Alt (r1 r2 : regex)
| Rep (greedy : bool) (lo : nat) (hi : option nat) (c : cclass)
| Grp (n : nat) (r : regex)      (* capturing group number n *)
| Bol                            (* ^ *)
| Eol.                           (* $ *)

(** [ic] is the flag [re.IGNORECASE]. *)
Definition test_atom (ic : bool) (a : atom) (x : ascii) : bool :=
  match a with
  | AChar c => if ic then Ascii.eqb (lower x) (lower c) else Ascii.eqb x c
  | ADigit => isdecimal x
  | ASpace => isspace x
  | AWord => isword x
  end.

Definition newline : ascii := ascii_of_N 10.

Definition test (ic : bool) (c : cclass) (x : ascii) : bool :=
  match c with
  | COne a => test_atom ic a x
  | CAny => negb (Ascii.eqb x newline)
  | CSet l => existsb (fun a => test_atom ic a x) l
  end.

Definition groups := list (nat * str).

Fixpoint get_group (n : nat) (g : groups) : option str :=
  match g with
  | [] => None
  | (k, v) :: g' => if Nat.eqb k n then Some v else get_group n g'
  end.

Definition set_group (n : nat) (v : str) (g : groups) : groups := (n, v) :: g.

(** A match object: [m.start()], [m.end()] and the groups that took part. *)
Record re_match := { m_start : nat; m_end : nat; m_groups : groups }.

(** [m.group(n)]; [None] is Python's [None] for a group that took no part. *)
Definition group (m : re_match) (n : nat) : option str := get_group n (m_groups m).

Definition may_repeat (hi : option nat) : bool :=
  match hi with Some O => false | _ => true end.

Definition less (hi : option nat) : option nat := option_map pred hi.

Section Matcher.
Variable R : Type.
Variable ic : bool.

(** A repetition of a one-character class, the longest run first. *)
Fixpoint rep_greedy (c : cclass) (lo : nat) (hi : option nat)
    (pos : nat) (s : str) (k : nat -> str -> option R) : option R :=
  let stop := if Nat.eqb lo 0 then k pos s else None in
  match s with
  | x :: s' =>
      if may_repeat hi && test ic c x then
        match rep_greedy c (pred lo) (less hi) (S pos) s' k with
        | Some r => Some r
        | None => stop
        end
      else stop
  | [] => stop
  end.

(** The same repetition, the shortest run first ([*?]). *)
Fixpoint rep_lazy (c : cclass) (lo : nat) (hi : option nat)
    (pos : nat) (s : str) (k : nat -> str -> option R) : option R :=
  match (if Nat.eqb lo 0 then k pos s else None) with
  | Some r => Some r
  | None =>
      match s with
      | x :: s' =>
          if may_repeat hi && test ic c x
          then rep_lazy c (pred lo) (less hi) (S pos) s' k
          else None
      | [] => None
      end
  end.

(** [run r pos s g k]: match [r] at offset [pos], where [s] is what is
    left of the subject, then hand over to the continuation [k]. *)
Fixpoint run (r : regex) (pos : nat) (s : str) (g : groups)
    (k : nat -> str -> groups -> option R) : option R :=
  match r with
  | Eps => k pos s g
  | Chr c =>
      match s with
      | x :: s' => if test ic c x then k (S pos) s' g else None
      | [] => None
      end
  | Seq r1 r2 => run r1 pos s g (fun pos' s' g' => run r2 pos' s' g' k)
  | Alt r1 r2 =>
      match run r1 pos s g k with
      | Some res => Some res
      | None => run r2 pos s g k
      end
  | Rep true lo hi c => rep_greedy c lo hi pos s (fun pos' s' => k pos' s' g)
  | Rep false lo hi c => rep_lazy c lo hi pos s (fun pos' s' => k pos' s' g)
  | Grp n r1 =>
      run r1 pos s g
        (fun pos' s' g' => k pos' s' (set_group n (firstn (pos' - pos) s) g'))
  | Bol => if Nat.eqb pos 0 then k pos s g else None
  | Eol =>
      match s with
      | [] => k pos s g
      | [x] => if Ascii.eqb x newline then k pos s g else None
      | _ => None
      end
  end.
End Matcher.

Definition accept (start : nat) (pos : nat) (_ : str) (g : groups) : option re_match :=
  Some {| m_start := start; m_end := pos; m_groups := g |}.

(** [re.match(r, text)] *)
Definition re_match_at (ic : bool) (r : regex) (text : str) : option re_match :=
  run ic r 0 text [] (accept 0).

(** The leftmost match at or after offset [pos]; [s] is the subject from
    [pos] on. *)
Fixpoint search_from (ic : bool) (r : regex) (pos : nat) (s : str) : option re_match :=
  match run ic r pos s [] (accept pos) with
  | Some m => Some m
  | None =>
      match s with
      | [] => None
      | _ :: s' => search_from ic r (S pos) s'
      end
  end.

(** [re.search(r, text)] *)
Definition re_search (ic : bool) (r : regex) (text : str) : option re_match :=
  search_from ic r 0 text.

(** [re.findall(r, text)] for a pattern without groups: the matched
    substrings, left to right, without overlap.  After an empty match the
    scan moves on by one character; the one pattern this is applied to
    matches no empty string. *)
Fixpoint findall_from (fuel : nat) (ic : bool) (r : regex) (pos : nat) (s : str) : list str :=
  match fuel with
  | O => []
  | S fuel' =>
      match search_from ic r pos s with
      | None => []
      | Some m =>
          let found := slice s (m_start m - pos) (m_end m - pos) in
          if Nat.eqb (m_end m) (m_start m)
          then found :: findall_from fuel' ic r (S (m_end m)) (skipn (S (m_end m - pos)) s)
          else found :: findall_from fuel' ic r (m_end m) (skipn (m_end m - pos) s)
      end
  end.

Definition re_findall (ic : bool) (r : regex) (text : str) : list str :=
  findall_from (S (length text)) ic r 0 text.

(** ** Pattern syntax *)

(** A literal word. *)
Fixpoint lit (s : str) : regex :=
  match s with
  | [] => Eps
  | [c] => Chr (COne (AChar c))
  | c :: s' => Seq (Chr (COne (AChar c))) (lit s')
  end.

Definition word (s : string) : regex := lit (py s).

Fixpoint seq (l : list regex) : regex :=
  match l with
  | [] => Eps
  | [r] => r
  | r :: l' => Seq r (seq l')
  end.

Fixpoint alt (l : list regex) : regex :=
  match l with
  | [] => Eps
  | [r] => r
  | r :: l' => Alt r (alt l')
  end.

Definition opt (r : regex) : regex := Alt r Eps.                   (* (?:r)? *)
Definition star (c : cclass) : regex := Rep true 0 None c.         (* c*  *)
Definition plus (c : cclass) : regex := Rep true 1 None c.         (* c+  *)
Definition maybe (c : cclass) : regex := Rep true 0 (Some 1) c.    (* c?  *)
Definition times (lo hi : nat) (c : cclass) : regex := Rep true lo (Some hi) c. (* c{lo,hi} *)
Definition lazy_star (c : cclass) : regex := Rep false 0 None c.   (* c*? *)

Definition ch (c : ascii) : cclass := COne (AChar c).
Definition digit : cclass := COne ADigit.
Definition space : cclass := COne ASpace.
Definition wordch : cclass := COne AWord.

End Re.
Export Re.

(* ================================================================== *)
(** * Floating-point numbers *)
(* ================================================================== *)

Module PyFloat.

Local Open Scope Z_scope.

(** A binary64 value: not-a-number, an infinity, or the finite value
    [(-1)^neg * m * 2^e] with [0 <= m < 2^53] and [-1074 <= e <= 971]. *)
Inductive float64 :=
| FNan
| FInf (neg : bool)
| FFin (neg : bool) (m : Z) (e : Z).

(** [a / b] rounded to the nearest integer, ties to the even one
    ([0 <= a], [0 < b]). *)
Definition rne_div (a b : Z) : Z :=
  let q := a / b in
  match (2 * (a mod b) ?= b) with
  | Lt => q
  | Gt => q + 1
  | Eq => if Z.even q then q else q + 1
  end.

(** [floor (log2 (p / q))] for positive [p] and [q]. *)
Definition ilog2_ratio (p q : Z) : Z :=
  let d := Z.log2 p - Z.log2 q in
  let above := if 0 <=? d then q * 2 ^ d <=? p else q <=? p * 2 ^ (- d) in
  if above then d else d - 1.

(** The binary64 value nearest to [p / q] ([0 <= p], [0 < q]): 53
    significant bits, subnormal below [2^-1022], infinite from
    [2^1024 - 2^970] on. *)
Definition round_ratio (neg : bool) (p q : Z) : float64 :=
  if p =? 0 then FFin neg 0 0
  else
    let e := Z.max (ilog2_ratio p q - 52) (-1074) in
    let m := if 0 <=? e then rne_div p (q * 2 ^ e) else rne_div (p * 2 ^ (- e)) q in
    let '(m, e) := if m =? 2 ^ 53 then (2 ^ 52, e + 1) else (m, e) in
    if 971 <? e then FInf neg else FFin neg m e.

(** The order between a float and an integer; [None] when the float is
    not a number, for which every comparison of Python is false. *)
Definition compare_int (x : float64) (k : Z) : option comparison :=
  match x with
  | FNan => None
  | FInf neg => Some (if neg then Lt else Gt)
  | FFin neg m e =>
      let sm := if neg then - m else m in
      Some (if 0 <=? e then (sm * 2 ^ e ?= k) else (sm ?= k * 2 ^ (- e)))
  end.

Definition flt (x : float64) (k : Z) : bool :=       (* x < k *)
  match compare_int x k with Some Lt => true | _ => false end.
Definition fgt (x : float64) (k : Z) : bool :=       (* x > k *)
  match compare_int x k with Some Gt => true | _ => false end.
Definition fle (x : float64) (k : Z) : bool :=       (* x <= k *)
  match compare_int x k with Some Lt | Some Eq => true | _ => false end.
Definition fge (x : float64) (k : Z) : bool :=       (* x >= k *)
  match compare_int x k with Some Gt | Some Eq => true | _ => false end.

(** [f"{x:.2f}"]: the decimal expansion of the exact value, rounded to two
    fractional digits, ties to even. *)
Definition digit_char (d : Z) : ascii := ascii_of_N (48 + Z.to_N d).

Definition format_2f (x : float64) : str :=
  match x with
  | FNan => py "nan"
  | FInf neg => (if neg then py "-" else []) ++ py "inf"
  | FFin neg m e =>
      let cents := if 0 <=? e then m * 2 ^ e * 100 else rne_div (m * 100) (2 ^ (- e)) in
      let hundredths := cents mod 100 in
      (if neg then py "-" else [])
        ++ dec_of_N (Z.to_N (cents / 100)) ++ py "."
        ++ [digit_char (hundredths / 10); digit_char (hundredths mod 10)]
  end.

(** ** [float(s)] *)

(** The white space that [float] strips from both ends. *)
Definition float_space (c : ascii) : bool :=
  between 9 13 c || (code c =? 32)%N || (code c =? 133)%N || (code c =? 160)%N.

(** [digitpart ::= digit (["_"] digit)*]: the digits read and what is left. *)
Fixpoint scan_digitpart (s : str) : str * str :=
  match s with
  | [] => ([], [])
  | d :: s' =>
      if isdecimal d then
        match s' with
        | u :: ((d2 :: _) as s'') =>
            if Ascii.eqb u "_" && isdecimal d2
            then let (ds, r) := scan_digitpart s'' in (d :: ds, r)
            else let (ds, r) := scan_digitpart s' in (d :: ds, r)
        | _ => let (ds, r) := scan_digitpart s' in (d :: ds, r)
        end
      else ([], s)
  end.

Definition digit_value (d : ascii) : Z := Z.of_N (code d) - 48.

Definition int_of_digits (ds : str) : Z :=
  fold_left (fun acc d => 10 * acc + digit_value d) ds 0.

(** [exponent ::= ("e" | "E") [sign] digitpart], or nothing. *)
Definition scan_exponent (s : str) : option Z :=
  match s with
  | [] => Some 0
  | x :: s' =>
      if Ascii.eqb (lower x) "e" then
        let '(neg, s'') :=
          match s' with
          | y :: t => if Ascii.eqb y "-" then (true, t)
                      else if Ascii.eqb y "+" then (false, t) else (false, s')
          | [] => (false, s')
          end in
        match scan_digitpart s'' with
        | ((_ :: _) as ds, []) => Some (if neg then - int_of_digits ds else int_of_digits ds)
        | _ => None
        end
      else None
  end.

(** [floatnumber ::= ([digitpart] "." digitpart | digitpart ["."]) [exponent]]. *)
Definition parse_floatnumber (neg : bool) (s : str) : option float64 :=
  let (ip, r1) := scan_digitpart s in
  let '(fp, r2) :=
    match r1 with
    | x :: t => if Ascii.eqb x "." then scan_digitpart t else ([], r1)
    | [] => ([], r1)
    end in
  match ip ++ fp with
  | [] => None
  | ds =>
      match scan_exponent r2 with
      | None => None
      | Some ex =>
          let sc := ex - Z.of_nat (length fp) in
          Some (if 0 <=? sc
                then round_ratio neg (int_of_digits ds * 10 ^ sc) 1
                else round_ratio neg (int_of_digits ds) (10 ^ (- sc)))
      end
  end.

(** [float(s)]; [None] is [ValueError]. *)
Definition py_float (s : str) : option float64 :=
  let t := rstrip_by float_space (lstrip_by float_space s) in
  let '(neg, u) :=
    match t with
    | x :: t' => if Ascii.eqb x "-" then (true, t')
                 else if Ascii.eqb x "+" then (false, t') else (false, t)
    | [] => (false, t)
    end in
  let lu := map lower u in
  if str_eqb lu (py "inf") || str_eqb lu (py "infinity") then Some (FInf neg)
  else if str_eqb lu (py "nan") then Some FNan
  else parse_floatnumber neg u.

End PyFloat.
Export PyFloat.

(* ================================================================== *)
(** * Type definitions *)
(* ================================================================== *)

(** [Literal["pdf_text", "ocr_text", "llm_fallback"]] *)
Inductive Provenance := pdf_text | ocr_text | llm_fallback.

(** [class FieldExtraction(BaseModel)]; a confidence is a decimal literal
    of the source, kept as the rational it denotes. *)
Record FieldExtraction := {
  value : option str;
  confidence : Q;
  provenance : Provenance
}.

(** [validate_confidence]: [true] when the validator returns, [false]
    when it raises. *)
Definition validate_confidence (v : Q) : bool :=
  Qle_bool 0 v && Qle_bool v 1.

(** A value is empty when it is [None] or the empty string. *)
Definition value_is_empty (fe : FieldExtraction) : bool :=
  match value fe with
  | None | Some [] => true
  | Some (_ :: _) => false
  end.

(** [for x in l: ... return y]: the first iteration that returns. *)
Fixpoint first_some {A B} (f : A -> option B) (l : list A) : option B :=
  match l with
  | [] => None
  | x :: l' =>
      match f x with
      | Some y => Some y
      | None => first_some f l'
      end
  end.

(** An exception, kept as its message [str(e)]. *)
Definition exn := str.

(** What a call does: it raises, or it returns a value. *)
Inductive outcome (A : Type) :=
| Raised (e : exn)
| Returned (a : A).
Arguments Raised {A} e.
Arguments Returned {A} a.

(** The same loop when an iteration may raise: the exception leaves the
    loop. *)
Fixpoint first_answer {A B} (f : A -> outcome (option B)) (l : list A)
    : outcome (option B) :=
  match l with
  | [] => Returned None
  | x :: l' =>
      match f x with
      | Raised e => Raised e
      | Returned (Some y) => Returned (Some y)
      | Returned None => first_answer f l'
      end
  end.

(* ================================================================== *)
(** * Extraction heuristics *)
(* ================================================================== *)

Module Patterns.

Definition ws1 : regex := plus space.                               (* \s+ *)
Definition ws0 : regex := star space.                               (* \s* *)
Definition label_sep : regex := plus (CSet [AChar ":"; ASpace]).    (* [:\s]+ *)
Definition dollar_opt : regex := maybe (ch "$").                    (* \$? *)

(** [[\d,]+\.?\d*] *)
Definition amount_token : regex :=
  seq [plus (CSet [ADigit; AChar ","]); maybe (ch "."); star digit].

(** [(?:\s*\(.*?\))?] *)
Definition paren_note : regex :=
  opt (seq [ws0; Chr (ch "("); lazy_star CAny; Chr (ch ")")]).

Definition principal_balance_pattern : regex :=
  seq [alt [seq [word "Principal"; ws1; word "Balance"];
            seq [word "Unpaid"; ws1; word "Principal"; ws1; word "Balance"];
            seq [word "Principal"; ws1; word "balance"]];
       label_sep; dollar_opt; ws0; Grp 1 amount_token].

(** [^[§S]\.(\d{3,4})%$] *)
Definition glyph_point_pattern : regex :=
  seq [Bol; Chr (CSet [AChar sect; AChar "S"]); Chr (ch ".");
       Grp 1 (times 3 4 digit); Chr (ch "%"); Eol].

(** [^[§S](\d)\.(\d{3,4})%$] *)
Definition glyph_digit_pattern : regex :=
  seq [Bol; Chr (CSet [AChar sect; AChar "S"]); Grp 1 (Chr digit); Chr (ch ".");
       Grp 2 (times 3 4 digit); Chr (ch "%"); Eol].

(** [[\d§S]+\.?\d*] *)
Definition rate_token : regex :=
  seq [plus (CSet [ADigit; AChar sect; AChar "S"]); maybe (ch "."); star digit].

Definition note_rate_primary_pattern : regex :=
  seq [alt [seq [word "Interest"; ws1; word "Rate"; paren_note];
            seq [word "Note"; ws1; word "Rate"; paren_note];
            seq [word "Current"; ws1; word "Interest"; ws1; word "Rate"; paren_note]];
       label_sep; Grp 1 rate_token; ws0; maybe (ch "%")].

(** [Interest\s+Rates] *)
Definition rates_table_pattern : regex :=
  seq [word "Interest"; ws1; word "Rates"].

(** [[\d§S]{1,2}\.\d{2,4}%] *)
Definition percent_token_pattern : regex :=
  seq [times 1 2 (CSet [ADigit; AChar sect; AChar "S"]); Chr (ch ".");
       times 2 4 digit; Chr (ch "%")].

(** The capturing group around [\$?[\d,]+\.?\d*]. *)
Definition money_group : regex := Grp 1 (seq [dollar_opt; amount_token]).

Definition pi_primary_pattern : regex :=
  seq [alt [seq [word "Principal"; ws1; word "and"; ws1; word "Interest"];
            word "P&I";
            seq [word "P"; ws1; word "and"; ws1; word "I"];
            seq [word "Principal"; ws1; word "&"; ws1; word "Interest"]];
       label_sep; money_group].

Definition pi_secondary_pattern : regex :=
  seq [alt [seq [word "Monthly"; ws1; word "Payment"];
            seq [word "Payment"; ws1; word "Amount"];
            seq [word "Total"; ws1; word "Payment"]];
       label_sep; money_group].

Definition pi_fallback_pattern : regex :=
  seq [seq [word "Amount"; ws1; word "Due"]; label_sep; money_group].

Definition escrow_pattern : regex :=
  seq [alt [seq [word "Escrow"; ws1; word "Payment"]; word "Escrow"];
       label_sep; dollar_opt; ws0; Grp 1 amount_token].

Definition slash_or_dash : cclass := CSet [AChar "/"; AChar "-"].    (* [/-] *)

(** [(\d{1,2}[/-]\d{1,2}[/-]\d{2,4}|\w+\s+\d{1,2},?\s+\d{4})] *)
Definition date_group : regex :=
  Grp 1 (alt [seq [times 1 2 digit; Chr slash_or_dash; times 1 2 digit;
                   Chr slash_or_dash; times 2 4 digit];
              seq [plus wordch; ws1; times 1 2 digit; maybe (ch ","); ws1;
                   times 4 4 digit]]).

Definition next_due_date_pattern : regex :=
  seq [alt [seq [word "Next"; ws1; word "Payment"; ws1; word "Due"; paren_note];
            seq [word "Payment"; ws1; word "Due"; ws1; word "Date"; paren_note];
            seq [word "Payment"; ws1; word "Due"; paren_note]];
       label_sep; date_group].

Definition maturity_date_pattern : regex :=
  seq [alt [seq [word "Maturity"; ws1; word "Date"];
            seq [word "Payoff"; ws1; word "Date"]];
       label_sep; date_group].

End Patterns.
Export Patterns.

(** The confidence literals of the source; [0.9] and [0.90] are the same
    number. *)
Definition conf_090 : Q := 0.9%Q.
Definition conf_085 : Q := 0.85%Q.
Definition conf_080 : Q := 0.8%Q.
Definition conf_070 : Q := 0.7%Q.
Definition conf_065 : Q := 0.65%Q.
Definition conf_050 : Q := 0.5%Q.
Definition conf_000 : Q := 0.0%Q.

(** The body shared by [extract_principal_balance] and [extract_escrow]:
    the commas are removed from group 1, and the field is emitted when
    what is left converts to a float. *)
Definition plain_amount_field (conf : Q) (text : str) (prov : Provenance)
    (pattern : regex) : option FieldExtraction :=
  match re_search true pattern text with
  | None => None
  | Some m =>
      match group m 1 with
      | None => None
      | Some g1 =>
          let value := replace (py ",") [] g1 in
          match py_float value with
          | Some _ => Some {| value := Some value; confidence := conf; provenance := prov |}
          | None => None
          end
      end
  end.

Definition extract_principal_balance (text : str) (prov : Provenance) : option FieldExtraction :=
  let patterns := [principal_balance_pattern] in
  first_some (plain_amount_field conf_090 text prov) patterns.

Definition normalize_rate_token (s : str) : str :=
  match re_match_at false glyph_point_pattern s with
  | Some m =>
      match group m 1 with
      | Some g1 => py "5." ++ g1 ++ py "%"
      | None => s
      end
  | None =>
      match re_match_at false glyph_digit_pattern s with
      | Some m =>
          match group m 1, group m 2 with
          | Some g1, Some g2 => py "5" ++ g1 ++ py "." ++ g2 ++ py "%"
          | _, _ => s
          end
      | None => s
      end
  end.

(** The sanity check of both rate scans: [rate > 0 and rate <= 25]. *)
Definition rate_in_range (rate : float64) : bool := fgt rate 0 && fle rate 25.

Definition primary_note_rate (text : str) (prov : Provenance) (pattern : regex)
    : option FieldExtraction :=
  match re_search true pattern text with
  | None => None
  | Some m =>
      match group m 1 with
      | None => None
      | Some captured =>
          let captured := if endswith (py "%") captured then captured
                          else captured ++ py "%" in
          let normalized := normalize_rate_token captured in
          let value := rstrip (py "%") normalized in
          match py_float value with
          | Some rate =>
              if rate_in_range rate
              then Some {| value := Some value; confidence := conf_090; provenance := prov |}
              else None
          | None => None
          end
      end
  end.

(** [Counter(l)]: the distinct values in the order of their first
    occurrence, each with its number of occurrences. *)
Fixpoint counter_add (v : str) (c : list (str * nat)) : list (str * nat) :=
  match c with
  | [] => [(v, 1)]
  | (k, n) :: c' =>
      if str_eqb k v then (k, S n) :: c' else (k, n) :: counter_add v c'
  end.

Definition Counter (l : list str) : list (str * nat) :=
  fold_left (fun c v => counter_add v c) l [].

(** [max(items, key=itemgetter(1))]: a later item replaces the best one
    only when its count is strictly greater. *)
Fixpoint max_by_count (best : str * nat) (c : list (str * nat)) : str * nat :=
  match c with
  | [] => best
  | x :: c' => if snd best <? snd x then max_by_count x c' else max_by_count best c'
  end.

(** [c.most_common(1)[0][0]], on a counter that is not empty. *)
Definition most_common_1 (c : list (str * nat)) : option str :=
  match c with
  | [] => None
  | x :: c' => Some (fst (max_by_count x c'))
  end.

(** The validated values of the secondary scan, in token order. *)
Definition valid_rates_of (normalized_tokens : list str) : list str :=
  flat_map (fun token =>
              let value := rstrip (py "%") token in
              match py_float value with
              | Some rate => if rate_in_range rate then [value] else []
              | None => []
              end) normalized_tokens.

Definition secondary_note_rate (text : str) (prov : Provenance) : option FieldExtraction :=
  match re_search true rates_table_pattern text with
  | None => None
  | Some table_match =>
      let start_pos := m_end table_match in
      let snippet := slice text start_pos (start_pos + 500) in
      let rate_tokens := re_findall false percent_token_pattern snippet in
      let normalized_tokens := map normalize_rate_token rate_tokens in
      let valid_rates := valid_rates_of normalized_tokens in
      match most_common_1 (Counter valid_rates) with
      | Some most_common_rate =>
          Some {| value := Some most_common_rate; confidence := conf_070; provenance := prov |}
      | None => None
      end
  end.

Definition extract_note_rate (text : str) (prov : Provenance) : option FieldExtraction :=
  let primary_patterns := [note_rate_primary_pattern] in
  match first_some (primary_note_rate text prov) primary_patterns with
  | Some fe => Some fe
  | None => secondary_note_rate text prov
  end.

(** One iteration of the loop of [extract_scheduled_pi] on the token that
    a pattern captured; [None] is [continue]. *)
Definition scheduled_pi_of_token (captured : str) (conf : Q) (prov : Provenance)
    : option FieldExtraction :=
  let has_dollar := has_char "$" captured in
  let has_comma := has_char "," captured in
  let has_decimal := has_char "." captured in
  if negb (has_dollar || has_comma || has_decimal) then None
  else
    let normalized := replace (py ",") [] (replace (py "$") [] captured) in
    match py_float normalized with
    | None => None
    | Some amount =>
        if flt amount 100 || fgt amount 100000 then None
        else
          let value_str := format_2f amount in
          Some {| value := Some value_str; confidence := conf; provenance := prov |}
    end.

Definition scheduled_pi_step (text : str) (prov : Provenance) (rule : regex * Q)
    : option FieldExtraction :=
  let (pattern, conf) := rule in
  match re_search true pattern text with
  | None => None
  | Some m =>
      match group m 1 with
      | None => None
      | Some captured => scheduled_pi_of_token captured conf prov
      end
  end.

Definition primary_patterns : list (regex * Q) := [(pi_primary_pattern, conf_090)].
Definition secondary_patterns : list (regex * Q) := [(pi_secondary_pattern, conf_080)].
Definition fallback_patterns : list (regex * Q) := [(pi_fallback_pattern, conf_065)].
Definition all_patterns : list (regex * Q) :=
  primary_patterns ++ secondary_patterns ++ fallback_patterns.

Definition extract_scheduled_pi (text : str) (prov : Provenance) : option FieldExtraction :=
  first_some (scheduled_pi_step text prov) all_patterns.

Definition extract_escrow (text : str) (prov : Provenance) : option FieldExtraction :=
  let patterns := [escrow_pattern] in
  first_some (plain_amount_field conf_085 text prov) patterns.

(** A calendar date, as [datetime] holds it. *)
Record date := { year : N; month : N; day : N }.

(** [d.strftime("%Y-%m-%d")]: the year as the C library prints [%Y],
    which glibc does not pad, so that a year below 1000 has fewer than
    four digits; the month and the day on two digits. *)
Definition strftime_Ymd (d : date) : str :=
  dec_of_N (year d) ++ py "-" ++ zfill 2 (dec_of_N (month d))
    ++ py "-" ++ zfill 2 (dec_of_N (day d)).

(** What [dateutil.parser.parse] does with a string: it returns a date;
    it raises [ParserError], a [ValueError], the failure the two callers
    handle; or it raises another exception, which they do not handle:
    dateutil raises [OverflowError] on a number too large for a C
    integer. *)
Inductive parse_answer :=
| Parsed (d : date)
| ParserError
| OtherError (e : exn).

Section Dates.
Variable date_parse : str -> parse_answer.

(** One iteration of the loop of a date parser; [Returned None] is the
    next iteration. *)
Definition date_field (text : str) (prov : Provenance) (pattern : regex)
    : outcome (option FieldExtraction) :=
  match re_search true pattern text with
  | None => Returned None
  | Some m =>
      match group m 1 with
      | None => Returned None
      | Some date_str =>
          match date_parse date_str with
          | Parsed parsed_date =>
              let iso_date := strftime_Ymd parsed_date in
              Returned
                (Some {| value := Some iso_date; confidence := conf_090;
                         provenance := prov |})
          | ParserError =>
              Returned
                (Some {| value := Some date_str; confidence := conf_050;
                         provenance := prov |})
          | OtherError e => Raised e
          end
      end
  end.

Definition extract_next_due_date (text : str) (prov : Provenance)
    : outcome (option FieldExtraction) :=
  let patterns := [next_due_date_pattern] in
  first_answer (date_field text prov) patterns.

Definition extract_maturity_date (text : str) (prov : Provenance)
    : outcome (option FieldExtraction) :=
  let patterns := [maturity_date_pattern] in
  first_answer (date_field text prov) patterns.
End Dates.

(* ================================================================== *)
(** * Extraction pipeline *)
(* ================================================================== *)

(** ** The world outside the process *)

(** The calls that leave the process, in the order they are made. *)
Inductive event :=
| EvPdfRead (path : str)            (* open, pypdf.PdfReader, first page *)
| EvOcrMyPdf (src dst : str)        (* ocrmypdf.ocr *)
| EvRemove (path : str)             (* os.remove *)
| EvImageLoad (path : str)          (* Image.open and the preprocessing *)
| EvTesseract (config : str)        (* pytesseract.image_to_string *)
| EvEnhance.                        (* the filters of the second pass *)

Definition trace := list event.

(** What the calls answer, given the calls made so far. *)
Record Host (Image : Type) := {
  (** the text of [reader.pages[:1]], empty for a document without pages *)
  pdf_first_page : trace -> str -> outcome str;
  ocrmypdf_ocr : trace -> str -> str -> outcome unit;
  os_remove : trace -> str -> outcome unit;
  (** [Image.open], [exif_transpose], the conversions and the resize *)
  image_load : trace -> str -> outcome Image;
  (** [copy], [autocontrast], the contrast boost and the two filters *)
  image_enhance : trace -> Image -> outcome Image;
  image_to_string : trace -> Image -> str -> outcome str;
  (** [os.environ.get] *)
  environ_get : str -> option str
}.

(** Computations that make such calls and may raise: a state and
    exception monad over the trace. *)
Definition IO (A : Type) : Type := trace -> outcome A * trace.

Definition ret {A} (a : A) : IO A := fun t => (Returned a, t).

(** A step that makes no call: its outcome, and the trace as it was. *)
Definition lift {A} (o : outcome A) : IO A := fun t => (o, t).

Definition bind {A B} (m : IO A) (f : A -> IO B) : IO B :=
  fun t =>
    match m t with
    | (Raised e, t') => (Raised e, t')
    | (Returned a, t') => f a t'
    end.

(** One call: the host answers from the trace so far, and the call is
    appended to it. *)
Definition call {A} (answer : trace -> outcome A) (e : event) : IO A :=
  fun t => (answer t, t ++ [e]).

(** [try: body  except Exception as e: handler] *)
Definition try_except {A} (body : IO A) (handler : exn -> IO A) : IO A :=
  fun t =>
    match body t with
    | (Raised e, t') => handler e t'
    | (Returned a, t') => (Returned a, t')
    end.

Notation "x <- m ;; k" := (bind m (fun x => k))
  (at level 61, m at next level, right associativity).
Notation "' pat <- m ;; k" := (bind m (fun x => match x with pat => k end))
  (at level 61, pat pattern, m at next level, right associativity).

(** The truth value of a string: it is not empty. *)
Definition truthy (s : str) : bool :=
  match s with [] => false | _ :: _ => true end.

Definition count_if {A} (p : A -> bool) (l : list A) : nat := length (filter p l).

Definition keywords : list (list N) :=
  map (fun w => map code (py w))
    ["LOAN"; "PAYMENT"; "BORROWER"; "PRINCIPAL"; "INTEREST"; "RATE"; "MATURITY";
     "ESCROW"]%string.

(** The local function [score_text] of [extract_text_from_image]. *)
Definition score_text (text : str) : nat :=
  let digit_count := count_if isdigit text in
  let keyword_hits := count_if (fun kw => contains N.eqb kw (upper text)) keywords in
  digit_count + 50 * keyword_hits + length text / 200.

Definition base_config : str := py "--oem 1 --psm 6".
Definition enhanced_config : str := py "--oem 1 --psm 6 -c preserve_interword_spaces=1".

(** ** Results *)

Definition dict (V : Type) : Type := list (str * V).

Fixpoint dict_get {V} (k : str) (d : dict V) : option V :=
  match d with
  | [] => None
  | (k', v) :: d' => if str_eqb k' k then Some v else dict_get k d'
  end.

(** [d[k] = v]: an existing key keeps its place. *)
Fixpoint dict_set {V} (k : str) (v : V) (d : dict V) : dict V :=
  match d with
  | [] => [(k, v)]
  | (k', v') :: d' =>
      if str_eqb k' k then (k', v) :: d' else (k', v') :: dict_set k v d'
  end.

Definition keys {V} (d : dict V) : list str := map fst d.

Record TextStats := { source : Provenance; chars : nat; lines : nat }.

Record DebugInfo := {
  doc_type : str;
  pages_used : list nat;
  timings_ms : dict nat;
  errors : list str;
  text_stats : TextStats;
  text_sample : option str          (* the key is absent when [None] *)
}.

(** The value of a field is [None] until the last loop of
    [process_extraction] has run. *)
Record ExtractionResult := {
  fields : dict (option FieldExtraction);
  debug : DebugInfo
}.

Definition empty_fields : dict (option FieldExtraction) :=
  [(py "principal_balance", None); (py "note_rate", None);
   (py "scheduled_pi", None); (py "escrow", None);
   (py "next_due_date", None); (py "maturity_date", None)].

(** The value that replaces a field without a match. *)
Definition empty_extraction (text_provenance : Provenance) : FieldExtraction :=
  {| value := Some []; confidence := conf_000; provenance := text_provenance |}.

(** The last loop of [process_extraction]. *)
Definition fill_missing (text_provenance : Provenance)
    (extracted_fields : dict (option FieldExtraction)) : dict (option FieldExtraction) :=
  fold_left
    (fun d field_name =>
       match dict_get field_name d with
       | Some None => dict_set field_name (Some (empty_extraction text_provenance)) d
       | _ => d
       end)
    (keys extracted_fields) extracted_fields.

Section Pipeline.
Variable Image : Type.
Variable host : Host Image.
Variable date_parse : str -> parse_answer.

Definition extract_text_from_pdf (pdf_path : str) : IO (str * Provenance) :=
  try_except
    (text <- call (fun t => pdf_first_page host t pdf_path) (EvPdfRead pdf_path) ;;
     if truthy (strip text) then ret (text, pdf_text) else ret ([], pdf_text))
    (fun _ => ret ([], pdf_text)).

Definition extract_text_from_image (image_path : str) : IO (str * Provenance) :=
  try_except
    (image <- call (fun t => image_load host t image_path) (EvImageLoad image_path) ;;
     text_base <- call (fun t => image_to_string host t image base_config)
                    (EvTesseract base_config) ;;
     image_enhanced <- call (fun t => image_enhance host t image) EvEnhance ;;
     text_enhanced <- call (fun t => image_to_string host t image_enhanced enhanced_config)
                        (EvTesseract enhanced_config) ;;
     let score_base := score_text text_base in
     let score_enhanced := score_text text_enhanced in
     if score_base <? score_enhanced
     then ret (text_enhanced, ocr_text)
     else ret (text_base, ocr_text))
    (fun _ => ret ([], ocr_text)).

Definition run_ocrmypdf (pdf_path output_path : str) : IO bool :=
  try_except
    (_ <- call (fun t => ocrmypdf_ocr host t pdf_path output_path)
            (EvOcrMyPdf pdf_path output_path) ;;
     ret true)
    (fun _ => ret false).

(** The body of the first [try] block of [process_extraction]. *)
Definition acquire_text (file_path file_type : str) : IO (str * Provenance) :=
  if str_eqb file_type (py "pdf") then
    ' (text, text_provenance) <- extract_text_from_pdf file_path ;;
    if negb (truthy (strip text)) || (length (strip text) <? 100) then
      let ocr_pdf_path := replace (py ".pdf") (py "_ocr.pdf") file_path in
      ok <- run_ocrmypdf file_path ocr_pdf_path ;;
      if ok then
        ' (text, _) <- extract_text_from_pdf ocr_pdf_path ;;
        _ <- try_except
               (call (fun t => os_remove host t ocr_pdf_path) (EvRemove ocr_pdf_path))
               (fun _ => ret tt) ;;
        ret (text, ocr_text)
      else ret (text, text_provenance)
    else ret (text, text_provenance)
  else extract_text_from_image file_path.

(** Step 3 of [process_extraction]: the six parsers, in the order of
    the source, outside every [try] block.  The four parsers of amounts
    and rates return; an exception of a date parser leaves the step, and
    with it [process_extraction]. *)
Definition run_heuristics (text : str) (text_provenance : Provenance)
    (extracted_fields : dict (option FieldExtraction))
    : outcome (dict (option FieldExtraction)) :=
  let d := extracted_fields in
  let d := dict_set (py "principal_balance") (extract_principal_balance text text_provenance) d in
  let d := dict_set (py "note_rate") (extract_note_rate text text_provenance) d in
  let d := dict_set (py "scheduled_pi") (extract_scheduled_pi text text_provenance) d in
  let d := dict_set (py "escrow") (extract_escrow text text_provenance) d in
  match extract_next_due_date date_parse text text_provenance with
  | Raised e => Raised e
  | Returned next_due_date =>
      let d := dict_set (py "next_due_date") next_due_date d in
      match extract_maturity_date date_parse text text_provenance with
      | Raised e => Raised e
      | Returned maturity_date =>
          Returned (dict_set (py "maturity_date") maturity_date d)
      end
  end.

(** [process_extraction] from the end of the first [try] block on:
    [errs] is the error list at that point.  No call of the host is made
    here; the outcome is [Raised] when a date parser raises. *)
Definition assemble (file_type text : str) (text_provenance : Provenance)
    (errs : list str) : outcome ExtractionResult :=
  let stats := {| source := text_provenance; chars := length text;
                  lines := splitlines_len text |} in
  let sample :=
    match environ_get host (py "EXTRACT_DEBUG") with
    | Some v => if str_eqb v (py "1") then Some (slice text 0 300) else None
    | None => None
    end in
  let heuristics :=
    if truthy (strip text)
    then match run_heuristics text text_provenance empty_fields with
         | Raised e => Raised e
         | Returned extracted_fields => Returned (extracted_fields, errs)
         end
    else Returned (empty_fields, errs ++ [py "No text extracted from document"]) in
  match heuristics with
  | Raised e => Raised e
  | Returned (extracted_fields, errs) =>
      Returned
        {| fields := fill_missing text_provenance extracted_fields;
           debug := {| doc_type := file_type; pages_used := [1]; timings_ms := [];
                       errors := errs; text_stats := stats; text_sample := sample |} |}
  end.

(** The handler of the first [try] block is written for the state at
    the entry of the block; [acquire_text] never raises, so it is never
    entered.  What follows the block is not guarded. *)
Definition process_extraction (file_path file_type : str) : IO ExtractionResult :=
  let text := [] in
  let text_provenance := if str_eqb file_type (py "pdf") then pdf_text else ocr_text in
  ' (text, text_provenance, errs) <-
    try_except
      (' (text, text_provenance) <- acquire_text file_path file_type ;;
       ret (text, text_provenance, []))
      (fun e => ret (text, text_provenance, [e])) ;;
  lift (assemble file_type text text_provenance errs).
End Pipeline.

(* ================================================================== *)
(** * Vocabulary of the properties *)
(* ================================================================== *)

(** ** What a pattern can match *)

(** [matches ic r pos s g pos' s' g']: from offset [pos], with [s] left
    of the subject and groups [g], the pattern [r] can consume a prefix
    of [s] and reach offset [pos'] with [s'] left and groups [g'].  The
    relation leaves out the order in which [re] tries the alternatives. *)
Fixpoint matches (ic : bool) (r : regex) (pos : nat) (s : str) (g : groups)
    (pos' : nat) (s' : str) (g' : groups) : Prop :=
  match r with
  | Eps => pos' = pos /\ s' = s /\ g' = g
  | Chr c => exists x, s = x :: s' /\ test ic c x = true /\ pos' = S pos /\ g' = g
  | Seq r1 r2 =>
      exists p1 s1 g1, matches ic r1 pos s g p1 s1 g1 /\ matches ic r2 p1 s1 g1 pos' s' g'
  | Alt r1 r2 => matches ic r1 pos s g pos' s' g' \/ matches ic r2 pos s g pos' s' g'
  | Rep _ lo hi c =>
      exists w, s = w ++ s' /\ Forall (fun x => test ic c x = true) w
                /\ lo <= length w
                /\ match hi with Some h => length w <= h | None => True end
                /\ pos' = pos + length w /\ g' = g
  | Grp n r1 =>
      exists g1, matches ic r1 pos s g pos' s' g1
                 /\ g' = set_group n (firstn (pos' - pos) s) g1
  | Bol => pos = 0 /\ pos' = pos /\ s' = s /\ g' = g
  | Eol => (s = [] \/ s = [newline]) /\ pos' = pos /\ s' = s /\ g' = g
  end.

(** The character classes that occur in a pattern. *)
Fixpoint classes (r : regex) : list cclass :=
  match r with
  | Chr c | Rep _ _ _ c => [c]
  | Seq r1 r2 | Alt r1 r2 => classes r1 ++ classes r2
  | Grp _ r1 => classes r1
  | Eps | Bol | Eol => []
  end.

(** A character that some class of the pattern accepts. *)
Definition in_alphabet (ic : bool) (r : regex) (x : ascii) : bool :=
  existsb (fun c => test ic c x) (classes r).

(** The length of the shortest string a pattern can consume. *)
Fixpoint min_len (r : regex) : nat :=
  match r with
  | Chr _ => 1
  | Seq r1 r2 => min_len r1 + min_len r2
  | Alt r1 r2 => Nat.min (min_len r1) (min_len r2)
  | Rep _ lo _ _ => lo
  | Grp _ r1 => min_len r1
  | Eps | Bol | Eol => 0
  end.

(** The bodies of the groups numbered [n]. *)
Fixpoint group_bodies (n : nat) (r : regex) : list regex :=
  match r with
  | Grp k r1 => (if Nat.eqb k n then [r1] else []) ++ group_bodies n r1
  | Seq r1 r2 | Alt r1 r2 => group_bodies n r1 ++ group_bodies n r2
  | _ => []
  end.

(** Group [n] takes part in every match of the pattern. *)
Fixpoint always_sets (n : nat) (r : regex) : bool :=
  match r with
  | Grp k r1 => Nat.eqb k n || always_sets n r1
  | Seq r1 r2 => always_sets n r1 || always_sets n r2
  | Alt r1 r2 => always_sets n r1 && always_sets n r2
  | _ => false
  end.

(** ** Shapes of tokens *)

Definition is_glyph (c : ascii) : bool := Ascii.eqb c sect || Ascii.eqb c "S".

(** Three or four digits and a percent sign. *)
Definition fraction_and_percent (s : str) : bool :=
  match s with
  | [d1; d2; d3; p] =>
      isdecimal d1 && isdecimal d2 && isdecimal d3 && Ascii.eqb p "%"
  | [d1; d2; d3; d4; p] =>
      isdecimal d1 && isdecimal d2 && isdecimal d3 && isdecimal d4 && Ascii.eqb p "%"
  | _ => false
  end.

(** The shape of a misread rate: the glyph, at most one digit, the
    decimal point, three or four digits, the percent sign. *)
Definition has_glyph_shape (s : str) : bool :=
  match s with
  | g :: x :: s' =>
      is_glyph g &&
      ((Ascii.eqb x "." && fraction_and_percent s') ||
       (isdecimal x &&
        match s' with
        | p :: s'' => Ascii.eqb p "." && fraction_and_percent s''
        | [] => false
        end))
  | _ => false
  end.

(** The number of occurrences of [v] in [l], and the position of the first. *)
Definition occurrences (v : str) (l : list str) : nat := count_if (str_eqb v) l.

Fixpoint first_index (v : str) (l : list str) : nat :=
  match l with
  | [] => 0
  | x :: l' => if str_eqb x v then 0 else S (first_index v l')
  end.

(** Digits, a decimal point and exactly two digits. *)
Definition two_decimals (s : str) : Prop :=
  exists ip d1 d2, s = ip ++ py "." ++ [d1; d2] /\ ip <> []
                   /\ Forall (fun c => isdecimal c = true) ip
                   /\ isdecimal d1 = true /\ isdecimal d2 = true.

(** The exact value of a finite float is in the closed interval
    [lo, hi]. *)
Definition amount_between (x : float64) (lo hi : Z) : Prop :=
  fge x lo = true /\ fle x hi = true.

(** [s] without its last character when that is a line feed. *)
Definition drop_final_newline (s : str) : str :=
  match rev s with
  | x :: r => if Ascii.eqb x newline then rev r else s
  | [] => s
  end.

(** The extraction of a field: what the parser returned, or the empty
    extraction. *)
Definition field_or_empty (text_provenance : Provenance)
    (found : option FieldExtraction) : FieldExtraction :=
  match found with
  | Some fe => fe
  | None => empty_extraction text_provenance
  end.

Definition field_names : list str :=
  [py "principal_balance"; py "note_rate"; py "scheduled_pi"; py "escrow";
   py "next_due_date"; py "maturity_date"].

(** A parser that always returns, as one that may raise. *)
Definition returning (parser : str -> Provenance -> option FieldExtraction)
    (text : str) (prov : Provenance) : outcome (option FieldExtraction) :=
  Returned (parser text prov).

(** The six field parsers, in the order of [field_names]. *)
Definition field_parsers (date_parse : str -> parse_answer)
    : list (str -> Provenance -> outcome (option FieldExtraction)) :=
  [returning extract_principal_balance; returning extract_note_rate;
   returning extract_scheduled_pi; returning extract_escrow;
   extract_next_due_date date_parse; extract_maturity_date date_parse].

(** ** Sample hosts *)

(** A host scripted by four answers: the first page of the uploaded
    document, the OCRmyPDF run, the first page of the OCR-layered output
    (any path that ends in [_ocr.pdf]) and the removal of that output.
    It has no images. *)
Definition scripted_host (native : outcome str) (ocr : outcome unit)
    (layered : outcome str) (removal : outcome unit) : Host unit :=
  {| pdf_first_page := fun _ path =>
       if endswith (py "_ocr.pdf") path then layered else native;
     ocrmypdf_ocr := fun _ _ _ => ocr;
     os_remove := fun _ _ => removal;
     image_load := fun _ _ => Raised (py "cannot identify image file");
     image_enhance := fun _ _ => Raised (py "no image");
     image_to_string := fun _ _ _ => Raised (py "no image");
     environ_get := fun _ => None |}.

(** A host on which every call raises. *)
Definition failing_host : Host unit :=
  scripted_host (Raised (py "no such file")) (Raised (py "ocr failed"))
    (Raised (py "no such file")) (Raised (py "no such file")).

(** A date parser that is never reached: it is used on texts in which
    no date pattern matches. *)
Definition no_dates (s : str) : parse_answer := ParserError.

(** What dateutil answers on three strings: it parses 01/15/2045, it
    raises [OverflowError], whose message is not kept, on a number too
    large for a C integer, and it raises [ParserError] on Foo 12, 2045,
    whose format it does not know.  The function stands for dateutil
    where a concrete parser is needed, and it is applied to these three
    strings only; what it answers on any other string says nothing of
    dateutil. *)
Definition sample_date_parse (s : str) : parse_answer :=
  if str_eqb s (py "01/15/2045")
  then Parsed {| year := 2045; month := 1; day := 15 |}
  else if str_eqb s (py "12345678901234567890 1 0001")
  then OtherError (py "OverflowError")
  else ParserError.

(** A host with one image, on which the base pass reads [text_base] and
    the enhanced pass reads [text_enhanced]. *)
Definition two_pass_host (text_base text_enhanced : str) : Host unit :=
  {| pdf_first_page := fun _ _ => Raised (py "not a PDF");
     ocrmypdf_ocr := fun _ _ _ => Raised (py "not a PDF");
     os_remove := fun _ _ => Raised (py "no such file");
     image_load := fun _ _ => Returned tt;
     image_enhance := fun _ _ => Returned tt;
     image_to_string := fun _ _ config =>
       Returned (if str_eqb config base_config then text_base else text_enhanced);
     environ_get := fun _ => None |}.

(** The number of keywords found in the upper-cased text. *)
Definition keyword_hits (text : str) : nat :=
  count_if (fun kw => contains N.eqb kw (upper text)) keywords.

(** ** Text acquisition *)

(** What [extract_text_from_pdf] returns as text: the first page, or the
    empty text when the page is blank or the document cannot be read. *)
Definition text_of_pdf {Image} (host : Host Image) (pdf_path : str) (t : trace) : str :=
  match pdf_first_page host t pdf_path with
  | Returned text => if truthy (strip text) then text else []
  | Raised _ => []
  end.

(** The test of step 2 of [process_extraction]: the trimmed text is empty
    or shorter than 100 characters. *)
Definition is_sparse (text : str) : bool :=
  negb (truthy (strip text)) || (length (strip text) <? 100).

(** The path of the OCR-layered output. *)
Definition ocr_output_path (file_path : str) : str :=
  replace (py ".pdf") (py "_ocr.pdf") file_path.
(** A sparse first page, and an OCRmyPDF run that raises. *)
Definition ocr_failure_host : Host unit :=
  scripted_host (Returned (py "Page 1 of 3")) (Raised (py "ocr failed"))
    (Raised (py "no such file")) (Returned tt).

(** A blank first page, an OCRmyPDF run that returns, an output with
    text, and a removal that raises. *)
Definition ocr_success_host : Host unit :=
  scripted_host (Returned (py "  ")) (Returned tt)
    (Returned (py "Escrow: 250.00")) (Raised (py "permission denied")).

(** A first page with one word, and an OCRmyPDF run that raises. *)
Definition one_word_host : Host unit :=
  scripted_host (Returned (py "Statement")) (Raised (py "ocr failed"))
    (Raised (py "no such file")) (Returned tt).

(** A character of an unsigned decimal literal: a digit or the point. *)
Definition is_decimal_char (c : ascii) : bool := isdecimal c || Ascii.eqb c ".".

(** A character of a money token: the above, a dollar sign or a comma. *)
Definition is_money_char (c : ascii) : bool :=
  is_decimal_char c || Ascii.eqb c "$" || Ascii.eqb c ",".

(** The count that a counter holds for a key, zero for a missing key. *)
Fixpoint count_of (k : str) (c : list (str * nat)) : nat :=
  match c with
  | [] => 0
  | (k', n) :: c' => if str_eqb k' k then n else count_of k c'
  end.

(** [a] occurs in [l] for the first time before [b] does. *)
Definition first_before (l : list str) (a b : str) : Prop :=
  first_index a l < first_index b l.
(** [v] is a most frequent value of [l], and among the most frequent
    values the one whose first occurrence is the earliest. *)
Definition most_frequent_first (l : list str) (v : str) : Prop :=
  In v l
  /\ (forall w, occurrences w l <= occurrences v l)
  /\ (forall w, In w l -> occurrences w l = occurrences v l ->
                first_index v l <= first_index w l).

(** A token with its glyph corrected: the section sign or the capital S
    at the head of a token of the misread shape becomes the digit 5, and
    any other token is left as it is. *)
Definition glyph_corrected (token : str) : str :=
  if has_glyph_shape token then "5"%char :: tl token else token.

(** What the secondary scan returns for a window of text: the candidates
    are the percent tokens of the window, the valid values are the
    glyph-corrected candidates without the percent sign whose rate is
    above 0 and at most 25, and the result is the most frequent valid value, the
    first one among equals, at confidence 0.70, or nothing when no
    candidate is valid. *)
Definition secondary_scan_result (window : str) (prov : Provenance)
    (result : option FieldExtraction) : Prop :=
  let candidates := re_findall false percent_token_pattern window in
  let valid := valid_rates_of (map glyph_corrected candidates) in
  (forall v, In v valid <->
             exists token rate,
               In token candidates
               /\ v = rstrip (py "%") (glyph_corrected token)
               /\ py_float v = Some rate
               /\ fgt rate 0 = true /\ fle rate 25 = true)
  /\ match valid with
     | [] => result = None
     | _ :: _ =>
         exists v, result = Some {| value := Some v; confidence := conf_070;
                                    provenance := prov |}
                   /\ most_frequent_first valid v
     end.

(** ** Proof steps that recur *)

Ltac break_hyps :=
  repeat match goal with
         | H : exists _, _ |- _ => destruct H
         | H : _ /\ _ |- _ => destruct H
         end.

Ltac char_eqs :=
  repeat match goal with
         | H : Ascii.eqb _ _ = true |- _ => apply Ascii.eqb_eq in H
         end.

Ltac split_digits :=
  repeat match goal with
         | H : Forall _ (_ :: _) |- _ => inversion H; clear H; subst
         end.

Ltac rewrite_digits :=
  repeat match goal with
         | H : isdecimal _ = true |- _ => rewrite H
         end.

Ltac by_cases_on c := destruct c as [[] [] [] [] [] [] [] []]; vm_compute; congruence.

(* ================================================================== *)
(** * The upload endpoint *)
(* ================================================================== *)

(** [s.lower()] *)
Definition lower_str (s : str) : str := map lower s.

(** The head of [extract]: [is_pdf], [is_image] and [file_type] from the
    content type of the upload; [None] is the rejection with status 400.
    A missing content type counts as the empty string. *)
Definition classify_upload (content_type : option str) : option str :=
  let content_type := match content_type with Some c => c | None => [] end in
  let is_pdf := contains Ascii.eqb (py "pdf") (lower_str content_type) in
  let is_image :=
    existsb (fun img_type => contains Ascii.eqb img_type (lower_str content_type))
      [py "image"; py "jpg"; py "jpeg"; py "png"] in
  if negb (is_pdf || is_image) then None
  else Some (if is_pdf then py "pdf" else py "image").

(** [os.path.join(a, b)] on POSIX. *)
Definition path_join (a b : str) : str :=
  if starts_with Ascii.eqb (py "/") b then b
  else if negb (truthy a) || endswith (py "/") a then a ++ b
  else a ++ py "/" ++ b.

(** [temp_file_path] of [extract]: the upload is staged under its own
    file name, or under [upload.<file_type>] when it has none. *)
Definition staged_path (temp_dir : str) (filename : option str) (file_type : str) : str :=
  let name :=
    match filename with
    | Some (c :: f) => c :: f
    | _ => py "upload." ++ file_type
    end in
  path_join temp_dir name.

(** ** Further vocabulary *)

(** An unsigned decimal numeral: digits, at most one point, at least one
    digit. *)
Definition unsigned_decimal (v : str) : Prop :=
  exists ip fp,
    Forall (fun c => isdecimal c = true) ip
    /\ Forall (fun c => isdecimal c = true) fp
    /\ (v = ip ++ fp \/ v = ip ++ py "." ++ fp)
    /\ ip ++ fp <> [].

(** The events of the image branch. *)
Definition is_image_event (e : event) : bool :=
  match e with
  | EvImageLoad _ | EvTesseract _ | EvEnhance => true
  | _ => false
  end.

(** The four calls of the image branch, in order. *)
Definition image_calls (image_path : str) : trace :=
  [EvImageLoad image_path; EvTesseract base_config; EvEnhance;
   EvTesseract enhanced_config].


(** A class that accepts no white space. *)
Definition atom_visible (ic : bool) (a : atom) : bool :=
  match a with
  | AChar c => negb (isspace (if ic then lower c else c))
  | ADigit | AWord => true
  | ASpace => false
  end.

Definition class_visible (ic : bool) (c : cclass) : bool :=
  match c with
  | COne a => atom_visible ic a
  | CAny => false
  | CSet l => forallb (atom_visible ic) l
  end.

(** Every match of the pattern consumes a character that is not white
    space. *)
Fixpoint consumes_visible (ic : bool) (r : regex) : bool :=
  match r with
  | Chr c => class_visible ic c
  | Seq r1 r2 => consumes_visible ic r1 || consumes_visible ic r2
  | Alt r1 r2 => consumes_visible ic r1 && consumes_visible ic r2
  | Rep _ lo _ c => (0 <? lo) && class_visible ic c
  | Grp _ r1 => consumes_visible ic r1
  | Eps | Bol | Eol => false
  end.

(** A text of white space only, which is what [not text.strip()] tests. *)
Definition blank (text : str) : Prop := Forall (fun c => isspace c = true) text.


(** The host [ocr_success_host] with the variable [EXTRACT_DEBUG] set
    to 1. *)
Definition debug_host : Host unit :=
  {| pdf_first_page := pdf_first_page ocr_success_host;
     ocrmypdf_ocr := ocrmypdf_ocr ocr_success_host;
     os_remove := os_remove ocr_success_host;
     image_load := image_load ocr_success_host;
     image_enhance := image_enhance ocr_success_host;
     image_to_string := image_to_string ocr_success_host;
     environ_get := fun name =>
       if str_eqb name (py "EXTRACT_DEBUG") then Some (py "1") else None |}.

(** ** Dates as they are rendered *)






(* ================================================================== *)
(** * Properties *)
(* ================================================================== *)

(** ** The matcher finds only what the pattern can match *)

Section MatcherSound.
Variable R : Type.
Variable ic : bool.

Lemma may_repeat_less (hi : option nat) (n : nat) :
  may_repeat hi = true ->
  match less hi with Some h => n <= h | None => True end ->
  match hi with Some h => S n <= h | None => True end.
Proof.
  destruct hi as [[|h]|]; simpl; intros; try discriminate; auto; lia.
Qed.

Lemma rep_greedy_sound (c : cclass) (s : str) :
  forall lo hi pos (k : nat -> str -> option R) res,
    rep_greedy ic c lo hi pos s k = Some res ->
    exists w s', s = w ++ s' /\ Forall (fun x => test ic c x = true) w
                 /\ lo <= length w
                 /\ match hi with Some h => length w <= h | None => True end
                 /\ k (pos + length w) s' = Some res.
Proof.
  induction s as [|x s IH]; intros lo hi pos k res H; simpl in H.
  - destruct (Nat.eqb_spec lo 0); [|discriminate].
    exists [], []. simpl. rewrite Nat.add_0_r.
    repeat split; auto; try lia. destruct hi; auto; lia.
  - assert (Hstop : (if Nat.eqb lo 0 then k pos (x :: s) else None) = Some res ->
                    exists w s', x :: s = w ++ s'
                      /\ Forall (fun x => test ic c x = true) w /\ lo <= length w
                      /\ match hi with Some h => length w <= h | None => True end
                      /\ k (pos + length w) s' = Some res).
    { intros E. destruct (Nat.eqb_spec lo 0); [|discriminate].
      exists [], (x :: s). simpl. rewrite Nat.add_0_r.
      repeat split; auto; try lia. destruct hi; auto; lia. }
    destruct (may_repeat hi) eqn:Hm; simpl in H; [|auto].
    destruct (test ic c x) eqn:Ht; [|auto].
    destruct (rep_greedy ic c (pred lo) (less hi) (S pos) s k) eqn:E; [|auto].
    inversion H; subst r.
    destruct (IH _ _ _ _ _ E) as (w & s' & -> & Hw & Hlo & Hhi & Hk).
    exists (x :: w), s'. simpl.
    replace (pos + S (length w)) with (S pos + length w) by lia.
    repeat split; auto; try lia.
    apply may_repeat_less; auto.
Qed.

Lemma rep_lazy_sound (c : cclass) (s : str) :
  forall lo hi pos (k : nat -> str -> option R) res,
    rep_lazy ic c lo hi pos s k = Some res ->
    exists w s', s = w ++ s' /\ Forall (fun x => test ic c x = true) w
                 /\ lo <= length w
                 /\ match hi with Some h => length w <= h | None => True end
                 /\ k (pos + length w) s' = Some res.
Proof.
  induction s as [|x s IH]; intros lo hi pos k res H; simpl in H.
  - destruct (Nat.eqb_spec lo 0).
    + destruct (k pos []) eqn:E; [|discriminate].
      exists [], []. simpl. rewrite Nat.add_0_r. rewrite E.
      repeat split; auto; try lia. destruct hi; auto; lia.
    + discriminate.
  - destruct (if Nat.eqb lo 0 then k pos (x :: s) else None) eqn:E0.
    + inversion H; subst r.
      destruct (Nat.eqb_spec lo 0); [|discriminate].
      exists [], (x :: s). simpl. rewrite Nat.add_0_r.
      repeat split; auto; try lia. destruct hi; auto; lia.
    + destruct (may_repeat hi) eqn:Hm; simpl in H; [|discriminate].
      destruct (test ic c x) eqn:Ht; [|discriminate].
      destruct (IH _ _ _ _ _ H) as (w & s' & -> & Hw & Hlo & Hhi & Hk).
      exists (x :: w), s'. simpl.
      replace (pos + S (length w)) with (S pos + length w) by lia.
      repeat split; auto; try lia.
      apply may_repeat_less; auto.
Qed.

Lemma run_sound (r : regex) :
  forall pos s g (k : nat -> str -> groups -> option R) res,
    run ic r pos s g k = Some res ->
    exists pos' s' g', matches ic r pos s g pos' s' g' /\ k pos' s' g' = Some res.
Proof.
  induction r as [|c|r1 IH1 r2 IH2|r1 IH1 r2 IH2|gr lo hi c|n r1 IH1| |];
    intros pos s g k res H; simpl in H.
  - exists pos, s, g. simpl. auto.
  - destruct s as [|x s]; [discriminate|].
    destruct (test ic c x) eqn:Ht; [|discriminate].
    exists (S pos), s, g. simpl. split; auto. exists x. auto.
  - destruct (IH1 _ _ _ _ _ H) as (p1 & s1 & g1 & M1 & K1).
    destruct (IH2 _ _ _ _ _ K1) as (p2 & s2 & g2 & M2 & K2).
    exists p2, s2, g2. split; auto. simpl. exists p1, s1, g1. auto.
  - destruct (run ic r1 pos s g k) eqn:E.
    + inversion H; subst r.
      destruct (IH1 _ _ _ _ _ E) as (p1 & s1 & g1 & M1 & K1).
      exists p1, s1, g1. simpl. auto.
    + destruct (IH2 _ _ _ _ _ H) as (p1 & s1 & g1 & M1 & K1).
      exists p1, s1, g1. simpl. auto.
  - assert (exists w s', s = w ++ s' /\ Forall (fun x => test ic c x = true) w
                         /\ lo <= length w
                         /\ match hi with Some h => length w <= h | None => True end
                         /\ k (pos + length w) s' g = Some res) as (w & s' & -> & A & B & C & D).
    { destruct gr; [apply rep_greedy_sound in H|apply rep_lazy_sound in H]; exact H. }
    exists (pos + length w), s', g. split; auto. simpl. exists w. auto 10.
  - destruct (IH1 _ _ _ _ _ H) as (p1 & s1 & g1 & M1 & K1).
    exists p1, s1, (set_group n (firstn (p1 - pos) s) g1). split; auto.
    simpl. exists g1. auto.
  - destruct (Nat.eqb_spec pos 0); [|discriminate].
    exists pos, s, g. simpl. auto.
  - destruct s as [|x [|y s]]; try discriminate.
    + exists pos, [], g. simpl. auto 10.
    + destruct (Ascii.eqb_spec x newline); [|discriminate]. subst x.
      exists pos, [newline], g. simpl. auto 10.
Qed.
End MatcherSound.

(** A match consumes a prefix of what is left of the subject. *)
Lemma matches_consumed ic (r : regex) :
  forall pos s g pos' s' g',
    matches ic r pos s g pos' s' g' ->
    exists w, s = w ++ s' /\ pos' = pos + length w
              /\ min_len r <= length w
              /\ Forall (fun x => in_alphabet ic r x = true) w.
Proof.
  unfold in_alphabet.
  induction r as [|c|r1 IH1 r2 IH2|r1 IH1 r2 IH2|gr lo hi c|n r1 IH1| |];
    intros pos s g pos' s' g' H; simpl in H.
  - destruct H as (-> & -> & ->). exists []. simpl. repeat split; auto; lia.
  - destruct H as (x & -> & Ht & -> & ->). exists [x]. simpl.
    repeat split; auto; try lia. constructor; auto. rewrite Ht. reflexivity.
  - destruct H as (p1 & s1 & g1 & M1 & M2).
    destruct (IH1 _ _ _ _ _ _ M1) as (w1 & -> & -> & L1 & F1).
    destruct (IH2 _ _ _ _ _ _ M2) as (w2 & -> & -> & L2 & F2).
    exists (w1 ++ w2). rewrite <- app_assoc, length_app. simpl.
    repeat split; auto; try lia.
    apply Forall_app; split; eapply Forall_impl; try eassumption;
      intros a Ha; simpl in *; rewrite existsb_app, Ha;
      auto using orb_true_r.
  - destruct H as [M|M].
    + destruct (IH1 _ _ _ _ _ _ M) as (w & -> & -> & L & F).
      exists w. simpl. repeat split; auto; try lia.
      eapply Forall_impl; try eassumption.
      intros a Ha; simpl in *; rewrite existsb_app, Ha; auto.
    + destruct (IH2 _ _ _ _ _ _ M) as (w & -> & -> & L & F).
      exists w. simpl. repeat split; auto; try lia.
      eapply Forall_impl; try eassumption.
      intros a Ha; simpl in *; rewrite existsb_app, Ha; auto using orb_true_r.
  - destruct H as (w & -> & F & L & _ & -> & ->).
    exists w. simpl. repeat split; auto.
    eapply Forall_impl; try eassumption.
    intros a Ha; simpl in *. rewrite Ha. reflexivity.
  - destruct H as (g1 & M & ->).
    destruct (IH1 _ _ _ _ _ _ M) as (w & -> & -> & L & F).
    exists w. simpl. auto.
  - destruct H as (_ & -> & -> & ->). exists []. simpl. repeat split; auto; lia.
  - destruct H as (_ & -> & -> & ->). exists []. simpl. repeat split; auto; lia.
Qed.

Lemma firstn_consumed (w s' : str) (pos : nat) :
  firstn (pos + length w - pos) (w ++ s') = w.
Proof.
  replace (pos + length w - pos) with (length w + 0) by lia.
  rewrite firstn_app_2. simpl. apply app_nil_r.
Qed.

(** After a match, a group holds what it held before, or a string that
    the body of one of its occurrences consumed. *)
Lemma matches_group ic n (r : regex) :
  forall pos s g pos' s' g',
    matches ic r pos s g pos' s' g' ->
    get_group n g' = get_group n g \/
    exists body w p0 s1 g0 p1 g1,
      In body (group_bodies n r) /\ get_group n g' = Some w
      /\ matches ic body p0 (w ++ s1) g0 p1 s1 g1.
Proof.
  induction r as [|c|r1 IH1 r2 IH2|r1 IH1 r2 IH2|gr lo hi c|k r1 IH1| |];
    intros pos s g pos' s' g' H; simpl in H.
  - destruct H as (_ & _ & ->). auto.
  - destruct H as (x & _ & _ & _ & ->). auto.
  - destruct H as (p1 & s1 & g1 & M1 & M2).
    destruct (IH2 _ _ _ _ _ _ M2) as [E|(body & w & p0 & t1 & g0 & q1 & h1 & I & G & M)].
    + rewrite E.
      destruct (IH1 _ _ _ _ _ _ M1) as [E1|(body & w & p0 & t1 & g0 & q1 & h1 & I & G & M)];
        auto.
      right. exists body, w, p0, t1, g0, q1, h1. simpl. auto using in_or_app.
    + right. exists body, w, p0, t1, g0, q1, h1. simpl. auto using in_or_app.
  - destruct H as [M|M].
    + destruct (IH1 _ _ _ _ _ _ M) as [E|(body & w & p0 & t1 & g0 & q1 & h1 & I & G & M')];
        auto.
      right. exists body, w, p0, t1, g0, q1, h1. simpl. auto using in_or_app.
    + destruct (IH2 _ _ _ _ _ _ M) as [E|(body & w & p0 & t1 & g0 & q1 & h1 & I & G & M')];
        auto.
      right. exists body, w, p0, t1, g0, q1, h1. simpl. auto using in_or_app.
  - destruct H as (w & _ & _ & _ & _ & _ & ->). auto.
  - destruct H as (g1 & M & ->).
    destruct (matches_consumed _ _ _ _ _ _ _ _ M) as (w & -> & -> & _ & _).
    rewrite firstn_consumed. simpl.
    destruct (Nat.eqb_spec k n) as [->|Hk].
    + right. exists r1, w, pos, s', g, (pos + length w), g1. simpl.
      rewrite ?Nat.eqb_refl. simpl. auto.
    + destruct (IH1 _ _ _ _ _ _ M) as [E|(body & w0 & p0 & t1 & g0 & q1 & h1 & I & G & M')];
        auto.
      right. exists body, w0, p0, t1, g0, q1, h1.
      destruct (Nat.eqb_spec k n); [contradiction|]. simpl. auto.
  - destruct H as (_ & _ & _ & ->). auto.
  - destruct H as (_ & _ & _ & ->). auto.
Qed.

(** A group that lies on every path through the pattern is set. *)
Lemma matches_always_sets ic n (r : regex) :
  forall pos s g pos' s' g',
    matches ic r pos s g pos' s' g' ->
    (always_sets n r = true \/ get_group n g <> None) ->
    get_group n g' <> None.
Proof.
  induction r as [|c|r1 IH1 r2 IH2|r1 IH1 r2 IH2|gr lo hi c|k r1 IH1| |];
    intros pos s g pos' s' g' H A; simpl in H, A.
  - destruct H as (_ & _ & ->). destruct A; [discriminate|auto].
  - destruct H as (x & _ & _ & _ & ->). destruct A; [discriminate|auto].
  - destruct H as (p1 & s1 & g1 & M1 & M2).
    apply (IH2 _ _ _ _ _ _ M2).
    destruct A as [A|A].
    + apply orb_true_iff in A. destruct A as [A|A]; auto.
      right. apply (IH1 _ _ _ _ _ _ M1). auto.
    + right. apply (IH1 _ _ _ _ _ _ M1). auto.
  - destruct A as [A|A].
    + apply andb_true_iff in A. destruct A as [A1 A2].
      destruct H as [M|M]; [apply (IH1 _ _ _ _ _ _ M)|apply (IH2 _ _ _ _ _ _ M)]; auto.
    + destruct H as [M|M]; [apply (IH1 _ _ _ _ _ _ M)|apply (IH2 _ _ _ _ _ _ M)]; auto.
  - destruct H as (w & _ & _ & _ & _ & _ & ->). destruct A; [discriminate|auto].
  - destruct H as (g1 & M & ->). simpl.
    destruct (Nat.eqb_spec k n); [discriminate|].
    apply (IH1 _ _ _ _ _ _ M). simpl in A. destruct A as [A|A]; auto.
  - destruct H as (_ & _ & _ & ->). destruct A; [discriminate|auto].
  - destruct H as (_ & _ & _ & ->). destruct A; [discriminate|auto].
Qed.

(** [re.search] returns a match of the pattern at some offset. *)
Lemma search_from_sound ic (r : regex) (s : str) :
  forall pos m,
    search_from ic r pos s = Some m ->
    exists skipped rest s',
      s = skipped ++ rest /\ m_start m = pos + length skipped
      /\ matches ic r (m_start m) rest [] (m_end m) s' (m_groups m).
Proof.
  induction s as [|x s IH]; intros pos m H; simpl in H.
  - destruct (run ic r pos [] [] (accept pos)) eqn:E; [|discriminate].
    inversion H; subst r0.
    destruct (run_sound _ _ _ _ _ _ E) as (p' & s' & g' & M & K).
    unfold accept in K. inversion K; subst m. simpl.
    exists [], [], s'. simpl. rewrite Nat.add_0_r. auto.
  - destruct (run ic r pos (x :: s) [] (accept pos)) eqn:E.
    + inversion H; subst r0.
      destruct (run_sound _ _ _ _ _ _ E) as (p' & s' & g' & M & K).
      unfold accept in K. inversion K; subst m. simpl.
      exists [], (x :: s), s'. simpl. rewrite Nat.add_0_r. auto.
    + destruct (IH _ _ H) as (sk & rest & s' & -> & St & M).
      exists (x :: sk), rest, s'. simpl. split; auto. split; auto. lia.
Qed.

(** What [re.search] leaves in a group was consumed by the body of the
    group: it has at least the minimal length of the body and is made of
    characters the body accepts. *)
Lemma re_search_group ic (r : regex) (text : str) (m : re_match) (n : nat) (tok : str) :
  re_search ic r text = Some m ->
  group m n = Some tok ->
  exists body, In body (group_bodies n r) /\ min_len body <= length tok
               /\ Forall (fun x => in_alphabet ic body x = true) tok.
Proof.
  intros S G. unfold re_search in S.
  destruct (search_from_sound _ _ _ _ S) as (sk & rest & s' & _ & _ & M).
  destruct (matches_group ic n _ _ _ _ _ _ _ M)
    as [E|(body & w & p0 & t1 & g0 & q1 & h1 & I & Gw & Mb)].
  - unfold group in G. rewrite E in G. discriminate.
  - unfold group in G. rewrite Gw in G. inversion G; subst w.
    destruct (matches_consumed _ _ _ _ _ _ _ _ Mb) as (w & Ew & _ & L & F).
    apply app_inv_tail in Ew. subst w. exists body. auto.
Qed.

Lemma re_search_sets ic (r : regex) (text : str) (m : re_match) (n : nat) :
  re_search ic r text = Some m ->
  always_sets n r = true ->
  exists tok, group m n = Some tok.
Proof.
  intros S A. unfold re_search in S.
  destruct (search_from_sound _ _ _ _ S) as (sk & rest & s' & _ & _ & M).
  pose proof (matches_always_sets ic n _ _ _ _ _ _ _ M (or_introl A)) as G.
  unfold group. destruct (get_group n (m_groups m)) as [tok|]; [eauto|contradiction].
Qed.

(** ** The rate normaliser *)

Lemma firstn_len_app (w s' : str) : firstn (length w) (w ++ s') = w.
Proof.
  replace (length w) with (length w + 0) by lia.
  rewrite firstn_app_2. simpl. apply app_nil_r.
Qed.

Lemma digit_not_point (d : ascii) : isdecimal d = true -> Ascii.eqb d "." = false.
Proof. destruct d as [[] [] [] [] [] [] [] []]; vm_compute; congruence. Qed.

Lemma is_glyph_cases (g : ascii) : is_glyph g = true -> g = sect \/ g = "S"%char.
Proof.
  unfold is_glyph. intros H. apply orb_true_iff in H.
  destruct H as [H|H]; apply Ascii.eqb_eq in H; auto.
Qed.

Lemma fraction_and_percent_cases (s : str) :
  fraction_and_percent s = true ->
  exists ds, s = ds ++ py "%" /\ Forall (fun d => isdecimal d = true) ds
             /\ (length ds = 3 \/ length ds = 4).
Proof.
  destruct s as [|d1 [|d2 [|d3 [|d4 [|d5 [|d6 s]]]]]]; simpl; try discriminate.
  - intros H. rewrite !andb_true_iff in H. destruct H as (((A & B) & C) & P).
    apply Ascii.eqb_eq in P. subst d4.
    exists [d1; d2; d3]. repeat split; auto.
  - intros H. rewrite !andb_true_iff in H. destruct H as ((((A & B) & C) & D) & P).
    apply Ascii.eqb_eq in P. subst d5.
    exists [d1; d2; d3; d4]. repeat split; auto 10.
Qed.

(** A token of the misread shape is rewritten: the glyph becomes a five. *)
Lemma normalize_glyph_shape (s : str) :
  has_glyph_shape s = true -> normalize_rate_token s = "5"%char :: tl s.
Proof.
  destruct s as [|g [|x s]]; try discriminate. simpl.
  intros H. apply andb_true_iff in H. destruct H as [G H].
  apply orb_true_iff in H. destruct H as [H|H].
  - apply andb_true_iff in H. destruct H as [X F]. apply Ascii.eqb_eq in X. subst x.
    destruct (fraction_and_percent_cases _ F) as (ds & -> & D & L).
    destruct (is_glyph_cases _ G) as [->| ->];
      destruct L as [L|L];
      destruct ds as [|d1 [|d2 [|d3 [|d4 [|d5 ds]]]]]; try discriminate L;
      split_digits; unfold normalize_rate_token, re_match_at; cbn;
      rewrite_digits; cbn; reflexivity.
  - apply andb_true_iff in H. destruct H as [X H].
    destruct s as [|p s]; [discriminate|].
    apply andb_true_iff in H. destruct H as [P F]. apply Ascii.eqb_eq in P. subst p.
    destruct (fraction_and_percent_cases _ F) as (ds & -> & D & L).
    pose proof (digit_not_point _ X) as NP.
    destruct (is_glyph_cases _ G) as [->| ->];
      destruct L as [L|L];
      destruct ds as [|d1 [|d2 [|d3 [|d4 [|d5 ds]]]]]; try discriminate L;
      split_digits; unfold normalize_rate_token, re_match_at; cbn;
      rewrite ?NP; cbn; rewrite_digits; cbn; reflexivity.
Qed.

Lemma shape_point_intro (g : ascii) (w : str) :
  is_glyph g = true -> Forall (fun x => isdecimal x = true) w ->
  3 <= length w -> length w <= 4 ->
  has_glyph_shape (g :: "."%char :: w ++ py "%") = true.
Proof.
  intros G F L1 L2.
  destruct w as [|d1 [|d2 [|d3 [|d4 [|d5 w]]]]]; simpl in L1, L2; try lia;
    split_digits; simpl; rewrite G; rewrite_digits; reflexivity.
Qed.

Lemma shape_digit_intro (g d : ascii) (w : str) :
  is_glyph g = true -> isdecimal d = true -> Forall (fun x => isdecimal x = true) w ->
  3 <= length w -> length w <= 4 ->
  has_glyph_shape (g :: d :: "."%char :: w ++ py "%") = true.
Proof.
  intros G D F L1 L2.
  destruct w as [|d1 [|d2 [|d3 [|d4 [|d5 w]]]]]; simpl in L1, L2; try lia;
    split_digits; simpl; rewrite G, D; rewrite_digits;
    simpl; rewrite ?orb_true_r; reflexivity.
Qed.

(** What the first pattern of the normaliser matches. *)
Lemma glyph_point_match (s : str) (m : re_match) :
  re_match_at false glyph_point_pattern s = Some m ->
  exists g w tail, s = g :: "."%char :: w ++ py "%" ++ tail
    /\ is_glyph g = true /\ Forall (fun x => isdecimal x = true) w
    /\ 3 <= length w /\ length w <= 4 /\ (tail = [] \/ tail = [newline])
    /\ group m 1 = Some w.
Proof.
  unfold re_match_at. intros H.
  destruct (run_sound _ _ _ _ _ _ H) as (p' & s' & g' & M & K).
  unfold accept in K. inversion K; subst m. clear K H.
  cbn in M. break_hyps. char_eqs. subst.
  match goal with H : _ || _ = true |- _ => rename H into G end.
  rewrite orb_false_r in G.
  do 3 eexists. split; [cbn; reflexivity|].
  unfold group, is_glyph. cbn. rewrite ?Nat.sub_0_r, firstn_len_app. auto 10.
Qed.

(** What the second pattern of the normaliser matches. *)
Lemma glyph_digit_match (s : str) (m : re_match) :
  re_match_at false glyph_digit_pattern s = Some m ->
  exists g d w tail, s = g :: d :: "."%char :: w ++ py "%" ++ tail
    /\ is_glyph g = true /\ isdecimal d = true
    /\ Forall (fun x => isdecimal x = true) w
    /\ 3 <= length w /\ length w <= 4 /\ (tail = [] \/ tail = [newline])
    /\ group m 1 = Some [d] /\ group m 2 = Some w.
Proof.
  unfold re_match_at. intros H.
  destruct (run_sound _ _ _ _ _ _ H) as (p' & s' & g' & M & K).
  unfold accept in K. inversion K; subst m. clear K H.
  cbn in M. break_hyps. char_eqs. subst.
  match goal with H : _ || _ = true |- _ => rename H into G end.
  rewrite orb_false_r in G.
  do 4 eexists. split; [cbn; reflexivity|].
  unfold group, is_glyph. cbn. rewrite ?Nat.sub_0_r, firstn_len_app. auto 12.
Qed.

Lemma drop_final_newline_app (s0 : str) : drop_final_newline (s0 ++ [newline]) = s0.
Proof.
  unfold drop_final_newline. rewrite rev_app_distr. simpl. apply rev_involutive.
Qed.

(** C6: the normaliser maps the three misread tokens of the design
    document to the rates they stand for, and in general replaces the
    leading section sign or S of a token of the misread shape by the digit
    five: before the decimal point the glyph becomes the five, and before
    another digit it becomes a five in front of that digit. *)
Theorem C6_glyph_correction :
  normalize_rate_token (sect :: py ".5600%") = py "5.5600%"
  /\ normalize_rate_token (py "S.7500%") = py "5.7500%"
  /\ normalize_rate_token (sect :: py "5.1200%") = py "55.1200%"
  /\ forall s, has_glyph_shape s = true ->
               normalize_rate_token s = "5"%char :: tl s.
Proof.
  split; [vm_compute; reflexivity|].
  split; [vm_compute; reflexivity|].
  split; [vm_compute; reflexivity|].
  apply normalize_glyph_shape.
Qed.

Lemma C6_glyph_correction_witness :
  has_glyph_shape (sect :: py "5.1200%") = true
  /\ normalize_rate_token (sect :: py "5.1200%") = "5"%char :: py "5.1200%".
Proof.
  split; [reflexivity|].
  apply (proj2 (proj2 (proj2 C6_glyph_correction)) (sect :: py "5.1200%")).
  reflexivity.
Defined.

(** C10, as stated, fails: a token of the misread shape followed by a line
    feed does not have the shape, and yet it is rewritten. *)
Lemma C10_counterexample :
  has_glyph_shape (py "S.5600%" ++ [newline]) = false
  /\ normalize_rate_token (py "S.5600%" ++ [newline]) = py "5.5600%"
  /\ normalize_rate_token (py "S.5600%" ++ [newline]) <> py "S.5600%" ++ [newline].
Proof.
  split; [vm_compute; reflexivity|].
  split; [vm_compute; reflexivity|].
  vm_compute. discriminate.
Qed.

(** C10, amended: the normaliser rewrites a token only when the token,
    or the token without a final line feed, has the misread shape (the
    glyph, at most one digit, the decimal point, three or four digits, the
    percent sign); it is the identity on every other token, among them
    misread rates with a fraction of two digits and tokens with two digits
    between the glyph and the decimal point. *)
Theorem C10_identity_outside_shape :
  (forall s, has_glyph_shape s = false ->
             has_glyph_shape (drop_final_newline s) = false ->
             normalize_rate_token s = s)
  /\ normalize_rate_token (sect :: py ".56%") = sect :: py ".56%"
  /\ normalize_rate_token (py "S.75%") = py "S.75%"
  /\ normalize_rate_token (py "S12.5600%") = py "S12.5600%".
Proof.
  split; [|split; [|split]; vm_compute; reflexivity].
  intros s N1 N2. unfold normalize_rate_token.
  destruct (re_match_at false glyph_point_pattern s) as [m|] eqn:E1.
  - exfalso. apply glyph_point_match in E1.
    destruct E1 as (g & w & tail & -> & G & F & L1 & L2 & T & _).
    pose proof (@shape_point_intro g w G F L1 L2) as Sh.
    destruct T as [->| ->].
    + rewrite app_nil_r in N1. congruence.
    + replace (g :: "."%char :: w ++ py "%" ++ [newline])
        with ((g :: "."%char :: w ++ py "%") ++ [newline]) in N2
        by (simpl; rewrite <- app_assoc; reflexivity).
      rewrite drop_final_newline_app in N2. congruence.
  - destruct (re_match_at false glyph_digit_pattern s) as [m|] eqn:E2; [|reflexivity].
    exfalso. apply glyph_digit_match in E2.
    destruct E2 as (g & d & w & tail & -> & G & D & F & L1 & L2 & T & _).
    pose proof (@shape_digit_intro g d w G D F L1 L2) as Sh.
    destruct T as [->| ->].
    + rewrite app_nil_r in N1. congruence.
    + replace (g :: d :: "."%char :: w ++ py "%" ++ [newline])
        with ((g :: d :: "."%char :: w ++ py "%") ++ [newline]) in N2
        by (simpl; rewrite <- app_assoc; reflexivity).
      rewrite drop_final_newline_app in N2. congruence.
Qed.

Lemma C10_identity_outside_shape_witness :
  has_glyph_shape (py "S.560%" ++ py "x") = false
  /\ has_glyph_shape (drop_final_newline (py "S.560%" ++ py "x")) = false
  /\ normalize_rate_token (py "S.560%" ++ py "x") = py "S.560%" ++ py "x".
Proof.
  split; [reflexivity|]. split; [reflexivity|].
  apply (proj1 C10_identity_outside_shape (py "S.560%" ++ py "x")); reflexivity.
Defined.

(** The normaliser is the identity outside the misread shape. *)
Lemma glyph_shape_head (s : str) :
  has_glyph_shape s = true -> exists g rest, s = g :: rest /\ is_glyph g = true.
Proof.
  destruct s as [|g [|x s]]; try discriminate. simpl. intros H.
  apply andb_true_iff in H. destruct H as [G _]. eauto.
Qed.

Lemma drop_final_newline_head (c : ascii) (s : str) :
  drop_final_newline (c :: s) = [] \/ exists s', drop_final_newline (c :: s) = c :: s'.
Proof.
  unfold drop_final_newline.
  destruct (rev (c :: s)) as [|x r] eqn:E; [right; eauto|].
  destruct (Ascii.eqb x newline); [|right; eauto].
  assert (c :: s = rev r ++ [x]) as E'.
  { rewrite <- (rev_involutive (c :: s)), E. reflexivity. }
  destruct (rev r) as [|y r']; [left; reflexivity|].
  simpl in E'. inversion E'. right. eauto.
Qed.

Lemma normalize_off_shape (s : str) :
  has_glyph_shape s = false ->
  has_glyph_shape (drop_final_newline s) = false ->
  normalize_rate_token s = s.
Proof.
  intros N1 N2. unfold normalize_rate_token.
  destruct (re_match_at false glyph_point_pattern s) as [m|] eqn:E1.
  - exfalso. apply glyph_point_match in E1.
    destruct E1 as (g & w & tail & -> & G & F & L1 & L2 & T & _).
    pose proof (@shape_point_intro g w G F L1 L2) as Sh.
    destruct T as [->| ->].
    + rewrite app_nil_r in N1. congruence.
    + replace (g :: "."%char :: w ++ py "%" ++ [newline])
        with ((g :: "."%char :: w ++ py "%") ++ [newline]) in N2
        by (simpl; rewrite <- app_assoc; reflexivity).
      rewrite drop_final_newline_app in N2. congruence.
  - destruct (re_match_at false glyph_digit_pattern s) as [m|] eqn:E2; [|reflexivity].
    exfalso. apply glyph_digit_match in E2.
    destruct E2 as (g & d & w & tail & -> & G & D & F & L1 & L2 & T & _).
    pose proof (@shape_digit_intro g d w G D F L1 L2) as Sh.
    destruct T as [->| ->].
    + rewrite app_nil_r in N1. congruence.
    + replace (g :: d :: "."%char :: w ++ py "%" ++ [newline])
        with ((g :: d :: "."%char :: w ++ py "%") ++ [newline]) in N2
        by (simpl; rewrite <- app_assoc; reflexivity).
      rewrite drop_final_newline_app in N2. congruence.
Qed.

(** ** The acquisition returns *)

Lemma extract_text_from_pdf_eq Image (host : Host Image) (pdf_path : str) (t : trace) :
  extract_text_from_pdf host pdf_path t
  = (Returned (text_of_pdf host pdf_path t, pdf_text), t ++ [EvPdfRead pdf_path]).
Proof.
  unfold extract_text_from_pdf, text_of_pdf, try_except, bind, call, ret.
  destruct (pdf_first_page host t pdf_path) as [e|text]; [reflexivity|].
  destruct (truthy (strip text)); reflexivity.
Qed.

Lemma run_ocrmypdf_eq Image (host : Host Image) (pdf_path output_path : str) (t : trace) :
  run_ocrmypdf host pdf_path output_path t
  = (Returned match ocrmypdf_ocr host t pdf_path output_path with
              | Returned _ => true
              | Raised _ => false
              end,
     t ++ [EvOcrMyPdf pdf_path output_path]).
Proof.
  unfold run_ocrmypdf, try_except, bind, call, ret.
  destruct (ocrmypdf_ocr host t pdf_path output_path); reflexivity.
Qed.

(** The PDF branch of the acquisition, call by call. *)
Lemma acquire_text_pdf_eq Image (host : Host Image) (file_path : str) (t : trace) :
  acquire_text host file_path (py "pdf") t
  = let native := text_of_pdf host file_path t in
    let t1 := t ++ [EvPdfRead file_path] in
    if is_sparse native then
      let out := ocr_output_path file_path in
      let t2 := t1 ++ [EvOcrMyPdf file_path out] in
      match ocrmypdf_ocr host t1 file_path out with
      | Returned _ =>
          (Returned (text_of_pdf host out t2, ocr_text),
           (t2 ++ [EvPdfRead out]) ++ [EvRemove out])
      | Raised _ => (Returned (native, pdf_text), t2)
      end
    else (Returned (native, pdf_text), t1).
Proof.
  unfold acquire_text. change (str_eqb (py "pdf") (py "pdf")) with true.
  cbv beta iota. unfold bind at 1.
  rewrite extract_text_from_pdf_eq. cbv zeta.
  fold (is_sparse (text_of_pdf host file_path t)).
  destruct (is_sparse (text_of_pdf host file_path t)); [|reflexivity].
  fold (ocr_output_path file_path). unfold bind at 1. rewrite run_ocrmypdf_eq.
  destruct (ocrmypdf_ocr host (t ++ [EvPdfRead file_path]) file_path
              (ocr_output_path file_path)); [reflexivity|].
  unfold bind at 1. rewrite extract_text_from_pdf_eq.
  unfold bind, try_except, call, ret.
  destruct (os_remove host _ _); reflexivity.
Qed.

Lemma extract_text_from_image_returns Image (host : Host Image) (image_path : str)
    (t : trace) :
  exists text t', extract_text_from_image host image_path t
                  = (Returned (text, ocr_text), t').
Proof.
  unfold extract_text_from_image, try_except, bind, call, ret.
  destruct (image_load host t image_path) as [e|image]; [eauto|].
  destruct (image_to_string host _ image base_config) as [e|text_base]; [eauto|].
  destruct (image_enhance host _ image) as [e|image_enhanced]; [eauto|].
  destruct (image_to_string host _ image_enhanced enhanced_config) as [e|text_enhanced];
    [eauto|].
  cbv zeta. destruct (score_text text_base <? score_text text_enhanced); eauto.
Qed.

(** The acquisition never raises. *)
Lemma acquire_text_returns Image (host : Host Image) (file_path file_type : str)
    (t : trace) :
  exists text prov t', acquire_text host file_path file_type t
                       = (Returned (text, prov), t').
Proof.
  destruct (str_eqb file_type (py "pdf")) eqn:E.
  - assert (file_type = py "pdf") as ->.
    { clear -E. revert E. generalize (py "pdf").
      induction file_type as [|a l IH]; intros [|b l']; simpl; try discriminate; auto.
      intros H. apply andb_true_iff in H. destruct H as [A B].
      apply Ascii.eqb_eq in A. subst. f_equal. auto. }
    rewrite acquire_text_pdf_eq. cbv zeta.
    destruct (is_sparse _); [|eauto].
    destruct (ocrmypdf_ocr host _ _ _); eauto.
  - unfold acquire_text. rewrite E.
    destruct (extract_text_from_image_returns host file_path t) as (text & t' & ->).
    eauto.
Qed.

(** ** The result assembler *)

(** [process_extraction] is the acquisition, which returns, followed by
    the assembly with an empty error list. *)
Lemma process_extraction_unfold Image (host : Host Image) date_parse
    (file_path file_type : str) (t : trace) :
  exists text prov t',
    acquire_text host file_path file_type t = (Returned (text, prov), t')
    /\ process_extraction host date_parse file_path file_type t
       = (assemble host date_parse file_type text prov [], t').
Proof.
  destruct (acquire_text_returns host file_path file_type t) as (text & prov & t' & E).
  exists text, prov, t'. split; [exact E|].
  unfold process_extraction, bind, try_except, ret, lift. rewrite E. reflexivity.
Qed.

(** A result of [process_extraction] is assembled from the text that the
    acquisition returned, with an error list that is empty at that
    point. *)
Lemma process_extraction_eq Image (host : Host Image) date_parse
    (file_path file_type : str) (t t' : trace) (r : ExtractionResult) :
  process_extraction host date_parse file_path file_type t = (Returned r, t') ->
  exists text prov,
    acquire_text host file_path file_type t = (Returned (text, prov), t')
    /\ assemble host date_parse file_type text prov [] = Returned r.
Proof.
  intros H.
  destruct (process_extraction_unfold host date_parse file_path file_type t)
    as (text & prov & u & A & P).
  rewrite P in H. inversion H; subst. eauto.
Qed.

Lemma fill_missing_heuristics (prov : Provenance)
    (a b c d e f : option FieldExtraction) :
  fill_missing prov
    (dict_set (py "maturity_date") f
       (dict_set (py "next_due_date") e
          (dict_set (py "escrow") d
             (dict_set (py "scheduled_pi") c
                (dict_set (py "note_rate") b
                   (dict_set (py "principal_balance") a empty_fields))))))
  = [(py "principal_balance", Some (field_or_empty prov a));
     (py "note_rate", Some (field_or_empty prov b));
     (py "scheduled_pi", Some (field_or_empty prov c));
     (py "escrow", Some (field_or_empty prov d));
     (py "next_due_date", Some (field_or_empty prov e));
     (py "maturity_date", Some (field_or_empty prov f))].
Proof.
  destruct a, b, c, d, e, f; vm_compute; reflexivity.
Qed.

(** The heuristics return exactly when both date parsers return. *)
Lemma run_heuristics_returned (date_parse : str -> parse_answer) (text : str)
    (prov : Provenance) (d : dict (option FieldExtraction)) :
  run_heuristics date_parse text prov empty_fields = Returned d ->
  exists next_due maturity,
    extract_next_due_date date_parse text prov = Returned next_due
    /\ extract_maturity_date date_parse text prov = Returned maturity
    /\ d = dict_set (py "maturity_date") maturity
             (dict_set (py "next_due_date") next_due
                (dict_set (py "escrow") (extract_escrow text prov)
                   (dict_set (py "scheduled_pi") (extract_scheduled_pi text prov)
                      (dict_set (py "note_rate") (extract_note_rate text prov)
                         (dict_set (py "principal_balance")
                            (extract_principal_balance text prov) empty_fields))))).
Proof.
  unfold run_heuristics. cbv zeta.
  destruct (extract_next_due_date date_parse text prov) as [e|next_due]; [discriminate|].
  destruct (extract_maturity_date date_parse text prov) as [e|maturity]; [discriminate|].
  intros H. inversion H. eauto.
Qed.

(** What a returned result holds: the fields, and the debug record. *)
Lemma assemble_returned Image (host : Host Image) date_parse
    (file_type text : str) (prov : Provenance) (errs : list str) (r : ExtractionResult) :
  assemble host date_parse file_type text prov errs = Returned r ->
  exists next_due maturity,
    (if truthy (strip text)
     then extract_next_due_date date_parse text prov = Returned next_due
          /\ extract_maturity_date date_parse text prov = Returned maturity
     else next_due = None /\ maturity = None)
    /\ fields r
       = (let found (parser : str -> Provenance -> option FieldExtraction) :=
            Some (field_or_empty prov
                    (if truthy (strip text) then parser text prov else None)) in
          [(py "principal_balance", found extract_principal_balance);
           (py "note_rate", found extract_note_rate);
           (py "scheduled_pi", found extract_scheduled_pi);
           (py "escrow", found extract_escrow);
           (py "next_due_date", Some (field_or_empty prov next_due));
           (py "maturity_date", Some (field_or_empty prov maturity))])
    /\ debug r
       = {| doc_type := file_type; pages_used := [1]; timings_ms := [];
            errors := (if truthy (strip text) then errs
                       else errs ++ [py "No text extracted from document"]);
            text_stats := {| source := prov; chars := length text;
                             lines := splitlines_len text |};
            text_sample :=
              match environ_get host (py "EXTRACT_DEBUG") with
              | Some v => if str_eqb v (py "1") then Some (slice text 0 300) else None
              | None => None
              end |}.
Proof.
  unfold assemble. cbv zeta. destruct (truthy (strip text)).
  - destruct (run_heuristics date_parse text prov empty_fields) as [e|d] eqn:R;
      [discriminate|].
    apply run_heuristics_returned in R.
    destruct R as (next_due & maturity & N & M & ->).
    intros H. inversion H. exists next_due, maturity.
    split; [auto|]. split; [|reflexivity].
    cbv beta iota zeta delta [fields]. apply fill_missing_heuristics.
  - intros H. inversion H. exists None, None. repeat split; reflexivity.
Qed.

(** C1: whatever the text and its provenance, the fields of a result
    have exactly the six keys, in the order of the source, and each field
    holds what its parser returned or, when the parser returned nothing or
    was not run because the text is blank, the empty extraction: the empty
    string, confidence 0.0 and the provenance of the text.  Every result
    that [process_extraction] returns is assembled this way, from the text
    and the provenance that the acquisition returned. *)
Theorem C1_six_fields_always_present :
  forall Image (host : Host Image) date_parse,
    (forall file_type text prov errs r,
        assemble host date_parse file_type text prov errs = Returned r ->
        let found (parser : str -> Provenance -> option FieldExtraction) :=
          Some (Some (field_or_empty prov
                        (if truthy (strip text) then parser text prov else None))) in
        let found_date (parser : str -> Provenance -> outcome (option FieldExtraction))
            (field : option (option FieldExtraction)) :=
          exists answer,
            (if truthy (strip text) then parser text prov = Returned answer
             else answer = None)
            /\ field = Some (Some (field_or_empty prov answer)) in
        keys (fields r) = field_names
        /\ dict_get (py "principal_balance") (fields r) = found extract_principal_balance
        /\ dict_get (py "note_rate") (fields r) = found extract_note_rate
        /\ dict_get (py "scheduled_pi") (fields r) = found extract_scheduled_pi
        /\ dict_get (py "escrow") (fields r) = found extract_escrow
        /\ found_date (extract_next_due_date date_parse)
             (dict_get (py "next_due_date") (fields r))
        /\ found_date (extract_maturity_date date_parse)
             (dict_get (py "maturity_date") (fields r)))
    /\ field_or_empty pdf_text None
       = {| value := Some []; confidence := conf_000; provenance := pdf_text |}
    /\ field_or_empty ocr_text None
       = {| value := Some []; confidence := conf_000; provenance := ocr_text |}
    /\ (forall file_path file_type t t' r,
           process_extraction host date_parse file_path file_type t = (Returned r, t') ->
           exists text prov,
             acquire_text host file_path file_type t = (Returned (text, prov), t')
             /\ assemble host date_parse file_type text prov [] = Returned r).
Proof.
  intros Image host date_parse. split; [|split; [reflexivity|split; [reflexivity|]]].
  - intros file_type text prov errs r H. cbv zeta.
    apply assemble_returned in H. destruct H as (next_due & maturity & D & F & _).
    rewrite F. cbv zeta.
    do 5 (split; [reflexivity|]).
    split.
    + exists next_due. split; [|reflexivity].
      destruct (truthy (strip text)); tauto.
    + exists maturity. split; [|reflexivity].
      destruct (truthy (strip text)); tauto.
  - intros file_path file_type t t' r H. exact (process_extraction_eq _ _ _ _ _ H).
Qed.

Lemma C1_six_fields_always_present_witness :
  exists r t',
    process_extraction ocr_success_host sample_date_parse (py "stmt.pdf") (py "pdf") []
    = (Returned r, t')
    /\ acquire_text ocr_success_host (py "stmt.pdf") (py "pdf") []
       = (Returned (py "Escrow: 250.00", ocr_text), t')
    /\ keys (fields r) = field_names
    /\ dict_get (py "escrow") (fields r)
       = Some (Some {| value := Some (py "250.00"); confidence := conf_085;
                       provenance := ocr_text |})
    /\ dict_get (py "note_rate") (fields r)
       = Some (Some {| value := Some []; confidence := conf_000;
                       provenance := ocr_text |}).
Proof.
  destruct (process_extraction ocr_success_host sample_date_parse (py "stmt.pdf")
              (py "pdf") []) as [[e|r] t'] eqn:E; [vm_compute in E; discriminate|].
  exists r, t'. split; [reflexivity|].
  destruct (proj2 (proj2 (proj2
              (C1_six_fields_always_present ocr_success_host sample_date_parse)))
              (py "stmt.pdf") (py "pdf") [] t' r E) as (text & prov & A & R).
  assert (text = py "Escrow: 250.00" /\ prov = ocr_text) as [-> ->].
  { vm_compute in A. inversion A. split; reflexivity. }
  split; [exact A|].
  destruct (proj1 (C1_six_fields_always_present ocr_success_host sample_date_parse)
              (py "pdf") (py "Escrow: 250.00") ocr_text [] r R)
    as (K & _ & Nr & _ & Es & _).
  split; [exact K|]. split; [rewrite Es; vm_compute; reflexivity|].
  rewrite Nr. vm_compute. reflexivity.
Defined.

(** ** The values the parsers emit *)

Lemma py_float_nonempty (v : str) (x : float64) : py_float v = Some x -> v <> [].
Proof. intros H E. subst v. vm_compute in H. discriminate. Qed.

Lemma value_not_empty (v : str) (c : Q) (prov : Provenance) :
  v <> [] ->
  value_is_empty {| value := Some v; confidence := c; provenance := prov |} = false.
Proof. destruct v; [congruence|reflexivity]. Qed.

Lemma first_some_one {A B} (f : A -> option B) (x : A) :
  first_some f [x] = f x.
Proof. simpl. destruct (f x); reflexivity. Qed.

Lemma plain_amount_field_some (conf : Q) (text : str) (prov : Provenance)
    (pattern : regex) (fe : FieldExtraction) :
  plain_amount_field conf text prov pattern = Some fe ->
  exists m g1 x,
    re_search true pattern text = Some m /\ group m 1 = Some g1
    /\ py_float (replace (py ",") [] g1) = Some x
    /\ fe = {| value := Some (replace (py ",") [] g1); confidence := conf;
               provenance := prov |}.
Proof.
  unfold plain_amount_field. intros H.
  destruct (re_search true pattern text) as [m|] eqn:S; [|discriminate].
  destruct (group m 1) as [g1|] eqn:G; [|discriminate].
  destruct (py_float (replace (py ",") [] g1)) as [x|] eqn:E; [|discriminate].
  inversion H. exists m, g1, x. auto.
Qed.

Lemma primary_note_rate_some (text : str) (prov : Provenance) (pattern : regex)
    (fe : FieldExtraction) :
  primary_note_rate text prov pattern = Some fe ->
  exists v rate, py_float v = Some rate /\ rate_in_range rate = true
    /\ fe = {| value := Some v; confidence := conf_090; provenance := prov |}.
Proof.
  unfold primary_note_rate. intros H.
  destruct (re_search true pattern text) as [m|]; [|discriminate].
  destruct (group m 1) as [g1|]; [|discriminate].
  match type of H with
  | match py_float ?v with _ => _ end = _ =>
      destruct (py_float v) as [rate|] eqn:E; [|discriminate];
      destruct (rate_in_range rate) eqn:Rg; [|discriminate];
      inversion H; exists v, rate; auto
  end.
Qed.

(** The keys of a counter are elements of the list it counts. *)
Lemma counter_add_keys (v : str) (c : list (str * nat)) (k : str) (n : nat) :
  In (k, n) (counter_add v c) -> k = v \/ exists n', In (k, n') c.
Proof.
  induction c as [|[k' n'] c IH]; simpl.
  - intros [E|[]]. inversion E. auto.
  - destruct (str_eqb k' v).
    + intros [E|I]; [inversion E; subst; right; eauto|right; eauto].
    + intros [E|I]; [inversion E; subst; right; eauto|].
      destruct (IH I) as [->|(n'' & I')]; [auto|right; eauto].
Qed.

Lemma Counter_keys_from (l : list str) :
  forall c k n, In (k, n) (fold_left (fun c v => counter_add v c) l c) ->
                In k l \/ exists n', In (k, n') c.
Proof.
  induction l as [|v l IH]; simpl; intros c k n H.
  - right. eauto.
  - destruct (IH _ _ _ H) as [I|(n' & I)]; [auto|].
    destruct (counter_add_keys _ _ _ _ I) as [->|J]; auto.
Qed.

Lemma Counter_keys (l : list str) (k : str) (n : nat) :
  In (k, n) (Counter l) -> In k l.
Proof.
  intros H. destruct (Counter_keys_from _ _ _ _ H) as [I|(n' & [])]. exact I.
Qed.

Lemma max_by_count_in (c : list (str * nat)) :
  forall best, max_by_count best c = best \/ In (max_by_count best c) c.
Proof.
  induction c as [|x c IH]; simpl; intros best; [auto|].
  destruct (snd best <? snd x).
  - destruct (IH x) as [E|I]; [rewrite E|]; auto.
  - destruct (IH best) as [E|I]; auto.
Qed.

Lemma most_common_1_in (l : list str) (v : str) :
  most_common_1 (Counter l) = Some v -> In v l.
Proof.
  unfold most_common_1. destruct (Counter l) as [|x c] eqn:E; [discriminate|].
  intros H. inversion H. clear H.
  assert (In (max_by_count x c) (Counter l)) as I.
  { rewrite E. destruct (max_by_count_in c x) as [-> | I]; simpl; auto. }
  destruct (max_by_count x c) as [k n]. simpl. eapply Counter_keys; eauto.
Qed.

Lemma valid_rates_of_in (tokens : list str) (v : str) :
  In v (valid_rates_of tokens) <->
  exists token rate, In token tokens /\ v = rstrip (py "%") token
                     /\ py_float v = Some rate /\ rate_in_range rate = true.
Proof.
  unfold valid_rates_of. rewrite in_flat_map. split.
  - intros (token & I & H).
    destruct (py_float (rstrip (py "%") token)) as [rate|] eqn:E; [|contradiction].
    destruct (rate_in_range rate) eqn:Rg; [|contradiction].
    destruct H as [<-|[]]. exists token, rate. auto.
  - intros (token & rate & I & -> & E & Rg). exists token. split; auto.
    rewrite E, Rg. simpl. auto.
Qed.

Lemma secondary_note_rate_some (text : str) (prov : Provenance) (fe : FieldExtraction) :
  secondary_note_rate text prov = Some fe ->
  exists v rate, py_float v = Some rate /\ rate_in_range rate = true
    /\ fe = {| value := Some v; confidence := conf_070; provenance := prov |}.
Proof.
  unfold secondary_note_rate. intros H.
  destruct (re_search true rates_table_pattern text) as [m|]; [|discriminate].
  cbv zeta in H.
  match type of H with
  | match most_common_1 (Counter ?l) with _ => _ end = _ =>
      destruct (most_common_1 (Counter l)) as [v|] eqn:E; [|discriminate];
      apply most_common_1_in in E; apply valid_rates_of_in in E
  end.
  destruct E as (token & rate & _ & _ & F & Rg).
  inversion H. exists v, rate. auto.
Qed.

Lemma format_2f_nonempty (x : float64) : format_2f x <> [].
Proof.
  destruct x as [|[]|[] m e]; simpl; try discriminate;
    destruct (dec_of_N _); discriminate.
Qed.

Lemma scheduled_pi_of_token_some (captured : str) (conf : Q) (prov : Provenance)
    (fe : FieldExtraction) :
  scheduled_pi_of_token captured conf prov = Some fe ->
  exists amount,
    has_char "$" captured || has_char "," captured || has_char "." captured = true
    /\ py_float (replace (py ",") [] (replace (py "$") [] captured)) = Some amount
    /\ flt amount 100 = false /\ fgt amount 100000 = false
    /\ fe = {| value := Some (format_2f amount); confidence := conf; provenance := prov |}.
Proof.
  unfold scheduled_pi_of_token. intros H.
  destruct (has_char "$" captured || has_char "," captured || has_char "." captured);
    [|discriminate]. simpl in H.
  destruct (py_float _) as [amount|] eqn:E; [|discriminate].
  destruct (flt amount 100) eqn:A; [discriminate|].
  destruct (fgt amount 100000) eqn:B; [discriminate|].
  simpl in H. inversion H. exists amount. auto 10.
Qed.

Lemma extract_scheduled_pi_some (text : str) (prov : Provenance) (fe : FieldExtraction) :
  extract_scheduled_pi text prov = Some fe ->
  exists pattern conf m captured,
    In (pattern, conf) all_patterns
    /\ re_search true pattern text = Some m /\ group m 1 = Some captured
    /\ scheduled_pi_of_token captured conf prov = Some fe.
Proof.
  unfold extract_scheduled_pi.
  induction all_patterns as [|[pattern conf] l IH]; simpl; [discriminate|].
  destruct (re_search true pattern text) as [m|] eqn:S.
  - destruct (group m 1) as [captured|] eqn:G.
    + destruct (scheduled_pi_of_token captured conf prov) as [fe'|] eqn:T.
      * intros H. inversion H; subst fe'. exists pattern, conf, m, captured. auto.
      * intros H. destruct (IH H) as (p & c & m' & cap & I & ?).
        exists p, c, m', cap. auto.
    + intros H. destruct (IH H) as (p & c & m' & cap & I & ?).
      exists p, c, m', cap. auto.
  - intros H. destruct (IH H) as (p & c & m' & cap & I & ?).
    exists p, c, m', cap. auto.
Qed.

Lemma strftime_Ymd_nonempty (d : date) : strftime_Ymd d <> [].
Proof.
  unfold strftime_Ymd. destruct (dec_of_N (year d)); discriminate.
Qed.

(** A date pattern leaves at least six characters in its group. *)
Lemma date_group_nonempty (pattern : regex) (text : str) (m : re_match) (date_str : str) :
  pattern = next_due_date_pattern \/ pattern = maturity_date_pattern ->
  re_search true pattern text = Some m ->
  group m 1 = Some date_str ->
  6 <= length date_str.
Proof.
  intros P S G.
  destruct (re_search_group _ _ _ _ S G) as (body & I & L & _).
  destruct P as [-> | ->]; cbn in I; destruct I as [<-|[]]; exact L.
Qed.

Lemma first_answer_one {A B} (f : A -> outcome (option B)) (x : A) :
  first_answer f [x] = f x.
Proof. simpl. destruct (f x) as [e|[y|]]; reflexivity. Qed.

Lemma date_field_some (date_parse : str -> parse_answer) (text : str)
    (prov : Provenance) (pattern : regex) (fe : FieldExtraction) :
  date_field date_parse text prov pattern = Returned (Some fe) ->
  exists m date_str,
    re_search true pattern text = Some m /\ group m 1 = Some date_str
    /\ ((exists parsed_date,
            date_parse date_str = Parsed parsed_date
            /\ fe = {| value := Some (strftime_Ymd parsed_date); confidence := conf_090;
                       provenance := prov |})
        \/ (date_parse date_str = ParserError
            /\ fe = {| value := Some date_str; confidence := conf_050;
                       provenance := prov |})).
Proof.
  unfold date_field. intros H.
  destruct (re_search true pattern text) as [m|] eqn:S; [|discriminate].
  destruct (group m 1) as [date_str|] eqn:G; [|discriminate].
  exists m, date_str. split; [reflexivity|]. split; [exact G|].
  destruct (date_parse date_str) as [d| |e]; [| |discriminate H].
  - left. exists d. inversion H. auto.
  - right. inversion H. auto.
Qed.

Lemma parser_result_sound (date_parse : str -> parse_answer)
    (parser : str -> Provenance -> outcome (option FieldExtraction))
    (text : str) (prov : Provenance) (fe : FieldExtraction) :
  In parser (field_parsers date_parse) ->
  parser text prov = Returned (Some fe) ->
  value_is_empty fe = false /\ (0 < confidence fe)%Q
  /\ validate_confidence (confidence fe) = true.
Proof.
  intros I H. simpl in I.
  destruct I as [<-|[<-|[<-|[<-|[<-|[<-|[]]]]]]];
    try (unfold returning in H; injection H as H).
  - unfold extract_principal_balance in H. rewrite first_some_one in H.
    apply plain_amount_field_some in H. destruct H as (m & g1 & x & _ & _ & F & ->).
    apply py_float_nonempty in F. rewrite value_not_empty by exact F.
    repeat split; reflexivity.
  - unfold extract_note_rate in H. rewrite first_some_one in H.
    destruct (primary_note_rate text prov note_rate_primary_pattern) as [fe'|] eqn:P.
    + inversion H; subst fe'. apply primary_note_rate_some in P.
      destruct P as (v & rate & F & _ & ->).
      apply py_float_nonempty in F. rewrite value_not_empty by exact F.
      repeat split; reflexivity.
    + apply secondary_note_rate_some in H.
      destruct H as (v & rate & F & _ & ->).
      apply py_float_nonempty in F. rewrite value_not_empty by exact F.
      repeat split; reflexivity.
  - apply extract_scheduled_pi_some in H.
    destruct H as (pattern & conf & m & captured & I & _ & _ & T).
    apply scheduled_pi_of_token_some in T.
    destruct T as (amount & _ & _ & _ & _ & ->).
    rewrite value_not_empty by apply format_2f_nonempty.
    simpl in I. destruct I as [E|[E|[E|[]]]]; inversion E; subst;
      repeat split; reflexivity.
  - unfold extract_escrow in H. rewrite first_some_one in H.
    apply plain_amount_field_some in H. destruct H as (m & g1 & x & _ & _ & F & ->).
    apply py_float_nonempty in F. rewrite value_not_empty by exact F.
    repeat split; reflexivity.
  - unfold extract_next_due_date in H. rewrite first_answer_one in H.
    apply date_field_some in H. destruct H as (m & date_str & S & G & D).
    pose proof (@date_group_nonempty _ _ _ _ (or_introl eq_refl) S G) as L.
    destruct D as [(d & _ & ->)|(_ & ->)].
    + rewrite value_not_empty by apply strftime_Ymd_nonempty.
      repeat split; reflexivity.
    + rewrite value_not_empty by (intros ->; simpl in L; lia).
      repeat split; reflexivity.
  - unfold extract_maturity_date in H. rewrite first_answer_one in H.
    apply date_field_some in H. destruct H as (m & date_str & S & G & D).
    pose proof (@date_group_nonempty _ _ _ _ (or_intror eq_refl) S G) as L.
    destruct D as [(d & _ & ->)|(_ & ->)].
    + rewrite value_not_empty by apply strftime_Ymd_nonempty.
      repeat split; reflexivity.
    + rewrite value_not_empty by (intros ->; simpl in L; lia).
      repeat split; reflexivity.
Qed.

(** Each field of a returned result is what one of the six parsers
    returned, or the empty extraction. *)
Lemma field_of_result Image (host : Host Image) date_parse
    (file_type text : str) (prov : Provenance) (errs : list str)
    (r : ExtractionResult) (name : str) (fe : FieldExtraction) :
  assemble host date_parse file_type text prov errs = Returned r ->
  In (name, Some fe) (fields r) ->
  exists parser answer,
    In parser (field_parsers date_parse)
    /\ (answer = None \/ parser text prov = Returned answer)
    /\ fe = field_or_empty prov answer.
Proof.
  intros H I. apply assemble_returned in H.
  destruct H as (next_due & maturity & D & F & _).
  rewrite F in I. cbv zeta in I. clear F.
  assert (forall parser : str -> Provenance -> option FieldExtraction,
             (if truthy (strip text) then parser text prov else None) = None
             \/ returning parser text prov
                = Returned (if truthy (strip text) then parser text prov else None))
    as Pure.
  { intros parser. destruct (truthy (strip text)); [right; reflexivity|left; reflexivity]. }
  simpl in I.
  destruct I as [E|[E|[E|[E|[E|[E|[]]]]]]]; inversion E; subst.
  - exists (returning extract_principal_balance). eexists.
    split; [simpl; auto 10|]. split; [apply Pure|reflexivity].
  - exists (returning extract_note_rate). eexists.
    split; [simpl; auto 10|]. split; [apply Pure|reflexivity].
  - exists (returning extract_scheduled_pi). eexists.
    split; [simpl; auto 10|]. split; [apply Pure|reflexivity].
  - exists (returning extract_escrow). eexists.
    split; [simpl; auto 10|]. split; [apply Pure|reflexivity].
  - exists (extract_next_due_date date_parse), next_due.
    split; [simpl; auto 10|]. split; [|reflexivity].
    destruct (truthy (strip text)); [right|left]; tauto.
  - exists (extract_maturity_date date_parse), maturity.
    split; [simpl; auto 10|]. split; [|reflexivity].
    destruct (truthy (strip text)); [right|left]; tauto.
Qed.

Lemma dict_get_in {V} (name : str) (d : dict V) (v : V) :
  dict_get name d = Some v -> exists k, In (k, v) d.
Proof.
  induction d as [|[k w] d IH]; simpl; [discriminate|].
  destruct (str_eqb k name).
  - intros H. inversion H; subst. exists k. auto.
  - intros H. destruct (IH H) as (k' & I). exists k'. auto.
Qed.

(** C2: every extraction in a result has a confidence that the validator
    of the class accepts, between 0.0 and 1.0, and an extraction with an
    empty value is the empty extraction of the assembler, at confidence
    0.0; for a parser that returns an extraction, its value is not empty
    and its confidence is positive. *)
Theorem C2_confidence_bounds :
  forall Image (host : Host Image) date_parse,
    (forall parser text prov fe,
        In parser (field_parsers date_parse) ->
        parser text prov = Returned (Some fe) ->
        value_is_empty fe = false /\ (0 < confidence fe)%Q
        /\ validate_confidence (confidence fe) = true)
    /\ (forall file_type text prov errs r name fe,
           assemble host date_parse file_type text prov errs = Returned r ->
           dict_get name (fields r) = Some (Some fe) ->
           ((0 <= confidence fe)%Q /\ (confidence fe <= 1)%Q)
           /\ validate_confidence (confidence fe) = true
           /\ (value_is_empty fe = true ->
               fe = empty_extraction prov /\ confidence fe = conf_000)).
Proof.
  intros Image host date_parse. split; [apply parser_result_sound|].
  intros file_type text prov errs r name fe R H.
  apply dict_get_in in H. destruct H as (k & I).
  destruct (field_of_result _ _ _ _ _ _ _ _ R I) as (parser & answer & Ip & A & ->).
  assert (forall c, validate_confidence c = true -> (0 <= c)%Q /\ (c <= 1)%Q) as V.
  { intros c Hc. unfold validate_confidence in Hc. apply andb_true_iff in Hc.
    destruct Hc as [A' B]. apply Qle_bool_iff in A'. apply Qle_bool_iff in B. auto. }
  destruct answer as [fe|]; simpl.
  - destruct A as [A|A]; [discriminate|].
    destruct (@parser_result_sound _ _ _ _ _ Ip A) as (NE & Pos & Val).
    split; [auto|]. split; [auto|]. rewrite NE. discriminate.
  - split; [apply V; reflexivity|]. split; [reflexivity|]. auto.
Qed.

Lemma C2_confidence_bounds_witness :
  exists r,
    assemble failing_host no_dates (py "pdf") (py "Escrow: 250.00") pdf_text []
    = Returned r
    /\ dict_get (py "escrow") (fields r)
       = Some (Some {| value := Some (py "250.00"); confidence := conf_085;
                       provenance := pdf_text |})
    /\ validate_confidence conf_085 = true.
Proof.
  destruct (assemble failing_host no_dates (py "pdf") (py "Escrow: 250.00") pdf_text [])
    as [e|r] eqn:E; [vm_compute in E; discriminate|].
  exists r. split; [reflexivity|].
  assert (dict_get (py "escrow") (fields r)
          = Some (Some {| value := Some (py "250.00"); confidence := conf_085;
                          provenance := pdf_text |})) as H.
  { vm_compute in E. inversion E. reflexivity. }
  split; [exact H|].
  exact (proj1 (proj2 (proj2 (C2_confidence_bounds failing_host no_dates)
                         _ _ _ _ _ _ _ E H))).
Defined.

(** ** The date fields *)










(** ** The choice between the two OCR passes *)

Lemma upper_char_lower (c : ascii) : upper_char (lower c) = upper_char c.
Proof. destruct c as [[] [] [] [] [] [] [] []]; vm_compute; reflexivity. Qed.

Lemma upper_lower (text : str) : upper (map lower text) = upper text.
Proof.
  unfold upper. induction text as [|c text IH]; simpl; [reflexivity|].
  rewrite upper_char_lower, IH. reflexivity.
Qed.

Lemma extract_text_from_image_passes Image (host : Host Image) (image_path : str)
    (t : trace) (image image_enhanced : Image) (text_base text_enhanced : str) :
  image_load host t image_path = Returned image ->
  image_to_string host (t ++ [EvImageLoad image_path]) image base_config
  = Returned text_base ->
  image_enhance host ((t ++ [EvImageLoad image_path]) ++ [EvTesseract base_config]) image
  = Returned image_enhanced ->
  image_to_string host
    (((t ++ [EvImageLoad image_path]) ++ [EvTesseract base_config]) ++ [EvEnhance])
    image_enhanced enhanced_config
  = Returned text_enhanced ->
  fst (extract_text_from_image host image_path t)
  = Returned (if score_text text_base <? score_text text_enhanced
              then text_enhanced else text_base, ocr_text).
Proof.
  intros L A E B.
  unfold extract_text_from_image, try_except, bind, call, ret.
  rewrite L, A, E, B. cbv zeta.
  destruct (score_text text_base <? score_text text_enhanced); reflexivity.
Qed.

(** C8: the score of a text is the number of its digits, plus fifty for
    each of the eight keywords found in the upper-cased text (so the count
    does not depend on the case of the text), plus the length divided by
    200, rounded down.  When both passes return, the text of the enhanced
    pass is selected when its score is strictly greater than the score of
    the base pass, and the text of the base pass otherwise, a tie
    included; the provenance is [ocr_text]. *)
Theorem C8_ocr_pass_selection :
  (forall text,
      score_text text
      = count_if isdigit text + 50 * keyword_hits text + length text / 200)
  /\ keywords = map (fun w => map code (py w))
                  ["LOAN"; "PAYMENT"; "BORROWER"; "PRINCIPAL"; "INTEREST"; "RATE";
                   "MATURITY"; "ESCROW"]%string
  /\ (forall text, keyword_hits (map lower text) = keyword_hits text)
  /\ (forall Image (host : Host Image) image_path t image image_enhanced
             text_base text_enhanced,
         image_load host t image_path = Returned image ->
         image_to_string host (t ++ [EvImageLoad image_path]) image base_config
         = Returned text_base ->
         image_enhance host
           ((t ++ [EvImageLoad image_path]) ++ [EvTesseract base_config]) image
         = Returned image_enhanced ->
         image_to_string host
           (((t ++ [EvImageLoad image_path]) ++ [EvTesseract base_config]) ++ [EvEnhance])
           image_enhanced enhanced_config
         = Returned text_enhanced ->
         (score_text text_base < score_text text_enhanced ->
          fst (extract_text_from_image host image_path t)
          = Returned (text_enhanced, ocr_text))
         /\ (score_text text_enhanced <= score_text text_base ->
             fst (extract_text_from_image host image_path t)
             = Returned (text_base, ocr_text))).
Proof.
  split; [reflexivity|]. split; [reflexivity|]. split.
  - intros text. unfold keyword_hits. rewrite upper_lower. reflexivity.
  - intros Image host image_path t image image_enhanced text_base text_enhanced L A E B.
    rewrite (@extract_text_from_image_passes _ _ _ _ _ _ _ _ L A E B).
    split; intros H.
    + apply Nat.ltb_lt in H. rewrite H. reflexivity.
    + apply Nat.ltb_ge in H. rewrite H. reflexivity.
Qed.

Lemma C8_ocr_pass_selection_witness :
  score_text (py "Loan 12 rate") = 102 /\ score_text (py "L0an 12 ra7e") = 4
  /\ score_text (py "Escrow 55") = 52 /\ score_text (py "Rate 3.25") = 53
  /\ score_text (py "rate 3.25") = 53
  /\ fst (extract_text_from_image (two_pass_host (py "Escrow 55") (py "Rate 3.25"))
            (py "scan.png") [])
     = Returned (py "Rate 3.25", ocr_text)
  /\ fst (extract_text_from_image (two_pass_host (py "Rate 3.25") (py "rate 3.25"))
            (py "scan.png") [])
     = Returned (py "Rate 3.25", ocr_text).
Proof.
  do 5 (split; [vm_compute; reflexivity|]).
  split.
  - apply (proj1 (proj2 (proj2 (proj2 C8_ocr_pass_selection))
                    unit (two_pass_host (py "Escrow 55") (py "Rate 3.25"))
                    (py "scan.png") [] tt tt (py "Escrow 55") (py "Rate 3.25")
                    eq_refl eq_refl eq_refl eq_refl)).
    vm_compute. lia.
  - apply (proj2 (proj2 (proj2 (proj2 C8_ocr_pass_selection))
                    unit (two_pass_host (py "Rate 3.25") (py "rate 3.25"))
                    (py "scan.png") [] tt tt (py "Rate 3.25") (py "rate 3.25")
                    eq_refl eq_refl eq_refl eq_refl)).
    vm_compute. lia.
Defined.

(** ** Text acquisition *)

(** C3, as stated, fails: the first page has eleven characters, the
    OCRmyPDF run raises, and the text keeps the provenance [pdf_text];
    the output is neither read back nor removed. *)
Lemma C3_counterexample :
  is_sparse (text_of_pdf ocr_failure_host (py "stmt.pdf") []) = true
  /\ acquire_text ocr_failure_host (py "stmt.pdf") (py "pdf") []
     = (Returned (py "Page 1 of 3", pdf_text),
        [EvPdfRead (py "stmt.pdf"); EvOcrMyPdf (py "stmt.pdf") (py "stmt_ocr.pdf")])
  /\ pdf_text <> ocr_text.
Proof.
  split; [vm_compute; reflexivity|]. split; [vm_compute; reflexivity|]. discriminate.
Qed.

(** C3, amended: for a PDF whose first-page text, trimmed, is empty or
    shorter than 100 characters, OCRmyPDF is run exactly once, from the
    document into the output path.  When the run returns, the first page
    of the output is read, its text is tagged [ocr_text], and the removal
    of the output is attempted once, after the read, whatever the read
    gave; the answer of the removal does not change the result.  When the
    run raises, nothing is read back or removed, and the text of the
    first page keeps the provenance [pdf_text].  A PDF with more text is
    not sent to OCRmyPDF. *)
Theorem C3_ocr_fallback :
  forall Image (host : Host Image) (file_path : str) (t : trace),
    let native := text_of_pdf host file_path t in
    let out := ocr_output_path file_path in
    let t1 := t ++ [EvPdfRead file_path] in
    let t2 := t1 ++ [EvOcrMyPdf file_path out] in
    (is_sparse native = true ->
     (forall u, ocrmypdf_ocr host t1 file_path out = Returned u ->
                acquire_text host file_path (py "pdf") t
                = (Returned (text_of_pdf host out t2, ocr_text),
                   (t2 ++ [EvPdfRead out]) ++ [EvRemove out]))
     /\ (forall e, ocrmypdf_ocr host t1 file_path out = Raised e ->
                   acquire_text host file_path (py "pdf") t
                   = (Returned (native, pdf_text), t2)))
    /\ (is_sparse native = false ->
        acquire_text host file_path (py "pdf") t = (Returned (native, pdf_text), t1)).
Proof.
  intros Image host file_path t native out t1 t2.
  rewrite acquire_text_pdf_eq. cbv zeta.
  fold native. fold out. fold t1. fold t2.
  split.
  - intros S. rewrite S. split.
    + intros u H. rewrite H. reflexivity.
    + intros e H. rewrite H. reflexivity.
  - intros S. rewrite S. reflexivity.
Qed.

Lemma C3_ocr_fallback_witness :
  is_sparse (text_of_pdf ocr_success_host (py "stmt.pdf") []) = true
  /\ ocrmypdf_ocr ocr_success_host [EvPdfRead (py "stmt.pdf")] (py "stmt.pdf")
       (py "stmt_ocr.pdf") = Returned tt
  /\ os_remove ocr_success_host
       [EvPdfRead (py "stmt.pdf"); EvOcrMyPdf (py "stmt.pdf") (py "stmt_ocr.pdf");
        EvPdfRead (py "stmt_ocr.pdf")] (py "stmt_ocr.pdf")
     = Raised (py "permission denied")
  /\ acquire_text ocr_success_host (py "stmt.pdf") (py "pdf") []
     = (Returned (py "Escrow: 250.00", ocr_text),
        [EvPdfRead (py "stmt.pdf"); EvOcrMyPdf (py "stmt.pdf") (py "stmt_ocr.pdf");
         EvPdfRead (py "stmt_ocr.pdf"); EvRemove (py "stmt_ocr.pdf")]).
Proof.
  do 3 (split; [reflexivity|]).
  exact (proj1 (proj1 (C3_ocr_fallback ocr_success_host (py "stmt.pdf") []) eq_refl)
           tt eq_refl).
Defined.

(** C4, as stated, fails: the OCRmyPDF run raises, and the text that the
    acquisition yields is the one word of the first page, not the empty
    text. *)
Lemma C4_counterexample :
  ocrmypdf_ocr one_word_host [EvPdfRead (py "stmt.pdf")] (py "stmt.pdf")
    (py "stmt_ocr.pdf") = Raised (py "ocr failed")
  /\ fst (acquire_text one_word_host (py "stmt.pdf") (py "pdf") [])
     = Returned (py "Statement", pdf_text)
  /\ py "Statement" <> [].
Proof.
  split; [reflexivity|]. split; [vm_compute; reflexivity|]. discriminate.
Qed.

(** C4, amended: text acquisition never raises, so that the handler
    around it in [process_extraction] is never entered and the error list
    is empty when the result is assembled.  A PDF that cannot be read
    yields the empty text with provenance [pdf_text] from
    [extract_text_from_pdf]; an image that cannot be loaded, enhanced or
    recognised yields the empty text with provenance [ocr_text]; an
    OCRmyPDF run that raises makes [run_ocrmypdf] return [False], and the
    acquisition then keeps the text of the first page, empty or not, with
    provenance [pdf_text]. *)
Theorem C4_acquisition_failures_absorbed :
  forall Image (host : Host Image) (date_parse : str -> parse_answer),
    (forall file_path file_type t,
        exists text prov t',
          acquire_text host file_path file_type t = (Returned (text, prov), t')
          /\ process_extraction host date_parse file_path file_type t
             = (assemble host date_parse file_type text prov [], t'))
    /\ (forall pdf_path t e,
           pdf_first_page host t pdf_path = Raised e ->
           extract_text_from_pdf host pdf_path t
           = (Returned ([], pdf_text), t ++ [EvPdfRead pdf_path]))
    /\ (forall image_path t,
           (forall image text_base image_enhanced text_enhanced,
               image_load host t image_path = Returned image ->
               image_to_string host (t ++ [EvImageLoad image_path]) image base_config
               = Returned text_base ->
               image_enhance host
                 ((t ++ [EvImageLoad image_path]) ++ [EvTesseract base_config]) image
               = Returned image_enhanced ->
               image_to_string host
                 (((t ++ [EvImageLoad image_path]) ++ [EvTesseract base_config])
                    ++ [EvEnhance]) image_enhanced enhanced_config
               = Returned text_enhanced ->
               False) ->
           fst (extract_text_from_image host image_path t) = Returned ([], ocr_text))
    /\ (forall pdf_path output_path t e,
           ocrmypdf_ocr host t pdf_path output_path = Raised e ->
           run_ocrmypdf host pdf_path output_path t
           = (Returned false, t ++ [EvOcrMyPdf pdf_path output_path]))
    /\ (forall file_path t e,
           is_sparse (text_of_pdf host file_path t) = true ->
           ocrmypdf_ocr host (t ++ [EvPdfRead file_path]) file_path
             (ocr_output_path file_path) = Raised e ->
           fst (acquire_text host file_path (py "pdf") t)
           = Returned (text_of_pdf host file_path t, pdf_text)).
Proof.
  intros Image host date_parse. split; [|split; [|split; [|split]]].
  - intros file_path file_type t.
    apply process_extraction_unfold.
  - intros pdf_path t e H. rewrite extract_text_from_pdf_eq.
    unfold text_of_pdf. rewrite H. reflexivity.
  - intros image_path t H.
    unfold extract_text_from_image, try_except, bind, call, ret.
    destruct (image_load host t image_path) as [e|image] eqn:L; [reflexivity|].
    destruct (image_to_string host _ image base_config) as [e|text_base] eqn:A;
      [reflexivity|].
    destruct (image_enhance host _ image) as [e|image_enhanced] eqn:E; [reflexivity|].
    destruct (image_to_string host _ image_enhanced enhanced_config)
      as [e|text_enhanced] eqn:B; [reflexivity|].
    exfalso. exact (H _ _ _ _ eq_refl A E B).
  - intros pdf_path output_path t e H. rewrite run_ocrmypdf_eq, H. reflexivity.
  - intros file_path t e S H. rewrite acquire_text_pdf_eq. cbv zeta.
    rewrite S, H. reflexivity.
Qed.

Lemma C4_acquisition_failures_absorbed_witness :
  pdf_first_page failing_host [] (py "stmt.pdf") = Raised (py "no such file")
  /\ extract_text_from_pdf failing_host (py "stmt.pdf") []
     = (Returned ([], pdf_text), [EvPdfRead (py "stmt.pdf")])
  /\ fst (acquire_text one_word_host (py "stmt.pdf") (py "pdf") [])
     = Returned (py "Statement", pdf_text).
Proof.
  split; [reflexivity|]. split.
  - exact (proj1 (proj2 (C4_acquisition_failures_absorbed failing_host no_dates))
             (py "stmt.pdf") [] (py "no such file") eq_refl).
  - exact (proj2 (proj2 (proj2 (proj2
             (C4_acquisition_failures_absorbed one_word_host no_dates))))
             (py "stmt.pdf") [] (py "ocr failed") eq_refl eq_refl).
Defined.

(** ** Floats of decimal tokens *)

Lemma decimal_char_not_space (c : ascii) :
  is_decimal_char c = true -> float_space c = false.
Proof. by_cases_on c. Qed.

Lemma decimal_char_not_sign (c : ascii) :
  is_decimal_char c = true -> Ascii.eqb c "-" = false /\ Ascii.eqb c "+" = false.
Proof. split; revert H; by_cases_on c. Qed.

Lemma decimal_char_not_letter (c : ascii) :
  is_decimal_char c = true ->
  Ascii.eqb (lower c) "i" = false /\ Ascii.eqb (lower c) "n" = false.
Proof. split; revert H; by_cases_on c. Qed.

Lemma dropwhile_head {A} (p : A -> bool) (l : list A) :
  Forall (fun x => p x = false) l -> dropwhile p l = l.
Proof. destruct 1 as [|x l H]; simpl; [reflexivity|]. rewrite H. reflexivity. Qed.

Lemma float_strip_decimal (s : str) :
  Forall (fun c => is_decimal_char c = true) s ->
  rstrip_by float_space (lstrip_by float_space s) = s.
Proof.
  intros F.
  assert (Forall (fun c => float_space c = false) s) as G.
  { eapply Forall_impl; [|exact F]. apply decimal_char_not_space. }
  unfold rstrip_by, lstrip_by. rewrite (dropwhile_head _ G).
  rewrite dropwhile_head by (apply Forall_rev; exact G).
  apply rev_involutive.
Qed.

Lemma round_ratio_sign (neg : bool) (p q : Z) :
  (exists m e, round_ratio neg p q = FFin neg m e) \/ round_ratio neg p q = FInf neg.
Proof.
  unfold round_ratio. destruct (p =? 0)%Z; [eauto|].
  match goal with |- context [let '(m, e) := ?c in _] => destruct c as [m e] end.
  destruct (971 <? e)%Z; eauto.
Qed.

Lemma parse_floatnumber_sign (neg : bool) (s : str) (x : float64) :
  parse_floatnumber neg s = Some x ->
  (exists m e, x = FFin neg m e) \/ x = FInf neg.
Proof.
  unfold parse_floatnumber.
  destruct (scan_digitpart s) as [ip r1].
  match goal with |- context [let '(fp, r2) := ?c in _] => destruct c as [fp r2] end.
  destruct (ip ++ fp); [discriminate|].
  destruct (scan_exponent r2) as [ex|]; [|discriminate].
  intros H. inversion H. destruct (0 <=? _)%Z; apply round_ratio_sign.
Qed.

(** The float of an unsigned decimal token is finite and not negative, or
    the positive infinity; it is never not-a-number. *)
Lemma py_float_decimal (s : str) (x : float64) :
  Forall (fun c => is_decimal_char c = true) s ->
  py_float s = Some x ->
  (exists m e, x = FFin false m e) \/ x = FInf false.
Proof.
  intros F. unfold py_float. rewrite (float_strip_decimal F).
  destruct s as [|c s].
  - simpl. discriminate.
  - inversion F as [|? ? Fc Fs]; subst.
    destruct (decimal_char_not_sign _ Fc) as [-> ->].
    destruct (decimal_char_not_letter _ Fc) as [Li Ln].
    cbn [map str_eqb py list_ascii_of_string]. rewrite Li, Ln. simpl.
    apply parse_floatnumber_sign.
Qed.

Lemma replace_char_filter (a : ascii) (fuel : nat) :
  forall s, length s <= fuel ->
            replace_fuel fuel [a] [] s = filter (fun c => negb (Ascii.eqb a c)) s.
Proof.
  induction fuel as [|fuel IH]; intros [|c s] L; simpl in *; try reflexivity; try lia.
  rewrite andb_true_r. destruct (Ascii.eqb a c); simpl.
  - apply IH. lia.
  - f_equal. apply IH. lia.
Qed.

Lemma replace_char (a : ascii) (s : str) :
  replace [a] [] s = filter (fun c => negb (Ascii.eqb a c)) s.
Proof. unfold replace. apply replace_char_filter. lia. Qed.

(** A money token without its dollar signs and commas is an unsigned
    decimal token. *)
Lemma money_token_normalized (captured : str) :
  Forall (fun c => is_money_char c = true) captured ->
  Forall (fun c => is_decimal_char c = true)
    (replace (py ",") [] (replace (py "$") [] captured)).
Proof.
  intros F. change (py ",") with [","%char]. change (py "$") with ["$"%char].
  rewrite !replace_char. apply Forall_forall. intros c I.
  apply filter_In in I. destruct I as [I N1].
  apply filter_In in I. destruct I as [I N2].
  rewrite Forall_forall in F. specialize (F c I).
  unfold is_money_char in F.
  rewrite Ascii.eqb_sym in N1. rewrite Ascii.eqb_sym in N2.
  destruct (Ascii.eqb c ","); [discriminate|].
  destruct (Ascii.eqb c "$"); [discriminate|].
  rewrite !orb_false_r in F. exact F.
Qed.

Lemma money_alphabet (x : ascii) :
  in_alphabet true (seq [dollar_opt; amount_token]) x = true -> is_money_char x = true.
Proof. by_cases_on x. Qed.

(** The token that a payment pattern captures is a money token. *)
Lemma captured_money_token (pattern : regex) (conf : Q) (text : str) (m : re_match)
    (captured : str) :
  In (pattern, conf) all_patterns ->
  re_search true pattern text = Some m ->
  group m 1 = Some captured ->
  Forall (fun c => is_money_char c = true) captured.
Proof.
  intros I S G.
  destruct (re_search_group _ _ _ _ S G) as (body & B & _ & F).
  assert (body = seq [dollar_opt; amount_token]) as ->.
  { simpl in I. destruct I as [E|[E|[E|[]]]]; inversion E; subst pattern;
      cbn in B; destruct B as [<-|[]]; reflexivity. }
  eapply Forall_impl; [|exact F]. apply money_alphabet.
Qed.

Lemma uint_digits (d : Decimal.uint) :
  Forall (fun c => isdecimal c = true)
    (list_ascii_of_string (NilEmpty.string_of_uint d)).
Proof. induction d; simpl; constructor; auto. Qed.

Lemma dec_of_N_digits (n : N) :
  Forall (fun c => isdecimal c = true) (dec_of_N n) /\ dec_of_N n <> [].
Proof.
  unfold dec_of_N, NilZero.string_of_uint.
  destruct (N.to_uint n) as [|d|d|d|d|d|d|d|d|d|d]; simpl;
    (split; [constructor; [reflexivity|try apply uint_digits; constructor]
            |discriminate]).
Qed.

Lemma digit_char_decimal (k : Z) :
  (0 <= k <= 9)%Z -> isdecimal (digit_char k) = true.
Proof.
  intros H.
  assert (k = 0 \/ k = 1 \/ k = 2 \/ k = 3 \/ k = 4 \/ k = 5 \/ k = 6 \/ k = 7
          \/ k = 8 \/ k = 9)%Z as C by lia.
  repeat (destruct C as [->|C]; [reflexivity|]). subst k. reflexivity.
Qed.

Lemma two_decimals_of_cents (cents : Z) :
  two_decimals
    (dec_of_N (Z.to_N (cents / 100)) ++ py "."
       ++ [digit_char (cents mod 100 / 10); digit_char ((cents mod 100) mod 10)]).
Proof.
  exists (dec_of_N (Z.to_N (cents / 100))),
    (digit_char (cents mod 100 / 10)), (digit_char ((cents mod 100) mod 10)).
  destruct (dec_of_N_digits (Z.to_N (cents / 100))) as [D N].
  pose proof (Z.mod_pos_bound cents 100 ltac:(lia)) as B.
  split; [reflexivity|]. split; [exact N|]. split; [exact D|].
  split; apply digit_char_decimal.
  - split; [apply Z.div_pos; lia|]. apply Z.lt_succ_r.
    apply Z.div_lt_upper_bound; lia.
  - pose proof (Z.mod_pos_bound (cents mod 100) 10 ltac:(lia)). lia.
Qed.

(** A finite float that is not negative is printed with digits, a point
    and two digits. *)
Lemma format_2f_two_decimals (m e : Z) : two_decimals (format_2f (FFin false m e)).
Proof.
  unfold format_2f. cbv zeta. apply two_decimals_of_cents.
Qed.

Lemma in_range_not_nan (x : float64) (lo hi : Z) :
  (exists m e, x = FFin false m e) \/ x = FInf false ->
  flt x lo = false -> fgt x hi = false ->
  amount_between x lo hi /\ exists m e, x = FFin false m e.
Proof.
  unfold amount_between, flt, fgt, fge, fle.
  intros [(m & e & ->)| ->] A B; [|discriminate].
  split; [|eauto].
  remember (compare_int (FFin false m e) lo) as c1 eqn:E1.
  remember (compare_int (FFin false m e) hi) as c2 eqn:E2.
  assert (c1 <> None /\ c2 <> None) as [N1 N2]
      by (subst c1 c2; simpl; split; discriminate).
  destruct c1 as [[]|], c2 as [[]|]; try discriminate; try contradiction;
    split; reflexivity.
Qed.

Lemma digits_have_no (c : ascii) (s : str) :
  isdecimal c = false ->
  Forall (fun x => isdecimal x = true) s -> has_char c s = false.
Proof.
  intros N F. unfold has_char. induction F as [|x s Hx F IH]; simpl; [reflexivity|].
  rewrite IH, orb_false_r. destruct (Ascii.eqb_spec c x); [congruence|reflexivity].
Qed.

(** C5: when [extract_scheduled_pi] emits a field, one of its three
    patterns captured a token that contains a dollar sign, a comma or a
    point, and that token, without its dollar signs and commas, converts
    to a float between 100 and 100000; the value emitted is that float
    printed with exactly two decimals, at the confidence of the pattern.
    A token made of digits only is never accepted.  A labelled $50.00,
    $150000.00 or 1200 gives no field, and a labelled $1,234.56 gives the
    value 1234.56. *)
Theorem C5_scheduled_pi_validation :
  (forall text prov fe,
      extract_scheduled_pi text prov = Some fe ->
      exists pattern conf m captured amount,
        In (pattern, conf) all_patterns
        /\ re_search true pattern text = Some m /\ group m 1 = Some captured
        /\ has_char "$" captured || has_char "," captured || has_char "." captured = true
        /\ py_float (replace (py ",") [] (replace (py "$") [] captured)) = Some amount
        /\ amount_between amount 100 100000
        /\ two_decimals (format_2f amount)
        /\ fe = {| value := Some (format_2f amount); confidence := conf;
                   provenance := prov |})
  /\ (forall captured conf prov,
         Forall (fun c => isdecimal c = true) captured ->
         scheduled_pi_of_token captured conf prov = None)
  /\ (forall prov,
         extract_scheduled_pi (py "Principal and Interest: 1200") prov = None
         /\ extract_scheduled_pi (py "Principal and Interest: $50.00") prov = None
         /\ extract_scheduled_pi (py "Principal and Interest: $150000.00") prov = None
         /\ extract_scheduled_pi (py "Principal and Interest: $1,234.56") prov
            = Some {| value := Some (py "1234.56"); confidence := conf_090;
                      provenance := prov |}).
Proof.
  split; [|split].
  - intros text prov fe H.
    apply extract_scheduled_pi_some in H.
    destruct H as (pattern & conf & m & captured & I & S & G & T).
    apply scheduled_pi_of_token_some in T.
    destruct T as (amount & Mark & F & Lo & Hi & ->).
    pose proof (@captured_money_token _ _ _ _ _ I S G) as Mo.
    pose proof (py_float_decimal (money_token_normalized Mo) F) as Fin.
    destruct (@in_range_not_nan _ _ _ Fin Lo Hi) as (Rg & mm & ee & E).
    exists pattern, conf, m, captured, amount.
    repeat (split; [assumption|]). split; [|reflexivity].
    rewrite E. apply format_2f_two_decimals.
  - intros captured conf prov D. unfold scheduled_pi_of_token.
    rewrite (@digits_have_no "$" captured eq_refl D).
    rewrite (@digits_have_no "," captured eq_refl D).
    rewrite (@digits_have_no "." captured eq_refl D). reflexivity.
  - intros prov. repeat split; vm_compute; reflexivity.
Qed.

Lemma C5_scheduled_pi_validation_witness :
  extract_scheduled_pi (py "Monthly Payment: 1200.50") pdf_text
  = Some {| value := Some (py "1200.50"); confidence := conf_080; provenance := pdf_text |}
  /\ (exists pattern conf m captured amount,
         In (pattern, conf) all_patterns
         /\ re_search true pattern (py "Monthly Payment: 1200.50") = Some m
         /\ group m 1 = Some captured
         /\ has_char "$" captured || has_char "," captured || has_char "." captured = true
         /\ py_float (replace (py ",") [] (replace (py "$") [] captured)) = Some amount
         /\ amount_between amount 100 100000
         /\ two_decimals (format_2f amount)
         /\ {| value := Some (py "1200.50"); confidence := conf_080;
               provenance := pdf_text |}
            = {| value := Some (format_2f amount); confidence := conf;
                 provenance := pdf_text |})
  /\ scheduled_pi_of_token (py "1200") conf_090 pdf_text = None.
Proof.
  assert (extract_scheduled_pi (py "Monthly Payment: 1200.50") pdf_text
          = Some {| value := Some (py "1200.50"); confidence := conf_080;
                    provenance := pdf_text |}) as H by (vm_compute; reflexivity).
  split; [exact H|]. split.
  - exact (proj1 C5_scheduled_pi_validation _ _ _ H).
  - apply (proj1 (proj2 C5_scheduled_pi_validation)). repeat constructor.
Defined.


(** ** Counters *)

Lemma str_eqb_spec (a b : str) : reflect (a = b) (str_eqb a b).
Proof.
  revert b. induction a as [|x a IH]; intros [|y b]; simpl; try (constructor; congruence).
  destruct (Ascii.eqb_spec x y); simpl; [|constructor; congruence].
  destruct (IH b); constructor; congruence.
Qed.

Lemma str_eqb_sym (a b : str) : str_eqb a b = str_eqb b a.
Proof. destruct (str_eqb_spec a b), (str_eqb_spec b a); congruence. Qed.

Lemma Counter_snoc (l : list str) (x : str) :
  Counter (l ++ [x]) = counter_add x (Counter l).
Proof. unfold Counter. rewrite fold_left_app. reflexivity. Qed.

Lemma counter_add_count (x k : str) (c : list (str * nat)) :
  count_of k (counter_add x c) = count_of k c + (if str_eqb k x then 1 else 0).
Proof.
  induction c as [|[k' n] c IH]; simpl.
  - rewrite str_eqb_sym. reflexivity.
  - destruct (str_eqb_spec k' x) as [E|N]; simpl.
    + subst k'.
      destruct (str_eqb_spec x k) as [E|N]; destruct (str_eqb_spec k x) as [E'|N'];
        try congruence; lia.
    + rewrite IH. destruct (str_eqb_spec k' k) as [E|N2]; [|reflexivity].
      subst k'. destruct (str_eqb_spec k x); [congruence|lia].
Qed.

Lemma occurrences_snoc (k x : str) (l : list str) :
  occurrences k (l ++ [x]) = occurrences k l + (if str_eqb k x then 1 else 0).
Proof.
  unfold occurrences, count_if. rewrite filter_app, length_app. simpl.
  destruct (str_eqb k x); reflexivity.
Qed.

Lemma Counter_count (l : list str) (k : str) :
  count_of k (Counter l) = occurrences k l.
Proof.
  induction l as [|x l IH] using rev_ind; [reflexivity|].
  rewrite Counter_snoc, counter_add_count, occurrences_snoc, IH. reflexivity.
Qed.

Lemma counter_add_fst (x : str) (c : list (str * nat)) :
  map fst (counter_add x c)
  = if existsb (fun k => str_eqb k x) (map fst c) then map fst c else map fst c ++ [x].
Proof.
  induction c as [|[k n] c IH]; simpl; [reflexivity|].
  destruct (str_eqb k x); simpl; [reflexivity|].
  rewrite IH. destruct (existsb _ (map fst c)); reflexivity.
Qed.

Lemma first_index_app (k x : str) (l : list str) :
  In k l -> first_index k (l ++ [x]) = first_index k l.
Proof.
  induction l as [|y l IH]; simpl; [contradiction|].
  intros [->|I].
  - destruct (str_eqb_spec k k); [reflexivity|congruence].
  - destruct (str_eqb y k); [reflexivity|]. rewrite IH; auto.
Qed.

Lemma first_index_bound (k : str) (l : list str) :
  In k l -> first_index k l < length l.
Proof.
  induction l as [|y l IH]; simpl; [contradiction|].
  intros [->|I].
  - destruct (str_eqb_spec k k); [lia|congruence].
  - destruct (str_eqb y k); [lia|]. apply IH in I. lia.
Qed.

Lemma first_index_absent (k : str) (l : list str) :
  ~ In k l -> first_index k (l ++ [k]) = length l.
Proof.
  induction l as [|y l IH]; simpl; intros N.
  - destruct (str_eqb_spec k k); [reflexivity|congruence].
  - destruct (str_eqb_spec y k) as [->|_]; [tauto|]. rewrite IH; tauto.
Qed.

Lemma StronglySorted_ext_in {A} (R R' : A -> A -> Prop) (ks : list A) :
  (forall a b, In a ks -> In b ks -> R a b -> R' a b) ->
  StronglySorted R ks -> StronglySorted R' ks.
Proof.
  intros H S. induction S as [|a ks S IH F]; constructor.
  - apply IH. intros; apply H; simpl; auto.
  - rewrite Forall_forall in *. intros b I. apply H; simpl; auto.
Qed.

Lemma StronglySorted_snoc {A} (R : A -> A -> Prop) (ks : list A) (x : A) :
  StronglySorted R ks -> (forall k, In k ks -> R k x) ->
  StronglySorted R (ks ++ [x]).
Proof.
  intros S H. induction S as [|a ks S IH F]; simpl.
  - constructor; constructor.
  - constructor.
    + apply IH. intros; apply H; simpl; auto.
    + apply Forall_app. split; [exact F|]. constructor; [|constructor].
      apply H. simpl. auto.
Qed.

Lemma existsb_key (x : str) (ks : list str) :
  existsb (fun k => str_eqb k x) ks = true <-> In x ks.
Proof.
  rewrite existsb_exists. split.
  - intros (k & I & E). destruct (str_eqb_spec k x); [subst; auto|discriminate].
  - intros I. exists x. split; [auto|]. destruct (str_eqb_spec x x); congruence.
Qed.

(** The keys of a counter are the values counted, each once, in the
    order of their first occurrences. *)
Lemma Counter_keys_ordered (l : list str) :
  (forall k, In k (map fst (Counter l)) <-> In k l)
  /\ StronglySorted (first_before l) (map fst (Counter l)).
Proof.
  induction l as [|x l [K S]] using rev_ind.
  - split; [intros k; simpl; tauto|constructor].
  - rewrite Counter_snoc, counter_add_fst.
    assert (StronglySorted (first_before (l ++ [x])) (map fst (Counter l))) as S'.
    { eapply StronglySorted_ext_in; [|exact S].
      intros a b Ia Ib. unfold first_before.
      rewrite !first_index_app by (apply K; assumption). auto. }
    destruct (existsb (fun k => str_eqb k x) (map fst (Counter l))) eqn:E.
    + apply existsb_key in E. split; [|exact S'].
      intros k. rewrite in_app_iff, K. simpl. split; [auto|].
      intros [I|[<-|[]]]; [auto|]. apply K. exact E.
    + assert (~ In x l) as N.
      { intros I. apply K in I. apply existsb_key in I. congruence. }
      split.
      * intros k. rewrite !in_app_iff, K. tauto.
      * apply StronglySorted_snoc; [exact S'|].
        intros k I. apply K in I. unfold first_before.
        rewrite first_index_app by exact I. rewrite first_index_absent by exact N.
        apply first_index_bound. exact I.
Qed.

Lemma first_before_irrefl (l : list str) (a : str) : ~ first_before l a a.
Proof. unfold first_before. lia. Qed.

Lemma count_of_in (c : list (str * nat)) (l : list str) (k : str) (n : nat) :
  StronglySorted (first_before l) (map fst c) ->
  In (k, n) c -> count_of k c = n.
Proof.
  induction c as [|[k' n'] c IH]; simpl; [contradiction|].
  intros S I. inversion S as [|? ? S1 F]; subst.
  destruct I as [E|I].
  - inversion E; subst. destruct (str_eqb_spec k k); congruence.
  - destruct (str_eqb_spec k' k) as [->|_]; [|auto].
    exfalso. rewrite Forall_forall in F.
    apply (@first_before_irrefl l k). apply F.
    apply in_map_iff. exists (k, n). auto.
Qed.

(** The best entry is the first one that has the greatest count. *)
Lemma max_by_count_spec (c : list (str * nat)) :
  forall best,
  exists before after,
    best :: c = before ++ max_by_count best c :: after
    /\ (forall y, In y before -> snd y < snd (max_by_count best c))
    /\ (forall y, In y after -> snd y <= snd (max_by_count best c)).
Proof.
  induction c as [|x c IH]; intros best; simpl.
  - exists [], []. simpl. repeat split; intros y [].
  - destruct (Nat.ltb_spec (snd best) (snd x)) as [L|L].
    + destruct (IH x) as (before & after & E & B & A).
      exists (best :: before), after. simpl. rewrite E. split; [reflexivity|].
      split; [|exact A].
      intros y [<-|I]; [|auto].
      assert (In x (before ++ max_by_count x c :: after)) as Ix
          by (rewrite <- E; simpl; auto).
      apply in_app_or in Ix. destruct Ix as [Ix|[Ix|Ix]].
      * apply B in Ix. lia.
      * rewrite Ix. exact L.
      * apply A in Ix. lia.
    + destruct (IH best) as (before & after & E & B & A).
      remember (max_by_count best c) as top eqn:T. clear T.
      destruct before as [|b before]; simpl in E; injection E as E1 E2.
      * subst top c. exists [], (x :: after). simpl.
        split; [reflexivity|]. split; [intros y []|].
        intros y [<-|I]; [lia|]. apply A. exact I.
      * subst b c. exists (best :: x :: before), after. simpl.
        split; [reflexivity|]. split; [|exact A].
        assert (snd best < snd top) as Hb by (apply B; simpl; auto).
        intros y [<-|[<-|I]]; [exact Hb|lia|].
        apply B. simpl. auto.
Qed.

Lemma sorted_split (l : list str) (before after : list (str * nat)) (v w : str)
    (n m : nat) :
  StronglySorted (first_before l) (map fst (before ++ (v, n) :: after)) ->
  In (w, m) after -> first_before l v w.
Proof.
  induction before as [|b before IH]; simpl; intros S I.
  - inversion S as [|? ? S1 F]; subst. rewrite Forall_forall in F. apply F.
    apply in_map_iff. exists (w, m). auto.
  - inversion S; subst. auto.
Qed.

(** [most_common(1)] returns the most frequent value, and among the most
    frequent values the one that occurs first. *)
Lemma most_common_1_spec (l : list str) :
  match most_common_1 (Counter l) with
  | None => l = []
  | Some v =>
      In v l
      /\ (forall w, occurrences w l <= occurrences v l)
      /\ (forall w, In w l -> occurrences w l = occurrences v l ->
                    first_index v l <= first_index w l)
  end.
Proof.
  destruct (Counter_keys_ordered l) as [K S].
  unfold most_common_1. destruct (Counter l) as [|x c] eqn:E.
  - destruct l as [|a l]; [reflexivity|].
    exfalso. apply (proj2 (K a)). simpl. auto.
  - destruct (max_by_count_spec c x) as (before & after & Sp & B & A).
    destruct (max_by_count x c) as [v n] eqn:M. cbn [snd] in B, A. cbn [fst].
    assert (In (v, n) (x :: c)) as Iv by (rewrite Sp; apply in_elt).
    assert (forall k j, In (k, j) (x :: c) -> j = occurrences k l) as Cnt.
    { intros k j I. rewrite <- Counter_count, E. symmetry.
      eapply count_of_in; eauto. }
    assert (n = occurrences v l) as Hn by (apply Cnt; exact Iv).
    split; [|split].
    + apply K. change v with (fst (v, n)). apply in_map. exact Iv.
    + intros w. rewrite <- Hn.
      destruct (in_dec (list_eq_dec Ascii.ascii_dec) w l) as [Iw|Nw].
      * apply K in Iw. apply in_map_iff in Iw. destruct Iw as ([w' m] & Ew & Iw).
        simpl in Ew. subst w'. rewrite <- (Cnt _ _ Iw).
        rewrite Sp in Iw. apply in_app_or in Iw. destruct Iw as [Iw|[Iw|Iw]].
        -- apply B in Iw. simpl in Iw. lia.
        -- inversion Iw. lia.
        -- apply A in Iw. simpl in Iw. lia.
      * assert (occurrences w l = 0) as ->; [|lia].
        unfold occurrences, count_if.
        assert (filter (str_eqb w) l = []) as ->; [|reflexivity].
        clear -Nw. induction l as [|a l IH]; simpl; [reflexivity|].
        destruct (str_eqb_spec w a) as [->|_]; [exfalso; apply Nw; simpl; auto|].
        apply IH. intros I. apply Nw. simpl. auto.
    + intros w Iw Eq. rewrite <- Hn in Eq.
      apply K in Iw. apply in_map_iff in Iw. destruct Iw as ([w' m] & Ew & Iw).
      simpl in Ew. subst w'. pose proof (Cnt _ _ Iw) as Hm.
      assert (In (w, m) (before ++ (v, n) :: after)) as Iw' by (rewrite <- Sp; exact Iw).
      apply in_app_or in Iw'. destruct Iw' as [Iw'|[Iw'|Iw']].
      * apply B in Iw'. simpl in Iw'. lia.
      * inversion Iw'. lia.
      * rewrite Sp in S. pose proof (@sorted_split _ _ _ _ _ _ _ S Iw') as F.
        unfold first_before in F. lia.
Qed.

(** ** The secondary scan of the note rate *)

Lemma run_accept_start (ic : bool) (r : regex) (pos : nat) (s : str) (m : re_match) :
  run ic r pos s [] (accept pos) = Some m -> m_start m = pos.
Proof.
  intros H. destruct (run_sound _ _ _ _ _ _ H) as (p' & s' & g' & _ & K).
  unfold accept in K. inversion K. reflexivity.
Qed.

Lemma search_from_unfold (ic : bool) (r : regex) (pos : nat) (s : str) :
  search_from ic r pos s
  = match run ic r pos s [] (accept pos) with
    | Some m => Some m
    | None => match s with
              | [] => None
              | _ :: s' => search_from ic r (S pos) s'
              end
    end.
Proof. destruct s; reflexivity. Qed.

(** [re.search] finds a match at or before every offset at which the
    pattern matches. *)
Lemma search_from_leftmost (ic : bool) (r : regex) (pre s : str) :
  forall pos res,
    run ic r (pos + length pre) s [] (accept (pos + length pre)) = Some res ->
    exists m, search_from ic r pos (pre ++ s) = Some m
              /\ (m_start m < pos + length pre \/ m = res).
Proof.
  induction pre as [|x pre IH]; intros pos res H; simpl in *.
  - rewrite Nat.add_0_r in H. rewrite search_from_unfold, H. eauto.
  - destruct (run ic r pos (x :: pre ++ s) [] (accept pos)) as [m0|] eqn:E.
    + exists m0. split; [reflexivity|]. left.
      apply run_accept_start in E. lia.
    + replace (pos + S (length pre)) with (S pos + length pre) in H by lia.
      destruct (IH _ _ H) as (m & Sm & C). exists m. split; [exact Sm|].
      destruct C; [left; lia|right; assumption].
Qed.

Lemma run_literal_phrase (pos : nat) (post : str) :
  run true rates_table_pattern pos (py "Interest Rates" ++ post) [] (accept pos)
  = Some {| m_start := pos; m_end := pos + 14; m_groups := [] |}.
Proof.
  cbn. unfold accept. do 2 f_equal. lia.
Qed.

Lemma slice_after (pre mid post : str) (n : nat) :
  slice (pre ++ mid ++ post) (length pre + length mid) (length pre + length mid + n)
  = firstn n post.
Proof.
  unfold slice. rewrite app_assoc, <- length_app, skipn_app, skipn_all, Nat.sub_diag.
  simpl. f_equal. lia.
Qed.

(** What [re.findall] returns was matched by the pattern. *)
Lemma findall_from_sound (ic : bool) (r : regex) (fuel : nat) :
  forall pos s tok,
    In tok (findall_from fuel ic r pos s) ->
    exists p0 s' p1 g, matches ic r p0 (tok ++ s') [] p1 s' g.
Proof.
  induction fuel as [|fuel IH]; intros pos s tok I; simpl in I; [contradiction|].
  destruct (search_from ic r pos s) as [m|] eqn:S; [|contradiction].
  assert (exists p0 s' p1 g,
             matches ic r p0 (slice s (m_start m - pos) (m_end m - pos) ++ s') [] p1 s' g)
    as Head.
  { destruct (search_from_sound _ _ _ _ S) as (sk & rest & s' & -> & St & M).
    destruct (matches_consumed _ _ _ _ _ _ _ _ M) as (w & -> & En & _).
    assert (slice (sk ++ w ++ s') (m_start m - pos) (m_end m - pos) = w) as ->.
    { unfold slice. replace (m_start m - pos) with (length sk) by lia.
      replace (m_end m - pos - length sk) with (length w) by lia.
      rewrite skipn_app, skipn_all, Nat.sub_diag. simpl. apply firstn_len_app. }
    exists (m_start m), s', (m_end m), (m_groups m). exact M. }
  destruct (Nat.eqb (m_end m) (m_start m));
    (destruct I as [<-|I]; [exact Head|exact (IH _ _ _ I)]).
Qed.

(** A percent token ends with the percent sign. *)
Lemma percent_token_end (window tok : str) :
  In tok (re_findall false percent_token_pattern window) ->
  exists body, tok = body ++ py "%".
Proof.
  intros I. apply findall_from_sound in I. destruct I as (p0 & s' & p1 & g & M).
  cbn in M. break_hyps. subst.
  match goal with
  | H : tok ++ s' = ?w1 ++ ?x :: ?w2 ++ ?y :: s' |- _ =>
      replace (w1 ++ x :: w2 ++ y :: s') with ((w1 ++ x :: w2 ++ [y]) ++ s') in H
        by (rewrite <- !app_assoc; simpl; rewrite <- !app_assoc; reflexivity);
      apply app_inv_tail in H; subst tok;
      exists (w1 ++ x :: w2)
  end.
  match goal with
  | H : Ascii.eqb ?y "%" = true |- _ => apply Ascii.eqb_eq in H; subst y
  end.
  rewrite <- !app_assoc. reflexivity.
Qed.

Lemma drop_final_newline_percent (body : str) :
  drop_final_newline (body ++ py "%") = body ++ py "%".
Proof.
  unfold drop_final_newline. rewrite rev_app_distr. reflexivity.
Qed.

(** On the candidates of the scan, the normaliser is the glyph
    correction. *)
Lemma normalize_candidate (window tok : str) :
  In tok (re_findall false percent_token_pattern window) ->
  normalize_rate_token tok = glyph_corrected tok.
Proof.
  intros I. unfold glyph_corrected.
  destruct (has_glyph_shape tok) eqn:H; [apply normalize_glyph_shape; exact H|].
  apply normalize_off_shape; [exact H|].
  destruct (percent_token_end _ _ I) as (body & ->).
  rewrite drop_final_newline_percent. exact H.
Qed.

(** C7: when the primary pattern matches nowhere and the phrase
    "Interest Rates" occurs in the text, the phrase is found, in any
    letter case, at its first occurrence, which is the written occurrence
    or an earlier one; the scan reads the 500 characters that follow it.
    Its candidates are the percent tokens of that window, each with its
    glyph corrected: a candidate of the misread shape has its section
    sign or capital S replaced by the digit 5, and every other candidate
    is taken as it is.  The valid values are those above 0 and at most
    25; the result is the most frequent valid value at confidence 0.70,
    and among equally frequent values the one that occurs first.  So
    "Interest Rates: S.5600%" gives 5.5600 at 0.70, a value that only the
    correction makes valid, and in "Interest Rates: 3.25% S.5600% §.5600%"
    the two misread tokens count as one value, which wins. *)
Theorem C7_secondary_note_rate_scan :
  (forall text prov pre post,
      re_search true note_rate_primary_pattern text = None ->
      text = pre ++ py "Interest Rates" ++ post ->
      exists m,
        re_search true rates_table_pattern text = Some m
        /\ m_start m <= length pre
        /\ (m_start m = length pre ->
            slice text (m_end m) (m_end m + 500) = firstn 500 post)
        /\ secondary_scan_result (slice text (m_end m) (m_end m + 500)) prov
             (extract_note_rate text prov))
  /\ (forall prov,
         extract_note_rate (py "Interest Rates: S.5600%") prov
         = Some {| value := Some (py "5.5600"); confidence := conf_070;
                   provenance := prov |})
  /\ (forall prov,
         extract_note_rate (py "Interest Rates: 3.25% S.5600% " ++ sect :: py ".5600%") prov
         = Some {| value := Some (py "5.5600"); confidence := conf_070;
                   provenance := prov |}).
Proof.
  split; [|split; intros prov; vm_compute; reflexivity].
  intros text prov pre post P ->.
  destruct (@search_from_leftmost true rates_table_pattern pre
              (py "Interest Rates" ++ post) 0 _ (run_literal_phrase (0 + length pre) post))
    as (m & S & C).
  fold (re_search true rates_table_pattern (pre ++ py "Interest Rates" ++ post)) in S.
  exists m. split; [exact S|]. split; [simpl in C; destruct C as [C| ->]; simpl; lia|].
  split.
  - intros St. destruct C as [C| ->]; [simpl in C; lia|]. simpl m_end.
    apply (slice_after pre (py "Interest Rates") post 500).
  - unfold secondary_scan_result. cbv zeta. split.
    + intros v. rewrite valid_rates_of_in. unfold rate_in_range.
      split; intros (token & rate & I & E & F & R).
      * apply in_map_iff in I. destruct I as (tok & <- & I).
        apply andb_true_iff in R. exists tok, rate. tauto.
      * destruct R as [R1 R2]. exists (glyph_corrected token), rate.
        rewrite R1, R2. auto using in_map.
    + unfold extract_note_rate. rewrite first_some_one.
      unfold primary_note_rate. rewrite P.
      unfold secondary_note_rate. rewrite S. cbv zeta.
      rewrite (map_ext_in normalize_rate_token glyph_corrected)
        by (intros tok I; exact (normalize_candidate _ _ I)).
      match goal with
      | |- match ?valid with _ => _ end =>
          pose proof (most_common_1_spec valid) as M;
          destruct (most_common_1 (Counter valid)) as [v|];
          [destruct valid as [|a valid'] eqn:V;
           [destruct M as [[] _]|exists v; split; [reflexivity|exact M]]
          |rewrite M; reflexivity]
      end.
Qed.

Lemma C7_secondary_note_rate_scan_witness :
  extract_note_rate (py "Interest Rates: 3.25% 4.50% S.5600% S.5600% 4.50% S.5600%")
    pdf_text
  = Some {| value := Some (py "5.5600"); confidence := conf_070; provenance := pdf_text |}
  /\ exists m,
       re_search true rates_table_pattern
         (py "Interest Rates: 3.25% 4.50% S.5600% S.5600% 4.50% S.5600%")
       = Some m
       /\ m_start m <= length (@nil ascii)
       /\ (m_start m = length (@nil ascii) ->
           slice (py "Interest Rates: 3.25% 4.50% S.5600% S.5600% 4.50% S.5600%")
             (m_end m) (m_end m + 500)
           = firstn 500 (py ": 3.25% 4.50% S.5600% S.5600% 4.50% S.5600%"))
       /\ secondary_scan_result
            (slice (py "Interest Rates: 3.25% 4.50% S.5600% S.5600% 4.50% S.5600%")
               (m_end m) (m_end m + 500))
            pdf_text
            (extract_note_rate
               (py "Interest Rates: 3.25% 4.50% S.5600% S.5600% 4.50% S.5600%") pdf_text).
Proof.
  split; [vm_compute; reflexivity|].
  apply (proj1 C7_secondary_note_rate_scan
           (py "Interest Rates: 3.25% 4.50% S.5600% S.5600% 4.50% S.5600%") pdf_text []
           (py ": 3.25% 4.50% S.5600% S.5600% 4.50% S.5600%")).
  - vm_compute. reflexivity.
  - reflexivity.
Defined.

(* ================================================================== *)
(** * Further properties of the code *)
(* ================================================================== *)

(** ** The rate normaliser, again *)

(** A token that does not begin with the section sign or a capital S is
    left as it is. *)
Lemma normalize_no_glyph (c : ascii) (s : str) :
  is_glyph c = false -> normalize_rate_token (c :: s) = c :: s.
Proof.
  intros G. apply normalize_off_shape.
  - destruct (has_glyph_shape (c :: s)) eqn:H; [|reflexivity].
    apply glyph_shape_head in H. destruct H as (g & rest & E & Hg).
    inversion E; subst. congruence.
  - destruct (drop_final_newline_head c s) as [-> | (s' & ->)]; [reflexivity|].
    destruct (has_glyph_shape (c :: s')) eqn:H; [|reflexivity].
    apply glyph_shape_head in H. destruct H as (g & rest & E & Hg).
    inversion E; subst. congruence.
Qed.

Lemma normalize_result (s : str) :
  normalize_rate_token s = s \/ exists rest, normalize_rate_token s = "5"%char :: rest.
Proof.
  unfold normalize_rate_token.
  destruct (re_match_at false glyph_point_pattern s) as [m|].
  - destruct (group m 1); [right; simpl; eauto|auto].
  - destruct (re_match_at false glyph_digit_pattern s) as [m|]; [|auto].
    destruct (group m 1); [|auto]. destruct (group m 2); [right; simpl; eauto|auto].
Qed.

(** X1: normalising a rate token twice gives what normalising it once
    gives: a rewritten token begins with the digit 5, and a token that
    begins with anything but the section sign or a capital S, the empty
    token included, is returned as it is. *)
Theorem X1_normalize_idempotent :
  (forall s, normalize_rate_token (normalize_rate_token s) = normalize_rate_token s)
  /\ (forall c s, is_glyph c = false -> normalize_rate_token (c :: s) = c :: s)
  /\ normalize_rate_token [] = [].
Proof.
  split; [|split; [apply normalize_no_glyph|reflexivity]].
  intros s. destruct (normalize_result s) as [E|(rest & E)]; rewrite E.
  - exact E.
  - apply normalize_no_glyph. reflexivity.
Qed.

Lemma X1_normalize_idempotent_witness :
  is_glyph "s" = false
  /\ normalize_rate_token (py "s.5600%") = py "s.5600%".
Proof.
  split; [reflexivity|].
  apply (proj1 (proj2 X1_normalize_idempotent) "s"%char (py ".5600%")).
  reflexivity.
Defined.

(** ** The amounts and the rate *)

(** X2: a note rate that is emitted, by the labelled pattern or by the
    scan of the rates table, has a value that converts to a float above 0
    and at most 25, the confidence 0.90 or 0.70 and the provenance it was
    given; a labelled rate of 30% alone gives no field, and a labelled
    4.125% gives the value 4.125 at 0.90. *)
Theorem X2_note_rate_bounds :
  (forall text prov fe,
      extract_note_rate text prov = Some fe ->
      exists v rate,
        value fe = Some v /\ py_float v = Some rate
        /\ fgt rate 0 = true /\ fle rate 25 = true
        /\ (confidence fe = conf_090 \/ confidence fe = conf_070)
        /\ provenance fe = prov)
  /\ (forall prov, extract_note_rate (py "Interest Rate: 30%") prov = None)
  /\ (forall prov,
         extract_note_rate (py "Interest Rate: 4.125%") prov
         = Some {| value := Some (py "4.125"); confidence := conf_090;
                   provenance := prov |}).
Proof.
  split; [|split; intros prov; vm_compute; reflexivity].
  intros text prov fe H. unfold extract_note_rate in H. rewrite first_some_one in H.
  destruct (primary_note_rate text prov note_rate_primary_pattern) as [fe'|] eqn:P.
  - inversion H; subst fe'. apply primary_note_rate_some in P.
    destruct P as (v & rate & F & R & ->). unfold rate_in_range in R.
    apply andb_true_iff in R. destruct R. exists v, rate. simpl. auto 10.
  - apply secondary_note_rate_some in H.
    destruct H as (v & rate & F & R & ->). unfold rate_in_range in R.
    apply andb_true_iff in R. destruct R. exists v, rate. simpl. auto 10.
Qed.

Lemma X2_note_rate_bounds_witness :
  extract_note_rate (py "Note Rate (fixed): S.7500") ocr_text
  = Some {| value := Some (py "5.7500"); confidence := conf_090; provenance := ocr_text |}
  /\ exists v rate,
       value {| value := Some (py "5.7500"); confidence := conf_090;
                provenance := ocr_text |} = Some v
       /\ py_float v = Some rate
       /\ fgt rate 0 = true /\ fle rate 25 = true
       /\ (confidence {| value := Some (py "5.7500"); confidence := conf_090;
                         provenance := ocr_text |} = conf_090
           \/ confidence {| value := Some (py "5.7500"); confidence := conf_090;
                            provenance := ocr_text |} = conf_070)
       /\ provenance {| value := Some (py "5.7500"); confidence := conf_090;
                        provenance := ocr_text |} = ocr_text.
Proof.
  assert (extract_note_rate (py "Note Rate (fixed): S.7500") ocr_text
          = Some {| value := Some (py "5.7500"); confidence := conf_090;
                    provenance := ocr_text |}) as H by (vm_compute; reflexivity).
  split; [exact H|].
  exact (proj1 X2_note_rate_bounds _ _ _ H).
Defined.

(** What [re.search] leaves in a group was matched by the body of the
    group. *)
Lemma re_search_group_matches ic (r : regex) (text : str) (m : re_match) (n : nat)
    (tok : str) :
  re_search ic r text = Some m ->
  group m n = Some tok ->
  exists body p0 s1 g0 p1 g1,
    In body (group_bodies n r) /\ matches ic body p0 (tok ++ s1) g0 p1 s1 g1.
Proof.
  intros S G. unfold re_search in S.
  destruct (search_from_sound _ _ _ _ S) as (sk & rest & s' & _ & _ & M).
  destruct (matches_group ic n _ _ _ _ _ _ _ M)
    as [E|(body & w & p0 & t1 & g0 & q1 & h1 & I & Gw & Mb)].
  - unfold group in G. rewrite E in G. discriminate.
  - unfold group in G. rewrite Gw in G. inversion G; subst w.
    exists body, p0, t1, g0, q1, h1. auto.
Qed.

Lemma filter_keep {A} (p : A -> bool) (l : list A) :
  Forall (fun x => p x = true) l -> filter p l = l.
Proof.
  induction 1 as [|x l H F IH]; simpl; [reflexivity|]. rewrite H, IH. reflexivity.
Qed.

Lemma digit_or_comma (x : ascii) :
  test true (CSet [ADigit; AChar ","]) x = true ->
  isdecimal x = true \/ x = ","%char.
Proof.
  simpl. rewrite orb_false_r. intros H. apply orb_true_iff in H.
  destruct H as [H|H]; [auto|]. right. revert H. by_cases_on x.
Qed.

Lemma point_only (x : ascii) : test true (ch ".") x = true -> x = "."%char.
Proof. by_cases_on x. Qed.

Lemma digit_not_comma (x : ascii) :
  isdecimal x = true -> negb (Ascii.eqb "," x) = true.
Proof. by_cases_on x. Qed.

(** The token of [[\d,]+\.?\d*] without its commas. *)
Lemma amount_token_decimal (p0 : nat) (tok s1 : str) (g0 : groups) (p1 : nat)
    (g1 : groups) :
  matches true amount_token p0 (tok ++ s1) g0 p1 s1 g1 ->
  exists ip fp,
    Forall (fun c => isdecimal c = true) ip
    /\ Forall (fun c => isdecimal c = true) fp
    /\ (replace (py ",") [] tok = ip ++ fp \/ replace (py ",") [] tok = ip ++ py "." ++ fp).
Proof.
  intros M. cbn in M. break_hyps. subst.
  match goal with
  | H : tok ++ s1 = ?w1 ++ ?w2 ++ ?w3 ++ s1 |- _ =>
      rewrite !app_assoc in H; apply app_inv_tail in H; rename H into E;
      rename w1 into a; rename w2 into b; rename w3 into c
  end.
  subst tok. change (py ",") with [","%char]. rewrite replace_char.
  rewrite !filter_app.
  assert (Forall (fun x => isdecimal x = true) (filter (fun x => negb (Ascii.eqb "," x)) a))
    as Fa.
  { apply Forall_forall. intros x I. apply filter_In in I. destruct I as [I N].
    match goal with H : Forall _ a |- _ => rewrite Forall_forall in H; specialize (H x I);
      apply digit_or_comma in H; destruct H as [H| ->]; [exact H|discriminate] end. }
  assert (filter (fun x => negb (Ascii.eqb "," x)) c = c) as ->.
  { apply filter_keep. eapply Forall_impl; [|eassumption]. apply digit_not_comma. }
  exists (filter (fun x => negb (Ascii.eqb "," x)) a), c.
  split; [exact Fa|]. split; [assumption|].
  destruct b as [|x [|y b]].
  - left. simpl. rewrite app_nil_r. reflexivity.
  - right.
    match goal with
    | H : Forall _ [x] |- _ =>
        apply Forall_inv in H; apply point_only in H; subst x
    end.
    simpl. rewrite <- app_assoc. reflexivity.
  - simpl in *. lia.
Qed.

Lemma plain_amount_decimal (conf : Q) (text : str) (prov : Provenance)
    (pattern : regex) (fe : FieldExtraction) :
  group_bodies 1 pattern = [amount_token] ->
  plain_amount_field conf text prov pattern = Some fe ->
  exists m captured v,
    re_search true pattern text = Some m /\ group m 1 = Some captured
    /\ value fe = Some v /\ v = replace (py ",") [] captured
    /\ unsigned_decimal v
    /\ confidence fe = conf /\ provenance fe = prov.
Proof.
  intros B H. apply plain_amount_field_some in H.
  destruct H as (m & g1 & x & S & G & F & ->).
  destruct (re_search_group_matches _ _ _ _ S G) as (body & p0 & s1 & g0 & p1 & h1 & I & M).
  rewrite B in I. destruct I as [<-|[]].
  apply amount_token_decimal in M. destruct M as (ip & fp & Fi & Ff & E).
  exists m, g1, (replace (py ",") [] g1). simpl.
  split; [exact S|]. split; [exact G|]. repeat split; auto.
  exists ip, fp. repeat split; auto.
  intros N. apply app_eq_nil in N. destruct N; subst ip fp.
  destruct E as [E|E]; rewrite E in F; vm_compute in F; discriminate.
Qed.

(** X3: a principal balance or an escrow amount that is emitted comes
    from the leftmost match of the label pattern: its value is the token
    that group 1 of that match captured, without its commas and otherwise
    as it was written, and it is an unsigned decimal numeral, digits with
    at most one point and at least one digit; the confidence is 0.9 for
    the balance and 0.85 for the escrow, and the provenance is the one
    given. *)
Theorem X3_plain_amounts_are_decimal :
  forall text prov fe,
    (extract_principal_balance text prov = Some fe ->
     exists m captured v,
       re_search true principal_balance_pattern text = Some m
       /\ group m 1 = Some captured
       /\ value fe = Some v /\ v = replace (py ",") [] captured
       /\ unsigned_decimal v
       /\ confidence fe = conf_090 /\ provenance fe = prov)
    /\ (extract_escrow text prov = Some fe ->
        exists m captured v,
          re_search true escrow_pattern text = Some m
          /\ group m 1 = Some captured
          /\ value fe = Some v /\ v = replace (py ",") [] captured
          /\ unsigned_decimal v
          /\ confidence fe = conf_085 /\ provenance fe = prov).
Proof.
  intros text prov fe. split; intros H.
  - unfold extract_principal_balance in H. rewrite first_some_one in H.
    apply plain_amount_decimal in H; [exact H|reflexivity].
  - unfold extract_escrow in H. rewrite first_some_one in H.
    apply plain_amount_decimal in H; [exact H|reflexivity].
Qed.

Lemma X3_plain_amounts_are_decimal_witness :
  extract_principal_balance (py "Unpaid Principal Balance: $ 312,450.7") pdf_text
  = Some {| value := Some (py "312450.7"); confidence := conf_090; provenance := pdf_text |}
  /\ re_search true principal_balance_pattern (py "Unpaid Principal Balance: $ 312,450.7")
     = Some {| m_start := 0; m_end := 37; m_groups := [(1, py "312,450.7")] |}
  /\ exists m captured v,
       re_search true principal_balance_pattern
         (py "Unpaid Principal Balance: $ 312,450.7") = Some m
       /\ group m 1 = Some captured
       /\ value {| value := Some (py "312450.7"); confidence := conf_090;
                   provenance := pdf_text |} = Some v
       /\ v = replace (py ",") [] captured
       /\ unsigned_decimal v
       /\ confidence {| value := Some (py "312450.7"); confidence := conf_090;
                        provenance := pdf_text |} = conf_090
       /\ provenance {| value := Some (py "312450.7"); confidence := conf_090;
                        provenance := pdf_text |} = pdf_text.
Proof.
  assert (extract_principal_balance (py "Unpaid Principal Balance: $ 312,450.7") pdf_text
          = Some {| value := Some (py "312450.7"); confidence := conf_090;
                    provenance := pdf_text |}) as H by (vm_compute; reflexivity).
  split; [exact H|]. split; [vm_compute; reflexivity|].
  exact (proj1 (X3_plain_amounts_are_decimal _ _ _) H).
Defined.

(** ** The result of the pipeline *)

Lemma parser_provenance (date_parse : str -> parse_answer)
    (parser : str -> Provenance -> outcome (option FieldExtraction))
    (text : str) (prov : Provenance) (fe : FieldExtraction) :
  In parser (field_parsers date_parse) ->
  parser text prov = Returned (Some fe) ->
  provenance fe = prov.
Proof.
  intros I H. simpl in I.
  destruct I as [<-|[<-|[<-|[<-|[<-|[<-|[]]]]]]];
    try (unfold returning in H; injection H as H).
  - unfold extract_principal_balance in H. rewrite first_some_one in H.
    apply plain_amount_field_some in H. destruct H as (m & g1 & x & _ & _ & _ & ->).
    reflexivity.
  - unfold extract_note_rate in H. rewrite first_some_one in H.
    destruct (primary_note_rate text prov note_rate_primary_pattern) as [fe'|] eqn:P.
    + inversion H; subst fe'. apply primary_note_rate_some in P.
      destruct P as (v & rate & _ & _ & ->). reflexivity.
    + apply secondary_note_rate_some in H.
      destruct H as (v & rate & _ & _ & ->). reflexivity.
  - apply extract_scheduled_pi_some in H.
    destruct H as (pattern & conf & m & captured & _ & _ & _ & T).
    apply scheduled_pi_of_token_some in T.
    destruct T as (amount & _ & _ & _ & _ & ->). reflexivity.
  - unfold extract_escrow in H. rewrite first_some_one in H.
    apply plain_amount_field_some in H. destruct H as (m & g1 & x & _ & _ & _ & ->).
    reflexivity.
  - unfold extract_next_due_date in H. rewrite first_answer_one in H.
    apply date_field_some in H.
    destruct H as (m & date_str & _ & _ & [(d & _ & ->)|(_ & ->)]); reflexivity.
  - unfold extract_maturity_date in H. rewrite first_answer_one in H.
    apply date_field_some in H.
    destruct H as (m & date_str & _ & _ & [(d & _ & ->)|(_ & ->)]); reflexivity.
Qed.

Lemma str_eqb_eq (a b : str) : str_eqb a b = true -> a = b.
Proof.
  revert b. induction a as [|x a IH]; intros [|y b]; simpl; try discriminate; auto.
  intros H. apply andb_true_iff in H. destruct H as [A B].
  apply Ascii.eqb_eq in A. subst. f_equal. auto.
Qed.

(** The provenance that the acquisition gives to the text. *)
Lemma acquire_text_provenance Image (host : Host Image) (file_path file_type : str)
    (t t' : trace) (text : str) (prov : Provenance) :
  acquire_text host file_path file_type t = (Returned (text, prov), t') ->
  (prov = pdf_text \/ prov = ocr_text)
  /\ (str_eqb file_type (py "pdf") = false -> prov = ocr_text).
Proof.
  intros H. destruct (str_eqb file_type (py "pdf")) eqn:E.
  - apply str_eqb_eq in E. subst file_type.
    rewrite acquire_text_pdf_eq in H. cbv zeta in H.
    split; [|discriminate].
    destruct (is_sparse _); [|inversion H; auto].
    destruct (ocrmypdf_ocr host _ _ _); inversion H; auto.
  - unfold acquire_text in H. rewrite E in H.
    destruct (extract_text_from_image_returns host file_path t) as (x & u & R).
    rewrite R in H. inversion H. auto.
Qed.

(** X4: in a result of the pipeline the six fields and the text
    statistics carry one and the same provenance, the one of the acquired
    text; it is [pdf_text] or [ocr_text], never [llm_fallback], and it is
    [ocr_text] for every file type other than pdf. *)
Theorem X4_single_provenance :
  forall Image (host : Host Image) date_parse file_path file_type t t' r,
    process_extraction host date_parse file_path file_type t = (Returned r, t') ->
    let prov := source (text_stats (debug r)) in
    (prov = pdf_text \/ prov = ocr_text)
    /\ (str_eqb file_type (py "pdf") = false -> prov = ocr_text)
    /\ (forall name fe, In (name, Some fe) (fields r) -> provenance fe = prov).
Proof.
  intros Image host date_parse file_path file_type t t' r H. cbv zeta.
  apply process_extraction_eq in H. destruct H as (text & prov & A & R).
  destruct (assemble_returned _ _ _ _ _ _ R) as (_ & _ & _ & _ & Dg).
  rewrite Dg. cbn [text_stats source].
  apply acquire_text_provenance in A. destruct A as [A1 A2].
  split; [exact A1|]. split; [exact A2|].
  intros name fe I.
  destruct (field_of_result _ _ _ _ _ _ _ _ R I) as (parser & answer & Ip & An & ->).
  destruct answer as [fe|]; [|reflexivity].
  destruct An as [An|An]; [discriminate|].
  exact (@parser_provenance date_parse parser text prov fe Ip An).
Qed.

Lemma X4_single_provenance_witness :
  exists r t',
    process_extraction ocr_success_host sample_date_parse (py "stmt.pdf") (py "pdf") []
    = (Returned r, t')
    /\ source (text_stats (debug r)) = ocr_text
    /\ (forall name fe, In (name, Some fe) (fields r) -> provenance fe = ocr_text).
Proof.
  destruct (process_extraction ocr_success_host sample_date_parse (py "stmt.pdf")
              (py "pdf") []) as [[e|r] t'] eqn:E; [vm_compute in E; discriminate|].
  exists r, t'. split; [reflexivity|].
  assert (source (text_stats (debug r)) = ocr_text) as S.
  { vm_compute in E. inversion E. reflexivity. }
  split; [exact S|]. rewrite <- S.
  exact (proj2 (proj2 (X4_single_provenance ocr_success_host sample_date_parse
                         (py "stmt.pdf") (py "pdf") [] E))).
Defined.

(** X5: the error list of a result never holds the message of an
    exception: it is empty when the acquired text has a character that
    is not white space, and it is the one message "No text extracted from
    document" otherwise.  The document type is the file type given, the
    pages used are page 1 and the timings are empty, whatever the calls
    answered; the statistics count the characters and the lines of the
    acquired text. *)
Theorem X5_debug_info :
  forall Image (host : Host Image) date_parse file_path file_type t t' r,
    process_extraction host date_parse file_path file_type t = (Returned r, t') ->
    exists text,
      fst (acquire_text host file_path file_type t)
      = Returned (text, source (text_stats (debug r)))
      /\ errors (debug r)
         = (if truthy (strip text) then []
            else [py "No text extracted from document"])
      /\ chars (text_stats (debug r)) = length text
      /\ lines (text_stats (debug r)) = splitlines_len text
      /\ doc_type (debug r) = file_type
      /\ pages_used (debug r) = [1]
      /\ timings_ms (debug r) = [].
Proof.
  intros Image host date_parse file_path file_type t t' r H.
  apply process_extraction_eq in H. destruct H as (text & prov & A & R).
  destruct (assemble_returned _ _ _ _ _ _ R) as (_ & _ & _ & _ & Dg).
  exists text. rewrite Dg, A.
  cbn [text_stats source chars lines errors doc_type pages_used timings_ms fst].
  repeat split; auto.
Qed.

Lemma X5_debug_info_witness :
  exists r t',
    process_extraction failing_host no_dates (py "stmt.pdf") (py "pdf") [] = (Returned r, t')
    /\ errors (debug r) = [py "No text extracted from document"]
    /\ chars (text_stats (debug r)) = 0.
Proof.
  destruct (process_extraction failing_host no_dates (py "stmt.pdf") (py "pdf") [])
    as [[e|r] t'] eqn:E; [vm_compute in E; discriminate|].
  exists r, t'. split; [reflexivity|].
  destruct (X5_debug_info failing_host no_dates (py "stmt.pdf") (py "pdf") [] E)
    as (text & A & Er & Ch & _).
  assert (text = []) as ->.
  { vm_compute in A. inversion A. reflexivity. }
  split; [exact Er|exact Ch].
Defined.

(** ** The text of a PDF *)

(** X6: [extract_text_from_pdf] makes one call, never raises, and tags
    its text [pdf_text]; the text is the first page when the page has a
    character that is not white space, and the empty string otherwise, so
    it is never a non-empty run of white space. *)
Theorem X6_pdf_text_empty_or_visible :
  forall Image (host : Host Image) pdf_path t,
    exists text,
      extract_text_from_pdf host pdf_path t
      = (Returned (text, pdf_text), t ++ [EvPdfRead pdf_path])
      /\ (text = [] \/ truthy (strip text) = true)
      /\ (forall page, pdf_first_page host t pdf_path = Returned page ->
                       text = if truthy (strip page) then page else []).
Proof.
  intros Image host pdf_path t. exists (text_of_pdf host pdf_path t).
  split; [apply extract_text_from_pdf_eq|]. unfold text_of_pdf.
  destruct (pdf_first_page host t pdf_path) as [e|page].
  - split; [auto|discriminate].
  - split.
    + destruct (truthy (strip page)) eqn:E; auto.
    + intros p H. inversion H. reflexivity.
Qed.

Lemma X6_pdf_text_empty_or_visible_witness :
  pdf_first_page ocr_success_host [] (py "stmt.pdf") = Returned (py "  ")
  /\ extract_text_from_pdf ocr_success_host (py "stmt.pdf") []
     = (Returned ([], pdf_text), [EvPdfRead (py "stmt.pdf")]).
Proof.
  split; [reflexivity|].
  destruct (X6_pdf_text_empty_or_visible ocr_success_host (py "stmt.pdf") [])
    as (text & E & _ & P).
  rewrite E, (P (py "  ") eq_refl). reflexivity.
Defined.

(** ** The calls of the image branch *)

(** X7: for a file type other than pdf the acquisition calls nothing but
    the image loader, the recogniser and the enhancer, in this order:
    load, base recognition, enhancement, enhanced recognition.  It stops
    at the first of the four calls that raises, with the empty text, the
    calls made being those up to and including the one that raised; when
    none raises, all four are made and the text is the one selected by
    the scores.  The provenance is [ocr_text] in every case. *)
Theorem X7_image_calls_in_order :
  forall Image (host : Host Image) file_path file_type t,
    str_eqb file_type (py "pdf") = false ->
    let t1 := t ++ [EvImageLoad file_path] in
    let t2 := t1 ++ [EvTesseract base_config] in
    let t3 := t2 ++ [EvEnhance] in
    let t4 := t3 ++ [EvTesseract enhanced_config] in
    let stops_after (n : nat) :=
      acquire_text host file_path file_type t
      = (Returned ([], ocr_text), t ++ firstn n (image_calls file_path)) in
    match image_load host t file_path with
    | Raised _ => stops_after 1
    | Returned image =>
        match image_to_string host t1 image base_config with
        | Raised _ => stops_after 2
        | Returned text_base =>
            match image_enhance host t2 image with
            | Raised _ => stops_after 3
            | Returned image_enhanced =>
                match image_to_string host t3 image_enhanced enhanced_config with
                | Raised _ => stops_after 4
                | Returned text_enhanced =>
                    acquire_text host file_path file_type t
                    = (Returned (if score_text text_base <? score_text text_enhanced
                                 then text_enhanced else text_base, ocr_text),
                       t ++ image_calls file_path)
                end
            end
        end
    end
    /\ Forall (fun e => is_image_event e = true) (image_calls file_path).
Proof.
  intros Image host file_path file_type t E. cbv zeta.
  split; [|repeat constructor].
  unfold acquire_text. rewrite E.
  unfold extract_text_from_image, try_except, bind, call, ret, image_calls.
  destruct (image_load host t file_path) as [e|image]; [reflexivity|].
  destruct (image_to_string host _ image base_config) as [e|text_base].
  { rewrite <- !app_assoc. reflexivity. }
  destruct (image_enhance host _ image) as [e|image_enhanced].
  { rewrite <- !app_assoc. reflexivity. }
  destruct (image_to_string host _ image_enhanced enhanced_config) as [e|text_enhanced].
  { rewrite <- !app_assoc. reflexivity. }
  cbv zeta. rewrite <- !app_assoc.
  destruct (score_text text_base <? score_text text_enhanced); reflexivity.
Qed.

Lemma X7_image_calls_in_order_witness :
  str_eqb (py "image") (py "pdf") = false
  /\ acquire_text failing_host (py "scan.png") (py "image") []
     = (Returned ([], ocr_text), [EvImageLoad (py "scan.png")])
  /\ acquire_text (two_pass_host (py "Escrow 55") (py "Rate 3.25")) (py "scan.png")
       (py "image") []
     = (Returned (py "Rate 3.25", ocr_text), image_calls (py "scan.png")).
Proof.
  split; [reflexivity|]. split.
  - exact (proj1 (X7_image_calls_in_order failing_host (py "scan.png") (py "image") []
                    eq_refl)).
  - exact (proj1 (X7_image_calls_in_order (two_pass_host (py "Escrow 55") (py "Rate 3.25"))
                    (py "scan.png") (py "image") [] eq_refl)).
Defined.

(** ** The path of the OCR output *)

Lemma contains_tail {A} (eqb : A -> A -> bool) (sub : list A) (x : A) (l : list A) :
  contains eqb sub (x :: l) = false ->
  starts_with eqb sub (x :: l) = false /\ contains eqb sub l = false.
Proof. simpl. intros H. apply orb_false_iff in H. exact H. Qed.

Lemma replace_fuel_absent (old new : str) (fuel : nat) (s : str) :
  contains Ascii.eqb old s = false -> replace_fuel fuel old new s = s.
Proof.
  revert s. induction fuel as [|fuel IH]; intros s H; [reflexivity|].
  destruct s as [|c s]; [reflexivity|].
  apply contains_tail in H. destruct H as [H1 H2].
  cbn [replace_fuel]. rewrite H1, IH by exact H2. reflexivity.
Qed.

Lemma starts_with_split (p l : str) :
  starts_with Ascii.eqb p l = true -> l = p ++ skipn (length p) l.
Proof.
  revert l. induction p as [|x p IH]; intros l H; [reflexivity|].
  destruct l as [|y l]; [discriminate|]. simpl in H.
  apply andb_true_iff in H. destruct H as [E H]. apply Ascii.eqb_eq in E. subst y.
  simpl. f_equal. auto.
Qed.

(** A replacement by a longer string does not shorten, and lengthens
    when there is an occurrence. *)
Lemma replace_fuel_length (old new : str) (k : nat) :
  length new = length old + k -> old <> [] ->
  forall fuel s,
    length s <= fuel ->
    length s <= length (replace_fuel fuel old new s)
    /\ (contains Ascii.eqb old s = true ->
        length s + k <= length (replace_fuel fuel old new s)).
Proof.
  intros L N. induction fuel as [|fuel IH]; intros s B.
  - destruct s; [|simpl in B; lia]. split; [simpl; lia|].
    destruct old; [congruence|discriminate].
  - destruct s as [|c s].
    { split; [simpl; lia|]. destruct old; [congruence|discriminate]. }
    cbn [replace_fuel].
    destruct (starts_with Ascii.eqb old (c :: s)) eqn:E.
    + pose proof (starts_with_split _ _ E) as Sp.
      assert (length (c :: s) = length old + length (skipn (length old) (c :: s))) as Ls.
      { rewrite Sp at 1. rewrite length_app. reflexivity. }
      assert (0 < length old) by (destruct old; [congruence|simpl; lia]).
      destruct (IH (skipn (length old) (c :: s))) as [I1 _].
      { simpl in B. simpl in Ls. lia. }
      rewrite length_app. split; intros; lia.
    + destruct (IH s) as [I1 I2]; [simpl in B; lia|].
      split; [simpl; lia|]. intros C. simpl in C. rewrite E in C. simpl in C.
      specialize (I2 C). simpl. lia.
Qed.

(** X8: the path of the OCR output is the path of the document itself
    exactly when [.pdf], in lower case, does not occur in it, and it is
    four characters longer or more otherwise.  For a sparse document with
    such a path, when the OCRmyPDF run returns, the run was asked to
    write over the document, and the cleanup removes the document. *)
Theorem X8_ocr_output_path :
  (forall file_path,
      contains Ascii.eqb (py ".pdf") file_path = false ->
      ocr_output_path file_path = file_path)
  /\ (forall file_path,
         contains Ascii.eqb (py ".pdf") file_path = true ->
         length file_path + 4 <= length (ocr_output_path file_path))
  /\ (forall Image (host : Host Image) file_path t u,
         contains Ascii.eqb (py ".pdf") file_path = false ->
         is_sparse (text_of_pdf host file_path t) = true ->
         ocrmypdf_ocr host (t ++ [EvPdfRead file_path]) file_path file_path = Returned u ->
         snd (acquire_text host file_path (py "pdf") t)
         = t ++ [EvPdfRead file_path; EvOcrMyPdf file_path file_path;
                 EvPdfRead file_path; EvRemove file_path]).
Proof.
  assert (forall file_path,
             contains Ascii.eqb (py ".pdf") file_path = false ->
             ocr_output_path file_path = file_path) as Id.
  { intros file_path H. apply replace_fuel_absent. exact H. }
  split; [exact Id|]. split.
  - intros file_path H. unfold ocr_output_path, replace.
    destruct (@replace_fuel_length (py ".pdf") (py "_ocr.pdf") 4 eq_refl
                ltac:(discriminate) (length file_path) file_path (le_n _)) as [_ I].
    exact (I H).
  - intros Image host file_path t u H S O.
    rewrite acquire_text_pdf_eq. cbv zeta. rewrite S, (Id _ H), O.
    cbn [snd]. rewrite <- !app_assoc. reflexivity.
Qed.

Lemma X8_ocr_output_path_witness :
  contains Ascii.eqb (py ".pdf") (py "/tmp/x/STATEMENT.PDF") = false
  /\ ocr_output_path (py "/tmp/x/STATEMENT.PDF") = py "/tmp/x/STATEMENT.PDF"
  /\ contains Ascii.eqb (py ".pdf") (py "/tmp/a.pdf.d/stmt.pdf") = true
  /\ length (py "/tmp/a.pdf.d/stmt.pdf") + 4
     <= length (ocr_output_path (py "/tmp/a.pdf.d/stmt.pdf"))
  /\ snd (acquire_text ocr_success_host (py "/tmp/x/STATEMENT.PDF") (py "pdf") [])
     = [EvPdfRead (py "/tmp/x/STATEMENT.PDF");
        EvOcrMyPdf (py "/tmp/x/STATEMENT.PDF") (py "/tmp/x/STATEMENT.PDF");
        EvPdfRead (py "/tmp/x/STATEMENT.PDF"); EvRemove (py "/tmp/x/STATEMENT.PDF")].
Proof.
  split; [reflexivity|]. split.
  - exact (proj1 X8_ocr_output_path (py "/tmp/x/STATEMENT.PDF") eq_refl).
  - split; [reflexivity|]. split.
    + exact (proj1 (proj2 X8_ocr_output_path) (py "/tmp/a.pdf.d/stmt.pdf") eq_refl).
    + exact (proj2 (proj2 X8_ocr_output_path) unit ocr_success_host
               (py "/tmp/x/STATEMENT.PDF") [] tt eq_refl eq_refl eq_refl).
Defined.

(** ** The score of a text *)

Lemma starts_with_app {A} (eqb : A -> A -> bool) (sub l l' : list A) :
  starts_with eqb sub l = true -> starts_with eqb sub (l ++ l') = true.
Proof.
  revert l. induction sub as [|x sub IH]; intros l H; [reflexivity|].
  destruct l as [|y l]; [discriminate|]. simpl in *.
  apply andb_true_iff in H. destruct H as [E H]. rewrite E. simpl. auto.
Qed.

Lemma contains_app_l {A} (eqb : A -> A -> bool) (sub l l' : list A) :
  contains eqb sub l = true -> contains eqb sub (l ++ l') = true.
Proof.
  induction l as [|y l IH]; intros H.
  - simpl in H. rewrite orb_false_r in H. destruct sub; [|discriminate].
    destruct l'; reflexivity.
  - simpl in H. apply orb_true_iff in H.
    change ((y :: l) ++ l') with (y :: (l ++ l')). cbn [contains].
    apply orb_true_iff. destruct H as [H|H].
    + left. exact (@starts_with_app _ eqb sub (y :: l) l' H).
    + right. auto.
Qed.

Lemma contains_app_r {A} (eqb : A -> A -> bool) (sub l l' : list A) :
  contains eqb sub l' = true -> contains eqb sub (l ++ l') = true.
Proof.
  intros H. induction l as [|y l IH]; [exact H|].
  change ((y :: l) ++ l') with (y :: (l ++ l')). cbn [contains].
  rewrite IH. apply orb_true_r.
Qed.

Lemma count_if_app {A} (p : A -> bool) (l l' : list A) :
  count_if p (l ++ l') = count_if p l + count_if p l'.
Proof. unfold count_if. rewrite filter_app, length_app. reflexivity. Qed.

Lemma count_if_le {A} (p q : A -> bool) (l : list A) :
  (forall x, In x l -> p x = true -> q x = true) -> count_if p l <= count_if q l.
Proof.
  unfold count_if. induction l as [|x l IH]; intros H; [auto|].
  simpl. assert (length (filter p l) <= length (filter q l)) as I.
  { apply IH. intros y Iy. apply H. right. exact Iy. }
  destruct (p x) eqn:P.
  - rewrite (H x (or_introl eq_refl) P). simpl. lia.
  - destruct (q x); simpl; lia.
Qed.

Lemma count_if_bound {A} (p : A -> bool) (l : list A) : count_if p l <= length l.
Proof. unfold count_if. apply filter_length_le. Qed.

Lemma keyword_hits_app (a b : str) :
  keyword_hits a <= keyword_hits (a ++ b) /\ keyword_hits b <= keyword_hits (a ++ b).
Proof.
  unfold keyword_hits, upper. rewrite flat_map_app.
  split; apply count_if_le; intros kw _ H.
  - apply contains_app_l. exact H.
  - apply contains_app_r. exact H.
Qed.

Lemma score_text_eq (text : str) :
  score_text text = count_if isdigit text + 50 * keyword_hits text + length text / 200.
Proof. reflexivity. Qed.

(** X9: the score of a text is at least the number of its digits and at
    most that number plus 400 plus the length over 200: each of the eight
    keywords counts once, however often it occurs.  The empty text scores
    0, and text added before or after a text never lowers its score. *)
Theorem X9_score_bounds :
  (forall text,
      count_if isdigit text <= score_text text
      /\ score_text text <= count_if isdigit text + 400 + length text / 200)
  /\ score_text [] = 0
  /\ (forall a b, score_text a <= score_text (a ++ b)
                  /\ score_text b <= score_text (a ++ b)).
Proof.
  split; [|split; [reflexivity|]].
  - intros text. rewrite score_text_eq.
    assert (keyword_hits text <= 8) as K.
    { unfold keyword_hits.
      exact (count_if_bound (fun kw => contains N.eqb kw (upper text)) keywords). }
    lia.
  - intros a b. rewrite !score_text_eq, !count_if_app, length_app.
    destruct (keyword_hits_app a b) as [Ka Kb].
    assert (length a / 200 <= (length a + length b) / 200) as La
      by (apply Nat.Div0.div_le_mono; lia).
    assert (length b / 200 <= (length a + length b) / 200) as Lb
      by (apply Nat.Div0.div_le_mono; lia).
    lia.
Qed.

(** ** The head of the upload endpoint *)

Lemma lower_lower (c : ascii) : lower (lower c) = lower c.
Proof. destruct c as [[] [] [] [] [] [] [] []]; vm_compute; reflexivity. Qed.

Lemma lower_str_idem (s : str) : lower_str (lower_str s) = lower_str s.
Proof.
  unfold lower_str. rewrite map_map. apply map_ext. exact lower_lower.
Qed.

Lemma lower_str_app (a b : str) : lower_str (a ++ b) = lower_str a ++ lower_str b.
Proof. apply map_app. Qed.

Lemma contains_within {A} (eqb : A -> A -> bool) (sub a c b : list A) :
  contains eqb sub c = true -> contains eqb sub (a ++ c ++ b) = true.
Proof. intros H. apply contains_app_r, contains_app_l. exact H. Qed.

(** What [classify_upload] answers, from the two tests of the source. *)
Lemma classify_upload_cases (c : str) :
  let is_pdf := contains Ascii.eqb (py "pdf") (lower_str c) in
  let is_image :=
    existsb (fun img_type => contains Ascii.eqb img_type (lower_str c))
      [py "image"; py "jpg"; py "jpeg"; py "png"] in
  (is_pdf = true /\ classify_upload (Some c) = Some (py "pdf"))
  \/ (is_pdf = false /\ is_image = true /\ classify_upload (Some c) = Some (py "image"))
  \/ (is_pdf = false /\ is_image = false /\ classify_upload (Some c) = None).
Proof.
  cbv zeta. unfold classify_upload.
  destruct (contains Ascii.eqb (py "pdf") (lower_str c)); [left; auto|].
  destruct (existsb _ _); [right; left; auto|right; right; auto].
Qed.

(** X10: the file type of an upload is decided by its content type
    alone, read in lower case: it is [pdf] exactly when the letters pdf
    occur in it, [image] exactly when they do not and one of image, jpg,
    jpeg, png occurs, and the upload is rejected exactly when none of the
    five occurs, as for a missing or empty content type.  The tests are
    substring tests: a content type that contains an accepted one is
    accepted, and one that contains a PDF content type is a PDF, whatever
    else it says.  The three content types of the rejection message are
    accepted. *)
Theorem X10_upload_type :
  (forall c : str,
      let occurs (word : str) := contains Ascii.eqb word (lower_str c) in
      (classify_upload (Some c) = Some (py "pdf") <-> occurs (py "pdf") = true)
      /\ (classify_upload (Some c) = Some (py "image") <->
          occurs (py "pdf") = false
          /\ (occurs (py "image") = true \/ occurs (py "jpg") = true
              \/ occurs (py "jpeg") = true \/ occurs (py "png") = true))
      /\ (classify_upload (Some c) = None <->
          occurs (py "pdf") = false /\ occurs (py "image") = false /\ occurs (py "jpg") = false
          /\ occurs (py "jpeg") = false /\ occurs (py "png") = false))
  /\ (forall content_type,
         classify_upload content_type = None
         \/ classify_upload content_type = Some (py "pdf")
         \/ classify_upload content_type = Some (py "image"))
  /\ classify_upload None = None
  /\ classify_upload (Some []) = None
  /\ (forall c, classify_upload (Some (lower_str c)) = classify_upload (Some c))
  /\ (forall a c b : str,
         classify_upload (Some c) = Some (py "pdf") ->
         classify_upload (Some (a ++ c ++ b)) = Some (py "pdf"))
  /\ (forall a c b : str,
         classify_upload (Some c) <> None ->
         classify_upload (Some (a ++ c ++ b)) <> None)
  /\ classify_upload (Some (py "application/pdf")) = Some (py "pdf")
  /\ classify_upload (Some (py "image/jpeg")) = Some (py "image")
  /\ classify_upload (Some (py "image/png")) = Some (py "image")
  /\ classify_upload (Some (py "IMAGE/PDF")) = Some (py "pdf")
  /\ classify_upload (Some (py "text/plain")) = None.
Proof.
  split.
  { intros c. cbv zeta. unfold classify_upload. cbn [existsb].
    destruct (contains Ascii.eqb (py "pdf") (lower_str c));
      destruct (contains Ascii.eqb (py "image") (lower_str c));
      destruct (contains Ascii.eqb (py "jpg") (lower_str c));
      destruct (contains Ascii.eqb (py "jpeg") (lower_str c));
      destruct (contains Ascii.eqb (py "png") (lower_str c));
      cbn [negb orb]; intuition (try discriminate; try congruence). }
  split.
  { intros [c|]; [|left; reflexivity].
    destruct (classify_upload_cases c) as [[_ H]|[(_ & _ & H)|(_ & _ & H)]]; auto. }
  do 2 (split; [reflexivity|]). split.
  { intros c. unfold classify_upload. rewrite lower_str_idem. reflexivity. }
  split.
  { intros a c b H.
    destruct (classify_upload_cases c) as [[P _]|[(_ & _ & E)|(_ & _ & E)]];
      [|rewrite E in H; discriminate H..].
    destruct (classify_upload_cases (a ++ c ++ b)) as [[_ E]|[(Q & _)|(Q & _)]];
      [exact E|exfalso..];
      rewrite !lower_str_app, (@contains_within _ Ascii.eqb _ _ _ _ P) in Q;
      discriminate Q. }
  split.
  { intros a c b H.
    destruct (classify_upload_cases (a ++ c ++ b)) as [[_ E]|[(_ & _ & E)|(Q & I & _)]];
      [intros N; pose proof (eq_trans (eq_sym E) N) as X; discriminate X..|].
    exfalso. rewrite !lower_str_app in Q, I.
    destruct (classify_upload_cases c) as [[P _]|[(_ & J & _)|(_ & _ & E)]].
    - rewrite (@contains_within _ Ascii.eqb _ _ _ _ P) in Q. discriminate Q.
    - apply existsb_exists in J. destruct J as (ty & In_ty & J).
      assert (existsb (fun img_type =>
                         contains Ascii.eqb img_type
                           (lower_str a ++ lower_str c ++ lower_str b))
                [py "image"; py "jpg"; py "jpeg"; py "png"] = true) as K.
      { apply existsb_exists. exists ty. split; [exact In_ty|].
        apply contains_within. exact J. }
      rewrite K in I. discriminate I.
    - exact (H E). }
  repeat split; vm_compute; reflexivity.
Qed.

Lemma X10_upload_type_witness :
  classify_upload (Some (py "application/pdf")) = Some (py "pdf")
  /\ classify_upload (Some (py "x-" ++ py "application/pdf" ++ py "; charset=binary"))
     = Some (py "pdf")
  /\ classify_upload (Some (py "image/png")) <> None
  /\ classify_upload (Some (py "multipart/" ++ py "image/png" ++ py "+zip")) <> None.
Proof.
  split; [reflexivity|]. split.
  - exact (proj1 (proj2 (proj2 (proj2 (proj2 (proj2 X10_upload_type)))))
             (py "x-") (py "application/pdf") (py "; charset=binary") eq_refl).
  - assert (classify_upload (Some (py "image/png")) <> None) as H
      by (vm_compute; discriminate).
    split; [exact H|].
    exact (proj1 (proj2 (proj2 (proj2 (proj2 (proj2 (proj2 X10_upload_type))))))
             (py "multipart/") (py "image/png") (py "+zip") H).
Defined.

(** X11: the upload is staged under the temporary directory, a slash
    and its file name, and under the name upload.<file type> when it has
    no file name or an empty one; but a file name that begins with a
    slash is used as it is, so that the upload is written outside the
    temporary directory. *)
Theorem X11_staged_path :
  forall temp_dir file_type,
    (forall f, staged_path temp_dir (Some ("/"%char :: f)) file_type = "/"%char :: f)
    /\ (truthy temp_dir = true -> endswith (py "/") temp_dir = false ->
        (forall c f, c <> "/"%char ->
                     staged_path temp_dir (Some (c :: f)) file_type
                     = temp_dir ++ py "/" ++ c :: f)
        /\ staged_path temp_dir None file_type
           = temp_dir ++ py "/upload." ++ file_type
        /\ staged_path temp_dir (Some []) file_type
           = temp_dir ++ py "/upload." ++ file_type).
Proof.
  intros temp_dir file_type. split.
  - intros f. unfold staged_path, path_join. simpl. reflexivity.
  - intros T E. split; [|split].
    + intros c f N. unfold staged_path, path_join. rewrite T, E.
      cbn [starts_with py list_ascii_of_string].
      destruct (Ascii.eqb "/" c) eqn:Q; [|reflexivity].
      apply Ascii.eqb_eq in Q. congruence.
    + unfold staged_path, path_join. rewrite T, E. reflexivity.
    + unfold staged_path, path_join. rewrite T, E. reflexivity.
Qed.

Lemma X11_staged_path_witness :
  staged_path (py "/tmp/tmpk3") (Some (py "/etc/cron.d/job")) (py "pdf")
  = py "/etc/cron.d/job"
  /\ staged_path (py "/tmp/tmpk3") (Some (py "stmt.pdf")) (py "pdf")
     = py "/tmp/tmpk3/stmt.pdf"
  /\ staged_path (py "/tmp/tmpk3") None (py "image") = py "/tmp/tmpk3/upload.image".
Proof.
  split.
  - exact (proj1 (X11_staged_path (py "/tmp/tmpk3") (py "pdf")) (py "etc/cron.d/job")).
  - split.
    + exact (proj1 (proj2 (X11_staged_path (py "/tmp/tmpk3") (py "pdf")) eq_refl eq_refl)
               "s"%char (py "tmt.pdf") ltac:(discriminate)).
    + exact (proj1 (proj2 (proj2 (X11_staged_path (py "/tmp/tmpk3") (py "image"))
                             eq_refl eq_refl))).
Defined.


(** ** Blank and sparse texts *)

Lemma dropwhile_all {A} (p : A -> bool) (l : list A) :
  Forall (fun x => p x = true) l -> dropwhile p l = [].
Proof. induction 1 as [|x l H F IH]; simpl; [reflexivity|]. rewrite H. exact IH. Qed.

Lemma dropwhile_nil {A} (p : A -> bool) (l : list A) :
  dropwhile p l = [] -> Forall (fun x => p x = true) l.
Proof.
  induction l as [|x l IH]; simpl; [constructor|].
  destruct (p x) eqn:E; [|discriminate]. intros H. constructor; auto.
Qed.

Lemma dropwhile_app_all {A} (p : A -> bool) (ws l : list A) :
  Forall (fun x => p x = true) ws -> dropwhile p (ws ++ l) = dropwhile p l.
Proof. induction 1 as [|x ws H F IH]; simpl; [reflexivity|]. rewrite H. exact IH. Qed.

Lemma dropwhile_length {A} (p : A -> bool) (l : list A) :
  length (dropwhile p l) <= length l.
Proof.
  induction l as [|x l IH]; simpl; [lia|]. destruct (p x); simpl; lia.
Qed.

Lemma rstrip_by_app_all (p : ascii -> bool) (s ws : str) :
  Forall (fun x => p x = true) ws -> rstrip_by p (s ++ ws) = rstrip_by p s.
Proof.
  intros F. unfold rstrip_by. rewrite rev_app_distr, dropwhile_app_all; [reflexivity|].
  apply Forall_rev. exact F.
Qed.

Lemma rstrip_by_nil (p : ascii -> bool) (s : str) :
  rstrip_by p s = [] -> Forall (fun x => p x = true) s.
Proof.
  unfold rstrip_by. intros H.
  assert (dropwhile p (rev s) = []) as E.
  { rewrite <- (rev_involutive (dropwhile p (rev s))), H. reflexivity. }
  apply dropwhile_nil in E. rewrite <- (rev_involutive s). apply Forall_rev. exact E.
Qed.

Lemma dropwhile_app_visible {A} (p : A -> bool) (l ws : list A) :
  dropwhile p l <> [] -> dropwhile p (l ++ ws) = dropwhile p l ++ ws.
Proof.
  induction l as [|x l IH]; simpl; [congruence|].
  destruct (p x); [exact IH|reflexivity].
Qed.

(** White space around a text does not change what [strip] gives. *)
Lemma strip_padding (ws1 text ws2 : str) :
  blank ws1 -> blank ws2 -> strip (ws1 ++ text ++ ws2) = strip text.
Proof.
  unfold blank, strip, lstrip_by. intros F1 F2.
  rewrite dropwhile_app_all by exact F1.
  destruct (dropwhile isspace text) as [|x l] eqn:E.
  - rewrite dropwhile_all; [reflexivity|].
    apply Forall_app. split; [apply dropwhile_nil; exact E|exact F2].
  - rewrite dropwhile_app_visible by (rewrite E; discriminate).
    rewrite E. apply rstrip_by_app_all. exact F2.
Qed.

Lemma strip_length (text : str) : length (strip text) <= length text.
Proof.
  unfold strip, rstrip_by, lstrip_by. rewrite length_rev.
  etransitivity; [apply dropwhile_length|]. rewrite length_rev.
  apply dropwhile_length.
Qed.

Lemma strip_blank (text : str) : truthy (strip text) = false <-> blank text.
Proof.
  unfold blank, strip, lstrip_by. split.
  - intros H.
    destruct (rstrip_by isspace (dropwhile isspace text)) as [|x l] eqn:E; [|discriminate].
    apply rstrip_by_nil in E.
    destruct (dropwhile isspace text) as [|y l] eqn:D.
    + apply dropwhile_nil. exact D.
    + exfalso. apply Forall_inv in E.
      assert (isspace y = false) as N.
      { clear -D. induction text as [|z text IH]; simpl in D; [discriminate|].
        destruct (isspace z) eqn:Z; [auto|]. inversion D; subst. exact Z. }
      congruence.
  - intros F. rewrite dropwhile_all by exact F. reflexivity.
Qed.

(** X12: a first page is sparse, so that OCRmyPDF is tried, exactly
    when fewer than 100 characters are left of it once the white space
    at its two ends is removed; the test for an empty text adds nothing
    to the test of the length.  White space before and after the text
    does not count, and a page of fewer than 100 characters is always
    sparse. *)
Theorem X12_sparse_threshold :
  (forall text, is_sparse text = (length (strip text) <? 100))
  /\ (forall ws1 text ws2,
         blank ws1 -> blank ws2 -> is_sparse (ws1 ++ text ++ ws2) = is_sparse text)
  /\ (forall text, length text < 100 -> is_sparse text = true)
  /\ (forall text, blank text -> is_sparse text = true).
Proof.
  assert (forall text, is_sparse text = (length (strip text) <? 100)) as T.
  { intros text. unfold is_sparse. destruct (strip text); reflexivity. }
  split; [exact T|]. split; [|split].
  - intros ws1 text ws2 F1 F2. rewrite !T, strip_padding by assumption. reflexivity.
  - intros text L. rewrite T. apply Nat.ltb_lt.
    pose proof (strip_length text). lia.
  - intros text B. apply strip_blank in B. unfold is_sparse. 
    rewrite B. reflexivity.
Qed.

Lemma X12_sparse_threshold_witness :
  blank (py "  ") /\ blank [newline]
  /\ is_sparse (py "  " ++ py "Statement of account" ++ [newline])
     = is_sparse (py "Statement of account")
  /\ is_sparse (py "Statement of account") = true.
Proof.
  assert (blank (py "  ")) as B1 by (repeat constructor).
  assert (blank [newline]) as B2 by (repeat constructor).
  split; [exact B1|]. split; [exact B2|]. split.
  - exact (proj1 (proj2 X12_sparse_threshold) (py "  ") (py "Statement of account")
             [newline] B1 B2).
  - apply (proj1 (proj2 (proj2 X12_sparse_threshold)) (py "Statement of account")).
    vm_compute. lia.
Defined.

(** ** No field from a blank text *)

Lemma space_lower (x : ascii) : isspace x = true -> lower x = x.
Proof. by_cases_on x. Qed.

Lemma space_not_digit (x : ascii) : isspace x = true -> isdecimal x = false.
Proof. by_cases_on x. Qed.

Lemma space_not_word (x : ascii) : isspace x = true -> isword x = false.
Proof. by_cases_on x. Qed.

Lemma atom_visible_sound (ic : bool) (a : atom) (x : ascii) :
  atom_visible ic a = true -> test_atom ic a x = true -> isspace x = false.
Proof.
  intros V T. destruct (isspace x) eqn:Sp; [exfalso|reflexivity].
  destruct a as [c| | |]; simpl in *.
  - destruct ic.
    + apply Ascii.eqb_eq in T. rewrite (space_lower _ Sp) in T. subst x.
      rewrite Sp in V. discriminate.
    + apply Ascii.eqb_eq in T. subst x. rewrite Sp in V. discriminate.
  - rewrite (space_not_digit _ Sp) in T. discriminate.
  - discriminate.
  - rewrite (space_not_word _ Sp) in T. discriminate.
Qed.

Lemma class_visible_sound (ic : bool) (c : cclass) (x : ascii) :
  class_visible ic c = true -> test ic c x = true -> isspace x = false.
Proof.
  destruct c as [a| |l]; simpl.
  - apply atom_visible_sound.
  - discriminate.
  - intros V T. apply existsb_exists in T. destruct T as (a & I & T).
    rewrite forallb_forall in V. exact (@atom_visible_sound ic a x (V a I) T).
Qed.

(** A pattern that consumes a visible character matches nowhere in a
    blank text. *)
Lemma consumes_visible_sound (ic : bool) (r : regex) :
  consumes_visible ic r = true ->
  forall pos s g pos' s' g',
    blank s -> matches ic r pos s g pos' s' g' -> False.
Proof.
  unfold blank.
  induction r as [|c|r1 IH1 r2 IH2|r1 IH1 r2 IH2|gr lo hi c|n r1 IH1| |];
    intros V pos s g pos' s' g' B M; simpl in V, M; try discriminate.
  - destruct M as (x & -> & T & _). apply Forall_inv in B.
    rewrite (@class_visible_sound ic c x V T) in B. discriminate.
  - destruct M as (p1 & s1 & g1 & M1 & M2).
    apply orb_true_iff in V. destruct V as [V|V].
    + exact (IH1 V _ _ _ _ _ _ B M1).
    + destruct (matches_consumed _ _ _ _ _ _ _ _ M1) as (w & -> & _).
      apply Forall_app in B. destruct B as [_ B].
      exact (IH2 V _ _ _ _ _ _ B M2).
  - apply andb_true_iff in V. destruct V as [V1 V2].
    destruct M as [M|M]; [exact (IH1 V1 _ _ _ _ _ _ B M)|exact (IH2 V2 _ _ _ _ _ _ B M)].
  - apply andb_true_iff in V. destruct V as [L V]. apply Nat.ltb_lt in L.
    destruct M as (w & -> & F & Lo & _).
    destruct w as [|x w]; [simpl in Lo; lia|].
    apply Forall_inv in F. apply Forall_inv in B.
    rewrite (@class_visible_sound ic c x V F) in B. discriminate.
  - destruct M as (g1 & M & _). exact (IH1 V _ _ _ _ _ _ B M).
Qed.

Lemma re_search_blank (ic : bool) (r : regex) (text : str) :
  consumes_visible ic r = true -> blank text -> re_search ic r text = None.
Proof.
  intros V B. destruct (re_search ic r text) as [m|] eqn:S; [exfalso|reflexivity].
  unfold re_search in S.
  destruct (search_from_sound _ _ _ _ S) as (sk & rest & s' & -> & _ & M).
  apply Forall_app in B. destruct B as [_ B].
  exact (@consumes_visible_sound ic r V _ _ _ _ _ _ B M).
Qed.

Lemma parsers_blank (date_parse : str -> parse_answer) (text : str) (prov : Provenance) :
  blank text ->
  extract_principal_balance text prov = None
  /\ extract_note_rate text prov = None
  /\ extract_scheduled_pi text prov = None
  /\ extract_escrow text prov = None
  /\ extract_next_due_date date_parse text prov = Returned None
  /\ extract_maturity_date date_parse text prov = Returned None.
Proof.
  intros B. repeat split.
  - unfold extract_principal_balance. rewrite first_some_one.
    unfold plain_amount_field. rewrite re_search_blank; auto.
  - unfold extract_note_rate. rewrite first_some_one.
    unfold primary_note_rate, secondary_note_rate. rewrite !re_search_blank; auto.
  - unfold extract_scheduled_pi, all_patterns, primary_patterns, secondary_patterns,
      fallback_patterns. simpl. rewrite !re_search_blank; auto.
  - unfold extract_escrow. rewrite first_some_one.
    unfold plain_amount_field. rewrite re_search_blank; auto.
  - unfold extract_next_due_date. rewrite first_answer_one.
    unfold date_field. rewrite re_search_blank; auto.
  - unfold extract_maturity_date. rewrite first_answer_one.
    unfold date_field. rewrite re_search_blank; auto.
Qed.

(** X13: on a text of white space only, the empty text included, each
    of the six parsers returns nothing, and none raises.  So the fields
    of a result are always what the parsers give on the acquired text,
    with the empty extraction for those that give nothing, and the
    assembly raises exactly when the parsers do: the test for a blank
    text in [process_extraction] decides the error message and no
    field. *)
Theorem X13_blank_text_no_field :
  forall (date_parse : str -> parse_answer),
    (forall parser text prov,
        In parser (field_parsers date_parse) ->
        truthy (strip text) = false ->
        parser text prov = Returned None)
    /\ (forall Image (host : Host Image) file_type text prov errs,
           match run_heuristics date_parse text prov empty_fields with
           | Returned d =>
               exists r,
                 assemble host date_parse file_type text prov errs = Returned r
                 /\ fields r = fill_missing prov d
           | Raised e =>
               assemble host date_parse file_type text prov errs = Raised e
           end).
Proof.
  intros date_parse. split.
  - intros parser text prov I B. apply strip_blank in B.
    destruct (@parsers_blank date_parse text prov B) as (P1 & P2 & P3 & P4 & P5 & P6).
    simpl in I.
    destruct I as [<-|[<-|[<-|[<-|[<-|[<-|[]]]]]]]; unfold returning;
      congruence.
  - intros Image host file_type text prov errs.
    unfold assemble. cbv zeta. destruct (truthy (strip text)) eqn:B.
    + destruct (run_heuristics date_parse text prov empty_fields) as [e|d];
        [reflexivity|]. eexists. split; reflexivity.
    + apply strip_blank in B.
      destruct (@parsers_blank date_parse text prov B) as (P1 & P2 & P3 & P4 & P5 & P6).
      unfold run_heuristics. rewrite P1, P2, P3, P4, P5, P6. cbv zeta.
      eexists. split; reflexivity.
Qed.

Lemma X13_blank_text_no_field_witness :
  truthy (strip [" "%char; newline; " "%char]) = false
  /\ extract_next_due_date sample_date_parse [" "%char; newline; " "%char] ocr_text
     = Returned None.
Proof.
  split; [reflexivity|].
  apply (proj1 (X13_blank_text_no_field sample_date_parse)
           (extract_next_due_date sample_date_parse)).
  - simpl. auto 10.
  - reflexivity.
Defined.

(** ** When a labelled amount is emitted *)

Lemma scan_digitpart_digits (ds r : str) :
  Forall (fun c => isdecimal c = true) ds ->
  r = [] \/ (exists fp, r = "."%char :: fp) ->
  scan_digitpart (ds ++ r) = (ds, r).
Proof.
  intros F R. induction F as [|d ds D F IH].
  - destruct R as [->|(fp & ->)]; reflexivity.
  - change ((d :: ds) ++ r) with (d :: (ds ++ r)). cbn [scan_digitpart]. rewrite D.
    destruct (ds ++ r) as [|u [|d2 t]] eqn:E.
    + rewrite IH. reflexivity.
    + rewrite IH. reflexivity.
    + assert (Ascii.eqb u "_" = false) as U.
      { destruct ds as [|x ds'].
        - simpl in E. destruct R as [->|(fp & ->)]; [discriminate|].
          inversion E. reflexivity.
        - inversion E; subst. apply Forall_inv in F. revert F. by_cases_on u. }
      rewrite U. cbn [andb]. rewrite IH. reflexivity.
Qed.

Lemma parse_unsigned_decimal (neg : bool) (ip fp v : str) :
  Forall (fun c => isdecimal c = true) ip ->
  Forall (fun c => isdecimal c = true) fp ->
  ip ++ fp <> [] ->
  v = ip ++ fp \/ v = ip ++ py "." ++ fp ->
  exists x, parse_floatnumber neg v = Some x.
Proof.
  assert (forall ds, Forall (fun c => isdecimal c = true) ds ->
                     scan_digitpart ds = (ds, [])) as Sd.
  { intros ds F. pose proof (@scan_digitpart_digits ds [] F (or_introl eq_refl)) as E.
    rewrite app_nil_r in E. exact E. }
  intros Fi Ff N [->| ->]; unfold parse_floatnumber.
  - rewrite Sd by (apply Forall_app; auto).
    rewrite app_nil_r. destruct (ip ++ fp) as [|c l]; [congruence|].
    cbn [scan_exponent]. eauto.
  - rewrite scan_digitpart_digits; [|exact Fi|right; simpl; eauto].
    cbn [py list_ascii_of_string app]. change (Ascii.eqb "." ".") with true. cbv iota.
    rewrite Sd by exact Ff.
    destruct (ip ++ fp) as [|c l]; [congruence|].
    cbn [scan_exponent]. eauto.
Qed.

Lemma unsigned_decimal_chars (v : str) :
  unsigned_decimal v -> Forall (fun c => is_decimal_char c = true) v.
Proof.
  intros (ip & fp & Fi & Ff & E & _).
  assert (forall l, Forall (fun c => isdecimal c = true) l ->
                    Forall (fun c => is_decimal_char c = true) l) as D.
  { intros l F. eapply Forall_impl; [|exact F].
    intros c H. unfold is_decimal_char. rewrite H. reflexivity. }
  destruct E as [->| ->]; repeat (apply Forall_app; split); auto.
  repeat constructor.
Qed.

(** [float] accepts every unsigned decimal numeral. *)
Lemma py_float_unsigned_decimal (v : str) :
  unsigned_decimal v -> exists x, py_float v = Some x.
Proof.
  intros U. pose proof (unsigned_decimal_chars U) as F.
  destruct U as (ip & fp & Fi & Ff & E & N).
  destruct (@parse_unsigned_decimal false ip fp v Fi Ff N E) as (x & P).
  exists x. unfold py_float. rewrite (float_strip_decimal F).
  destruct v as [|c s].
  - destruct E as [E|E]; symmetry in E; apply app_eq_nil in E; destruct E as [-> E'].
    + subst fp. contradiction.
    + discriminate.
  - inversion F as [|? ? Fc Fs]; subst.
    destruct (decimal_char_not_sign _ Fc) as [-> ->].
    destruct (decimal_char_not_letter _ Fc) as [Li Ln].
    cbn [map str_eqb py list_ascii_of_string]. rewrite Li, Ln. simpl. exact P.
Qed.

Lemma existsb_filter {A} (p q : A -> bool) (l : list A) :
  (forall x, p x = true -> q x = true) ->
  existsb p (filter q l) = existsb p l.
Proof.
  intros H. induction l as [|x l IH]; [reflexivity|]. simpl.
  destruct (q x) eqn:Q; simpl; rewrite IH; [reflexivity|].
  destruct (p x) eqn:P; [|reflexivity]. rewrite (H x P) in Q. discriminate.
Qed.

Lemma existsb_digits (l : str) :
  Forall (fun c => isdecimal c = true) l -> existsb isdecimal l = negb (Nat.eqb (length l) 0).
Proof. destruct 1 as [|x l H]; [reflexivity|]. simpl. rewrite H. reflexivity. Qed.

Lemma plain_amount_total (conf : Q) (text : str) (prov : Provenance)
    (pattern : regex) (m : re_match) :
  group_bodies 1 pattern = [amount_token] ->
  always_sets 1 pattern = true ->
  re_search true pattern text = Some m ->
  exists tok,
    group m 1 = Some tok
    /\ plain_amount_field conf text prov pattern
       = if existsb isdecimal tok
         then Some {| value := Some (replace (py ",") [] tok); confidence := conf;
                      provenance := prov |}
         else None.
Proof.
  intros B A S. destruct (@re_search_sets _ _ _ _ _ S A) as (tok & G).
  exists tok. split; [exact G|].
  destruct (re_search_group_matches _ _ _ _ S G) as (body & p0 & s1 & g0 & p1 & h1 & I & M).
  rewrite B in I. destruct I as [<-|[]].
  apply amount_token_decimal in M. destruct M as (ip & fp & Fi & Ff & E).
  unfold plain_amount_field. rewrite S, G. cbv zeta.
  assert (existsb isdecimal tok = existsb isdecimal (ip ++ fp)) as X.
  { rewrite <- (@existsb_filter _ isdecimal (fun c => negb (Ascii.eqb "," c)) tok)
      by exact digit_not_comma.
    rewrite <- replace_char. change [","%char] with (py ",").
    destruct E as [->| ->]; [reflexivity|].
    rewrite !existsb_app. reflexivity. }
  rewrite X, existsb_digits by (apply Forall_app; auto).
  destruct (ip ++ fp) as [|c l] eqn:N.
  - apply app_eq_nil in N. destruct N; subst ip fp.
    destruct E as [->| ->]; reflexivity.
  - destruct (@py_float_unsigned_decimal (replace (py ",") [] tok)) as (x & ->);
      [|reflexivity].
    exists ip, fp. rewrite N. repeat split; auto. discriminate.
Qed.

(** X14: once the label pattern of the principal balance or of the
    escrow matches, group 1 holds a token, and the field is emitted
    exactly when that token has a digit: the value is the token without
    its commas.  A token of commas and a point only, the one case in
    which [float] raises, gives no field; and so does a text in which the
    pattern matches nowhere. *)
Theorem X14_labelled_amount_emitted :
  forall text prov,
    (forall m, re_search true principal_balance_pattern text = Some m ->
               exists tok,
                 group m 1 = Some tok
                 /\ extract_principal_balance text prov
                    = if existsb isdecimal tok
                      then Some {| value := Some (replace (py ",") [] tok);
                                   confidence := conf_090; provenance := prov |}
                      else None)
    /\ (forall m, re_search true escrow_pattern text = Some m ->
                  exists tok,
                    group m 1 = Some tok
                    /\ extract_escrow text prov
                       = if existsb isdecimal tok
                         then Some {| value := Some (replace (py ",") [] tok);
                                      confidence := conf_085; provenance := prov |}
                         else None)
    /\ (re_search true principal_balance_pattern text = None ->
        extract_principal_balance text prov = None)
    /\ (re_search true escrow_pattern text = None -> extract_escrow text prov = None).
Proof.
  intros text prov. split; [|split; [|split]].
  - intros m S. unfold extract_principal_balance. rewrite first_some_one.
    apply plain_amount_total; [reflexivity|reflexivity|exact S].
  - intros m S. unfold extract_escrow. rewrite first_some_one.
    apply plain_amount_total; [reflexivity|reflexivity|exact S].
  - intros S. unfold extract_principal_balance. rewrite first_some_one.
    unfold plain_amount_field. rewrite S. reflexivity.
  - intros S. unfold extract_escrow. rewrite first_some_one.
    unfold plain_amount_field. rewrite S. reflexivity.
Qed.

Lemma X14_labelled_amount_emitted_witness :
  (exists m, re_search true escrow_pattern (py "Escrow: $ ,,.") = Some m
             /\ exists tok,
                  group m 1 = Some tok
                  /\ extract_escrow (py "Escrow: $ ,,.") pdf_text
                     = if existsb isdecimal tok
                       then Some {| value := Some (replace (py ",") [] tok);
                                    confidence := conf_085; provenance := pdf_text |}
                       else None)
  /\ extract_escrow (py "Escrow: $ ,,.") pdf_text = None
  /\ extract_escrow (py "Escrow: $ ,7.") pdf_text
     = Some {| value := Some (py "7."); confidence := conf_085; provenance := pdf_text |}.
Proof.
  split; [|split; vm_compute; reflexivity].
  destruct (re_search true escrow_pattern (py "Escrow: $ ,,.")) as [m|] eqn:S;
    [|vm_compute in S; discriminate].
  exists m. split; [reflexivity|].
  exact (proj1 (proj2 (X14_labelled_amount_emitted (py "Escrow: $ ,,.") pdf_text)) m S).
Defined.

(** ** The three tiers of the scheduled payment *)

Lemma scheduled_pi_step_conf (text : str) (prov : Provenance) (pattern : regex)
    (conf : Q) (fe : FieldExtraction) :
  scheduled_pi_step text prov (pattern, conf) = Some fe -> confidence fe = conf.
Proof.
  unfold scheduled_pi_step. intros H.
  destruct (re_search true pattern text) as [m|]; [|discriminate].
  destruct (group m 1) as [captured|]; [|discriminate].
  apply scheduled_pi_of_token_some in H. destruct H as (amount & _ & _ & _ & _ & ->).
  reflexivity.
Qed.

(** X15: the scheduled payment comes from the first of the three
    patterns, in the order primary, secondary, fallback, whose leftmost
    match passes the validation, and its confidence is the one of that
    pattern; whatever another pattern would give has a strictly lower
    confidence.  A label of a higher tier with an amount that fails the
    validation does not keep a lower tier from answering, and no field is
    emitted only when all three patterns give nothing. *)
Theorem X15_highest_tier_wins :
  forall text prov,
    (forall fe,
        extract_scheduled_pi text prov = Some fe ->
        exists rule,
          In rule all_patterns
          /\ scheduled_pi_step text prov rule = Some fe
          /\ confidence fe = snd rule
          /\ (forall rule' fe',
                 In rule' all_patterns ->
                 scheduled_pi_step text prov rule' = Some fe' ->
                 rule' = rule \/ (confidence fe' < confidence fe)%Q))
    /\ (extract_scheduled_pi text prov = None <->
        forall rule, In rule all_patterns -> scheduled_pi_step text prov rule = None).
Proof.
  intros text prov. unfold extract_scheduled_pi.
  change all_patterns
    with [(pi_primary_pattern, conf_090); (pi_secondary_pattern, conf_080);
          (pi_fallback_pattern, conf_065)].
  cbn [first_some].
  destruct (scheduled_pi_step text prov (pi_primary_pattern, conf_090)) as [f1|] eqn:S1;
    [pose proof (scheduled_pi_step_conf _ _ _ _ S1) as C1|];
    (destruct (scheduled_pi_step text prov (pi_secondary_pattern, conf_080))
       as [f2|] eqn:S2;
     [pose proof (scheduled_pi_step_conf _ _ _ _ S2) as C2|]);
    (destruct (scheduled_pi_step text prov (pi_fallback_pattern, conf_065))
       as [f3|] eqn:S3;
     [pose proof (scheduled_pi_step_conf _ _ _ _ S3) as C3|]);
    (split;
     [ intros fe H; inversion H; subst fe;
       match goal with
       | S : scheduled_pi_step text prov ?rule = Some ?f |- exists _, _ /\ _ = Some ?f /\ _ =>
           exists rule; split; [simpl; auto|];
           split; [exact S|]; split; [assumption|]
       | _ => idtac
       end;
       try (intros rule' fe' I' S';
            destruct I' as [<-|[<-|[<-|[]]]];
            try (left; reflexivity);
            try congruence;
            right;
            match goal with
            | A : scheduled_pi_step text prov ?r = Some ?a,
              B : scheduled_pi_step text prov ?r = Some ?b |- _ =>
                rewrite A in B; inversion B; subst
            end;
            match goal with
            | |- (confidence ?a < confidence ?b)%Q =>
                repeat match goal with
                       | E : confidence _ = _ |- _ => rewrite E; clear E
                       end
            end;
            reflexivity)
     | split;
       [ intros H; try discriminate H;
         intros rule I; destruct I as [<-|[<-|[<-|[]]]]; assumption
       | intros H;
         try reflexivity;
         first [ rewrite (H _ (or_introl eq_refl)) in S1; discriminate S1
               | rewrite (H _ (or_intror (or_introl eq_refl))) in S2; discriminate S2
               | rewrite (H _ (or_intror (or_intror (or_introl eq_refl)))) in S3;
                 discriminate S3 ] ] ]).
Qed.

Lemma X15_highest_tier_wins_witness :
  extract_scheduled_pi
    (py "Principal and Interest: $50.00 Monthly Payment: $1,500.00") pdf_text
  = Some {| value := Some (py "1500.00"); confidence := conf_080; provenance := pdf_text |}
  /\ exists rule,
       In rule all_patterns
       /\ scheduled_pi_step
            (py "Principal and Interest: $50.00 Monthly Payment: $1,500.00") pdf_text rule
          = Some {| value := Some (py "1500.00"); confidence := conf_080;
                    provenance := pdf_text |}
       /\ confidence {| value := Some (py "1500.00"); confidence := conf_080;
                        provenance := pdf_text |} = snd rule
       /\ (forall rule' fe',
              In rule' all_patterns ->
              scheduled_pi_step
                (py "Principal and Interest: $50.00 Monthly Payment: $1,500.00")
                pdf_text rule' = Some fe' ->
              rule' = rule
              \/ (confidence fe'
                  < confidence {| value := Some (py "1500.00"); confidence := conf_080;
                                  provenance := pdf_text |})%Q).
Proof.
  assert (extract_scheduled_pi
            (py "Principal and Interest: $50.00 Monthly Payment: $1,500.00") pdf_text
          = Some {| value := Some (py "1500.00"); confidence := conf_080;
                    provenance := pdf_text |}) as H by (vm_compute; reflexivity).
  split; [exact H|].
  exact (proj1 (X15_highest_tier_wins
                  (py "Principal and Interest: $50.00 Monthly Payment: $1,500.00")
                  pdf_text) _ H).
Defined.


(** ** The text sample *)

Lemma str_eqb_refl (a : str) : str_eqb a a = true.
Proof. induction a as [|x a IH]; simpl; [reflexivity|]. rewrite Ascii.eqb_refl. exact IH. Qed.

(** X16: the debug information holds a sample of the document text only
    when the environment variable EXTRACT_DEBUG is exactly 1; the sample
    is then the first 300 characters of the acquired text, the whole text
    when it is shorter.  With the variable unset or set to anything else,
    the key is absent. *)
Theorem X16_text_sample :
  forall Image (host : Host Image) date_parse file_path file_type t t' r,
    process_extraction host date_parse file_path file_type t = (Returned r, t') ->
    exists text prov,
      acquire_text host file_path file_type t = (Returned (text, prov), t')
      /\ (environ_get host (py "EXTRACT_DEBUG") = Some (py "1") ->
          text_sample (debug r) = Some (firstn 300 text))
      /\ (environ_get host (py "EXTRACT_DEBUG") <> Some (py "1") ->
          text_sample (debug r) = None)
      /\ (forall s, text_sample (debug r) = Some s ->
                    length s <= 300 /\ exists rest, text = s ++ rest).
Proof.
  intros Image host date_parse file_path file_type t t' r H.
  apply process_extraction_eq in H. destruct H as (text & prov & A & R).
  exists text, prov. split; [exact A|].
  assert (text_sample (debug r)
          = match environ_get host (py "EXTRACT_DEBUG") with
            | Some v => if str_eqb v (py "1") then Some (firstn 300 text) else None
            | None => None
            end) as E.
  { destruct (assemble_returned _ _ _ _ _ _ R) as (_ & _ & _ & _ & Dg).
    rewrite Dg. reflexivity. }
  rewrite E. clear E. split; [|split].
  - intros ->. rewrite str_eqb_refl. reflexivity.
  - intros N. destruct (environ_get host (py "EXTRACT_DEBUG")) as [v|]; [|reflexivity].
    destruct (str_eqb v (py "1")) eqn:Q; [|reflexivity].
    apply str_eqb_eq in Q. subst v. congruence.
  - intros s Hs.
    destruct (environ_get host (py "EXTRACT_DEBUG")) as [v|]; [|discriminate].
    destruct (str_eqb v (py "1")); [|discriminate].
    assert (firstn 300 text = s) as <- by congruence. split.
    + apply firstn_le_length.
    + exists (skipn 300 text). symmetry. apply firstn_skipn.
Qed.

Lemma X16_text_sample_witness :
  environ_get debug_host (py "EXTRACT_DEBUG") = Some (py "1")
  /\ exists r t',
       process_extraction debug_host no_dates (py "stmt.pdf") (py "pdf") []
       = (Returned r, t')
       /\ text_sample (debug r) = Some (py "Escrow: 250.00").
Proof.
  split; [reflexivity|].
  destruct (process_extraction debug_host no_dates (py "stmt.pdf") (py "pdf") [])
    as [[e|r] t'] eqn:E; [vm_compute in E; discriminate|].
  exists r, t'. split; [reflexivity|].
  destruct (X16_text_sample debug_host no_dates (py "stmt.pdf") (py "pdf") [] E)
    as (text & prov & A & S & _).
  rewrite (S eq_refl).
  assert (text = py "Escrow: 250.00") as ->.
  { vm_compute in E. vm_compute in A. inversion A. reflexivity. }
  reflexivity.
Defined.
